(** * ControlFin: the hierarchical transaction ledger of [src/App.tsx]

    A shallow embedding of the ledger code of the application: the
    record model of [src/types.ts], the transaction form
    ([TransactionModal.handleSubmit]), the save and delete handlers
    ([handleSaveTransaction], [confirmDeleteTransaction]), the category
    deletion guard, the dashboard totals and month filter, the
    available-month index and the tree builder
    ([transactionsWithSubItems]); further the category handlers of
    the settings page and the category lists of the form, the account
    handlers of [App] with the two dictionaries they keep, and the
    service worker.

    Modelling conventions.
    - A JavaScript [number] amount is a [float] of the Standard
      Library: an IEEE 754 binary64 number with round-to-nearest-even
      arithmetic and one [NaN], as in JavaScript.  [+] and [-] on
      amounts are [PrimFloat.add] and [PrimFloat.sub]; [==] and [===]
      on amounts are [PrimFloat.eqb], for which [NaN] differs from
      itself and [+0] equals [-0].  [=] on amounts is the identity of
      the number: it tells [+0] from [-0] and [NaN] is the one [NaN].
      The values of [Date.now()] and of [getTime()] are integers,
      written in [N] and [Z].
    - A string is a [string] of code units; [===] on strings is [=].
      The literals of this file that leave ASCII are in UTF-8, and so
      is the text that the instances [lower] and [trim] of the host's
      functions read.
    - An optional field ([parentId?], [notes?], [subItems?], [icon?]) is
      an [option]; [None] is [undefined].
    - JavaScript truthiness is written out: a string is truthy when it
      is not empty, [undefined] is falsy, an object or array is truthy.
    - [Array.prototype.reduce] is [fold_left]; [filter], [map], [some]
      and [find] are [List.filter], [List.map], [existsb] and
      [List.find] with the callback's boolean.
    - The plain object [transactionMap], used as a dictionary, is a
      finite map over the keys that were assigned to it, together with
      what a plain object inherits: the members of [Object.prototype],
      and the properties of the object assigned to the key
      [__proto__], which becomes the prototype of the map.
    - [Date] is the host's: its parsing is a parameter of the sections
      that use it.  So are [String.prototype.toLowerCase] and
      [String.prototype.trim], and the values of [Date.now()],
      [new Date().toISOString()] and [generateCode()] are arguments of
      the handlers that read them. *)

From Stdlib Require Import PrimFloat.
From Stdlib Require Import ZArith Lia Permutation DecimalString DecimalN Ascii Sorted.
From stdpp Require Import base gmap strings list.

Set Warnings "-register-all".
Set Warnings "-inexact-float".
Open Scope string_scope.
Open Scope list_scope.
Open Scope Z_scope.

(** ** Record model ([src/types.ts]) *)

Inductive TransactionType := INCOME | EXPENSE.

#[global] Instance TransactionType_eq_dec : EqDecision TransactionType.
Proof. solve_decision. Defined.

Inductive Transaction : Type := mkTransaction {
  id : string;
  description : string;
  amount : float;
  date : string;
  type : TransactionType;
  category : string;
  parentId : option string;
  subItems : option (list Transaction);
  notes : option string
}.

Record Category := mkCategory {
  cat_id : string;
  cat_name : string;
  cat_icon : option string
}.

(** [Omit<Transaction, 'id' | 'subItems'>], the argument of [onSave].
    The form always writes the seven keys, [parentId] and [notes]
    possibly as [undefined]. *)
Record TransactionData := mkTransactionData {
  d_description : string;
  d_amount : float;
  d_date : string;
  d_type : TransactionType;
  d_category : string;
  d_parentId : option string;
  d_notes : option string
}.

(** ** JavaScript idioms *)

(** Truthiness of a string: [!!s]. *)
Definition truthy_string (s : string) : bool := negb (String.eqb s "").

(** Truthiness of an optional string: [!!o]. *)
Definition truthy (o : option string) : bool :=
  match o with
  | Some s => truthy_string s
  | None => false
  end.

(** [o === s] for an optional string [o] and a string [s]. *)
Definition opt_is (o : option string) (s : string) : bool :=
  match o with
  | Some p => String.eqb p s
  | None => false
  end.

(** Truthiness of a number: [!!a] is false for [+0], [-0] and [NaN]. *)
Definition truthy_number (a : float) : bool :=
  negb (PrimFloat.eqb a 0 || PrimFloat.is_nan a).

(** [a == b] and [a === b] on numbers. *)
Definition number_eq (a b : float) : bool := PrimFloat.eqb a b.

(** [a || b] on optional strings. *)
Definition js_or (a b : option string) : option string :=
  if truthy a then a else b.

(** [items.reduce((sum, item) => sum + item.amount, 0)]. *)
Definition sum_amounts (items : list Transaction) : float :=
  fold_left (fun sum item => (sum + amount item)%float) items 0%float.

(** The template literal [`trans${Date.now()}`]. *)
Definition trans_id (now : N) : string :=
  String.append "trans" (NilEmpty.string_of_uint (N.to_uint now)).

(** ** Object spreads of the save handler *)

(** [{ ...t, ...transactionData }]: [id] and [subItems] come from [t],
    every other key from [transactionData]. *)
Definition spread_update (t : Transaction) (d : TransactionData) : Transaction :=
  {| id := id t;
     description := d_description d;
     amount := d_amount d;
     date := d_date d;
     type := d_type d;
     category := d_category d;
     parentId := d_parentId d;
     subItems := subItems t;
     notes := d_notes d |}.

(** [{ ...transactionData, id: `trans${Date.now()}` }]. *)
Definition newTransaction (now : N) (d : TransactionData) : Transaction :=
  {| id := trans_id now;
     description := d_description d;
     amount := d_amount d;
     date := d_date d;
     type := d_type d;
     category := d_category d;
     parentId := d_parentId d;
     subItems := None;
     notes := d_notes d |}.

(** [{ ...t, amount: a }]. *)
Definition with_amount (a : float) (t : Transaction) : Transaction :=
  {| id := id t;
     description := description t;
     amount := a;
     date := date t;
     type := type t;
     category := category t;
     parentId := parentId t;
     subItems := subItems t;
     notes := notes t |}.

(** [{ ...t, subItems: s }]. *)
Definition with_subItems (s : option (list Transaction)) (t : Transaction) : Transaction :=
  {| id := id t;
     description := description t;
     amount := amount t;
     date := date t;
     type := type t;
     category := category t;
     parentId := parentId t;
     subItems := s;
     notes := notes t |}.

(** ** Mutation engine *)

(** [ts.filter(t => t.parentId === p)]: the records that name [p] as
    their parent. *)
Definition childrenOf (p : string) (ts : list Transaction) : list Transaction :=
  List.filter (fun t => opt_is (parentId t) p) ts.

(** The re-derivation block shared by the save and delete handlers:
    the sum of the records naming [p] is written to every record whose
    id is [p]. *)
Definition rederive (p : string) (ts : list Transaction) : list Transaction :=
  let newParentAmount := sum_amounts (childrenOf p ts) in
  List.map (fun t => if String.eqb (id t) p then with_amount newParentAmount t else t) ts.

(** The updater passed to [setUserData] by [handleSaveTransaction],
    on the [transactions] field.  [editingTransaction] is the
    component state read by the handler, [now] the value of
    [Date.now()]. *)
Definition handleSaveTransaction
    (editingTransaction : option Transaction) (now : N)
    (transactionData : TransactionData) (prev : list Transaction) : list Transaction :=
  let parentIdToUpdate := d_parentId transactionData in
  let updatedTransactions :=
    match editingTransaction with
    | Some e =>
        List.map (fun t => if String.eqb (id t) (id e)
                           then spread_update t transactionData else t) prev
    | None => prev ++ [newTransaction now transactionData]
    end in
  match parentIdToUpdate with
  | Some p => if truthy_string p then rederive p updatedTransactions
              else updatedTransactions
  | None => updatedTransactions
  end.

(** [confirmDeleteTransaction], on the [transactions] field.  An id
    that is not found returns before any state is set. *)
Definition confirmDeleteTransaction
    (transactionId : string) (transactions : list Transaction) : list Transaction :=
  match List.find (fun t => String.eqb (id t) transactionId) transactions with
  | None => transactions
  | Some transactionToDelete =>
      let childIds := List.map id (childrenOf transactionId transactions) in
      let idsToDelete : gset string := list_to_set (transactionId :: childIds) in
      let updatedTransactions :=
        List.filter (fun t => negb (bool_decide (id t ∈ idsToDelete))) transactions in
      match parentId transactionToDelete with
      | Some p => if truthy_string p then rederive p updatedTransactions
                  else updatedTransactions
      | None => updatedTransactions
      end
  end.

(** ** Transaction form ([TransactionModal]) *)

(** The state of the form.  [f_amount] is the [number | ''] state:
    [None] is the [''] with which a form for a new record opens;
    every change of the field stores [parseFloat(e.target.value)], a
    number, which is [NaN] when the field was cleared or holds no
    numeral.  A form that edits a record opens with that record's
    amount. *)
Record FormState := mkFormState {
  f_description : string;
  f_amount : option float;
  f_date : string;
  f_type : TransactionType;
  f_category : string;
  f_notes : string
}.

(** What a click on the submit button does. *)
Inductive SubmitResult :=
| NotSubmitted                      (* the guard is false: nothing is called *)
| Threw                             (* [toISOString] raised a [RangeError] *)
| Saved (payload : TransactionData) (* [onSave(payload); onClose()] *).

(** [!!editingTransaction?.subItems?.length]. *)
Definition hasSubItems (editingTransaction : option Transaction) : bool :=
  match editingTransaction with
  | Some e => match subItems e with
              | Some items => negb (Nat.eqb (length items) 0)
              | None => false
              end
  | None => false
  end.

(** [editingTransaction?.parentId]. *)
Definition editing_parentId (editingTransaction : option Transaction) : option string :=
  match editingTransaction with
  | Some e => parentId e
  | None => None
  end.

(** [!!parentId || !!editingTransaction?.parentId]. *)
Definition isSubItem (editingTransaction : option Transaction)
    (parentIdProp : option string) : bool :=
  truthy parentIdProp || truthy (editing_parentId editingTransaction).

Section TransactionModal.

(** [new Date(s).toISOString()]: [None] when the date is invalid and
    the call raises a [RangeError]. *)
Variable Date_toISOString : string -> option string.

(** [handleSubmit] of the form, for the props [editingTransaction]
    and [parentId]. *)
Definition handleSubmit (form : FormState)
    (editingTransaction : option Transaction)
    (parentIdProp : option string) : SubmitResult :=
  match f_amount form with
  | Some entered =>
      if truthy_string (f_description form) && truthy_string (f_date form)
         && truthy_string (f_category form)
      then
        match Date_toISOString (f_date form) with
        | Some iso =>
            Saved {| d_description := f_description form;
                     d_amount := match editingTransaction with
                                 | Some e => if hasSubItems editingTransaction
                                             then amount e else entered
                                 | None => entered
                                 end;
                     d_date := iso;
                     d_type := f_type form;
                     d_category := f_category form;
                     d_parentId := js_or (editing_parentId editingTransaction) parentIdProp;
                     d_notes := if isSubItem editingTransaction parentIdProp
                                then Some (f_notes form) else None |}
        | None => Threw
        end
      else NotSubmitted
  | None => NotSubmitted
  end.

(** A click on the submit button with the application's wiring
    [onSave={handleSaveTransaction}]: the record set afterwards. *)
Definition submit (form : FormState) (editingTransaction : option Transaction)
    (parentIdProp : option string) (now : N)
    (prev : list Transaction) : list Transaction :=
  match handleSubmit form editingTransaction parentIdProp with
  | Saved payload => handleSaveTransaction editingTransaction now payload prev
  | NotSubmitted | Threw => prev
  end.

End TransactionModal.

(** ** Dashboard: month filter and period totals *)

(** [filteredTransactions]. *)
Definition filteredTransactions (selectedMonth : string)
    (transactions : list Transaction) : list Transaction :=
  if String.eqb selectedMonth "all" then transactions
  else List.filter (fun t => String.prefix selectedMonth (date t)) transactions.

Definition is_type (ty : TransactionType) (t : Transaction) : bool :=
  bool_decide (type t = ty).

(** [totalIncome], [totalExpense] and [balance]. *)
Definition totalIncome (filtered : list Transaction) : float :=
  sum_amounts (List.filter (fun t => is_type INCOME t && negb (truthy (parentId t))) filtered).

Definition totalExpense (filtered : list Transaction) : float :=
  sum_amounts (List.filter (fun t => is_type EXPENSE t && negb (truthy (parentId t))) filtered).

Definition balance (filtered : list Transaction) : float :=
  (totalIncome filtered - totalExpense filtered)%float.

(** ** Available-month index *)

(** [months.add(m)] on a [Set], kept in insertion order. *)
Definition Set_add (months : list string) (m : string) : list string :=
  if existsb (String.eqb m) months then months else months ++ [m].

(** [Array.prototype.sort()] without comparator, on strings: a stable
    insertion sort by code units. *)
Fixpoint insert_string (s : string) (sorted : list string) : list string :=
  match sorted with
  | [] => [s]
  | x :: rest => if String.leb x s then x :: insert_string s rest
                 else s :: x :: rest
  end.

Definition sort_strings (l : list string) : list string :=
  fold_left (fun acc s => insert_string s acc) l [].

(** [availableMonths]. *)
Definition availableMonths (transactions : list Transaction) : list string :=
  let months := fold_left (fun months t => Set_add months (String.substring 0 7 (date t)))
                          transactions [] in
  rev (sort_strings months).

(** ** Tree builder ([transactionsWithSubItems]) *)

(** An object of [transactionMap]: the copy [{ ...t, subItems: [] }] of
    a record.  Its [subItems] array holds references to other objects
    of the map; a reference is the key under which the object is
    stored, so that an object pushed into an array and filled later is
    seen filled through the array (the objects are shared, not
    copied).  The [subItems] inside [obj_fields] is the overwritten
    one and is never read. *)
Record TreeObject := mkTreeObject {
  obj_fields : Transaction;
  obj_subItems : list string
}.

(** [o.subItems.push(ref)]. *)
Definition push_subItem (ref : string) (o : TreeObject) : TreeObject :=
  {| obj_fields := obj_fields o; obj_subItems := obj_subItems o ++ [ref] |}.

(** First loop: [transactionMap[t.id] = { ...t, subItems: [] }]. *)
Definition index_step (transactionMap : gmap string TreeObject) (t : Transaction)
    : gmap string TreeObject :=
  <[id t := {| obj_fields := t; obj_subItems := [] |}]> transactionMap.

(** The string-keyed members of [Object.prototype], which every plain
    object inherits; each is a function or an object, hence truthy,
    and none has a [subItems] property. *)
Definition Object_prototype : list string :=
  [ "constructor"; "__defineGetter__"; "__defineSetter__"; "hasOwnProperty";
    "__lookupGetter__"; "__lookupSetter__"; "isPrototypeOf"; "propertyIsEnumerable";
    "toString"; "valueOf"; "__proto__"; "toLocaleString" ].

(** [!!o[k]] for an object [o = { ...t, subItems: [] }] and a key [k]:
    the truthiness of the property of that name. *)
Definition field_truthy (t : Transaction) (k : string) : bool :=
  if String.eqb k "id" then truthy_string (id t)
  else if String.eqb k "description" then truthy_string (description t)
  else if String.eqb k "amount" then truthy_number (amount t)
  else if String.eqb k "date" then truthy_string (date t)
  else if String.eqb k "type" then true
  else if String.eqb k "category" then truthy_string (category t)
  else if String.eqb k "parentId" then truthy (parentId t)
  else if String.eqb k "notes" then truthy (notes t)
  else if String.eqb k "subItems" then true
  else false.

(** [!!transactionMap[k]] for a key [k] that was not assigned: the
    lookup goes up the prototype chain.  An assignment to the key
    [__proto__] sets the prototype of the map instead of a property
    (and a read of that key returns it), so the entry stored under
    [__proto__] is the first link of the chain; [Object.prototype] is
    the last.  Whatever is found there is truthy and has no
    [subItems]. *)
Definition inherited (transactionMap : gmap string TreeObject) (k : string) : bool :=
  match transactionMap !! "__proto__" with
  | Some o => field_truthy (obj_fields o) k
  | None => false
  end
  || existsb (String.eqb k) Object_prototype.

(** Second loop: attach [t] to its parent's object when [t.parentId]
    is truthy and [transactionMap[t.parentId]] is truthy, else push it
    on the roots.  When the truthy value is an inherited one, it has
    no [subItems] and [.subItems!.push] raises a [TypeError]: the
    state is then [None]. *)
Definition attach_step (st : option (gmap string TreeObject * list string))
    (t : Transaction) : option (gmap string TreeObject * list string) :=
  match st with
  | None => None
  | Some (transactionMap, rootTransactions) =>
      match parentId t with
      | Some p =>
          if truthy_string p
          then match transactionMap !! p with
               | Some _ =>
                   Some (alter (push_subItem (id t)) p transactionMap, rootTransactions)
               | None =>
                   if inherited transactionMap p then None
                   else Some (transactionMap, rootTransactions ++ [id t])
               end
          else Some (transactionMap, rootTransactions ++ [id t])
      | None => Some (transactionMap, rootTransactions ++ [id t])
      end
  end.

(** [Array.prototype.sort(compare)]: a stable insertion sort.  With
    a consistent comparator every engine returns this order, the
    sorted one in which equal elements keep their places.  A
    comparator result of [NaN] ([None]) counts as [+0], as in
    ECMAScript's [SortCompare]; a comparator that gives [NaN] on some
    pairs only is not consistent, the order is then left to the
    engine, and the one given here need not be the one V8 gives. *)
Section Sort.
Context {A : Type}.
Variable compare : A -> A -> option Z.

Definition ordered (a b : A) : bool :=
  match compare a b with
  | Some v => v <=? 0
  | None => true
  end.

Fixpoint insert_sorted (x : A) (sorted : list A) : list A :=
  match sorted with
  | [] => [x]
  | y :: rest => if ordered y x then y :: insert_sorted x rest
                 else x :: y :: rest
  end.

Definition js_sort (l : list A) : list A :=
  fold_left (fun acc x => insert_sorted x acc) l [].
End Sort.

(** The value returned by the tree builder: the array of root
    references together with the objects they point into. *)
Record Tree := mkTree {
  tree_roots : list string;
  tree_objects : gmap string TreeObject
}.

(** Reading an object graph as a value: the object at [ref] with its
    [subItems] array read recursively.  [fuel] bounds the depth; a
    forest over [n] records needs no more than [n] levels. *)
Fixpoint reify (fuel : nat) (objects : gmap string TreeObject) (ref : string)
    : option Transaction :=
  match fuel with
  | O => None
  | S n =>
      match objects !! ref with
      | Some o =>
          Some (with_subItems (Some (omap (reify n objects) (obj_subItems o)))
                              (obj_fields o))
      | None => None
      end
  end.

Section TreeBuilder.

(** [new Date(s).getTime()]: [None] is [NaN] (an invalid date). *)
Variable Date_getTime : string -> option Z.

(** [sortByDate]. *)
Definition sortByDate (a b : Transaction) : option Z :=
  match Date_getTime (date b), Date_getTime (date a) with
  | Some tb, Some ta => Some (tb - ta)
  | _, _ => None
  end.

(** [sortByDate] on two references into the map. *)
Definition sortByDate_ref (objects : gmap string TreeObject) (a b : string) : option Z :=
  match objects !! a, objects !! b with
  | Some oa, Some ob => sortByDate (obj_fields oa) (obj_fields ob)
  | _, _ => None
  end.

(** [if (t.subItems) { t.subItems.sort(sortByDate); }] for the root
    object at [ref]. *)
Definition sort_subItems (objects : gmap string TreeObject) (ref : string)
    : gmap string TreeObject :=
  alter (fun o => {| obj_fields := obj_fields o;
                     obj_subItems := js_sort (sortByDate_ref objects) (obj_subItems o) |})
        ref objects.

(** The body of the [useMemo] of [transactionsWithSubItems], on the
    object graph; [None] when it raises. *)
Definition buildTree (transactions : list Transaction) : option Tree :=
  let allTransactions := transactions in
  let transactionMap := fold_left index_step allTransactions ∅ in
  match fold_left attach_step allTransactions (Some (transactionMap, [])) with
  | Some (transactionMap, rootTransactions) =>
      let rootTransactions := js_sort (sortByDate_ref transactionMap) rootTransactions in
      let transactionMap := fold_left sort_subItems rootTransactions transactionMap in
      Some {| tree_roots := rootTransactions; tree_objects := transactionMap |}
  | None => None
  end.

(** [transactionsWithSubItems] as the nested value a reader of the
    returned array sees; [None] when the builder raises. *)
Definition transactionsWithSubItems (transactions : list Transaction)
    : option (list Transaction) :=
  match buildTree transactions with
  | Some tree =>
      Some (omap (reify (S (length transactions)) (tree_objects tree)) (tree_roots tree))
  | None => None
  end.

End TreeBuilder.

(** A record and everything below it, in display order. *)
Fixpoint flatten (t : Transaction) : list Transaction :=
  t :: match subItems t with
       | Some items => flat_map flatten items
       | None => []
       end.

(** The rows the transactions page can show.  The table shows every
    root and, once a root is expanded, its sub-items; the card list
    renders the sub-items of an expanded card as cards of their own,
    so that it reaches every level of the tree. *)
Definition displayedRows (tree : list Transaction) : list Transaction :=
  flat_map flatten tree.

(** ** Categories and the deletion guard *)

Inductive Sender := user | finassist.
Inductive Theme := galaxy | minimalist.
Inductive ItemKind := TransactionItem | CategoryItem.

Record ChatMessage := mkChatMessage {
  sender : Sender;
  text : string
}.

Record UserData := mkUserData {
  transactions : list Transaction;
  categories : list Category;
  currency : string;
  chatHistory : list ChatMessage;
  theme : Theme
}.

Definition INITIAL_CATEGORIES : list Category :=
  [ {| cat_id := "cat1"; cat_name := "Supermercado"; cat_icon := Some "shopping_cart" |};
    {| cat_id := "cat2"; cat_name := "Contas de Casa"; cat_icon := Some "home" |};
    {| cat_id := "cat3"; cat_name := "Aluguel"; cat_icon := Some "key" |};
    {| cat_id := "cat4"; cat_name := "Salário"; cat_icon := Some "currency_dollar" |};
    {| cat_id := "cat5"; cat_name := "Lazer"; cat_icon := Some "puzzle_piece" |} ].

Definition DEFAULT_USER_DATA : UserData :=
  {| transactions := [];
     categories := INITIAL_CATEGORIES;
     currency := "BRL";
     chatHistory := [];
     theme := galaxy |}.

(** The part of the component state of [App] that the delete handlers
    read and write.  [alerts] counts the calls of [alert]. *)
Record AppState := mkAppState {
  userData : UserData;
  itemToDelete : option (ItemKind * string);
  isDeleteConfirmModalOpen : bool;
  alerts : nat
}.

Definition set_transactions (ts : list Transaction) (d : UserData) : UserData :=
  {| transactions := ts;
     categories := categories d;
     currency := currency d;
     chatHistory := chatHistory d;
     theme := theme d |}.

Definition set_categories (cs : list Category) (d : UserData) : UserData :=
  {| transactions := transactions d;
     categories := cs;
     currency := currency d;
     chatHistory := chatHistory d;
     theme := theme d |}.

(** [t.category === name || t.subItems?.some(sub => sub.category === name)]. *)
Definition uses_category (name : string) (t : Transaction) : bool :=
  String.eqb (category t) name
  || match subItems t with
     | Some items => existsb (fun sub => String.eqb (category sub) name) items
     | None => false
     end.

(** [handleDeleteCategoryRequest]. *)
Definition handleDeleteCategoryRequest (categoryId : string) (st : AppState) : AppState :=
  match List.find (fun c => String.eqb (cat_id c) categoryId) (categories (userData st)) with
  | None => st
  | Some categoryToDelete =>
      let isInUse := existsb (uses_category (cat_name categoryToDelete))
                             (transactions (userData st)) in
      if isInUse
      then {| userData := userData st;
              itemToDelete := itemToDelete st;
              isDeleteConfirmModalOpen := isDeleteConfirmModalOpen st;
              alerts := S (alerts st) |}
      else {| userData := userData st;
              itemToDelete := Some (CategoryItem, categoryId);
              isDeleteConfirmModalOpen := true;
              alerts := alerts st |}
  end.

(** [handleDeleteTransactionRequest]. *)
Definition handleDeleteTransactionRequest (transactionId : string) (st : AppState) : AppState :=
  {| userData := userData st;
     itemToDelete := Some (TransactionItem, transactionId);
     isDeleteConfirmModalOpen := true;
     alerts := alerts st |}.

(** [confirmDeleteCategory], through [handleUpdateCategories]. *)
Definition confirmDeleteCategory (categoryId : string) (d : UserData) : UserData :=
  set_categories
    (List.filter (fun c => negb (String.eqb (cat_id c) categoryId)) (categories d)) d.

(** [confirmDelete], the confirmation button of the dialog. *)
Definition confirmDelete (st : AppState) : AppState :=
  match itemToDelete st with
  | None => st
  | Some (kind, item) =>
      {| userData :=
           match kind with
           | TransactionItem =>
               set_transactions
                 (confirmDeleteTransaction item (transactions (userData st)))
                 (userData st)
           | CategoryItem => confirmDeleteCategory item (userData st)
           end;
         itemToDelete := None;
         isDeleteConfirmModalOpen := false;
         alerts := alerts st |}
  end.

(** Deleting a category from the settings page: the delete button,
    then the confirmation button if the dialog opened. *)
Definition deleteCategory (categoryId : string) (st : AppState) : AppState :=
  let requested := handleDeleteCategoryRequest categoryId st in
  if isDeleteConfirmModalOpen requested then confirmDelete requested else requested.

(** The state between two user actions: no dialog, nothing selected. *)
Definition idle (d : UserData) : AppState :=
  {| userData := d; itemToDelete := None;
     isDeleteConfirmModalOpen := false; alerts := 0%nat |}.

Section Rename.

(** [String.prototype.trim] is the host's. *)
Variable String_trim : string -> string.

(** [handleUpdateCategory] of the settings page (rename, through
    [handleUpdateCategories]): the guard is the truthiness of
    [categoryToUpdate.name.trim()]. *)
Definition handleUpdateCategory (categoryToUpdate : Category) (d : UserData) : UserData :=
  if truthy_string (String_trim (cat_name categoryToUpdate))
  then set_categories
         (List.map (fun c => if String.eqb (cat_id c) (cat_id categoryToUpdate)
                             then categoryToUpdate else c) (categories d)) d
  else d.

End Rename.

(** The category merge of the load effect: icons are defaulted, then
    every initial category whose name is missing is pushed. *)
Definition default_icon (c : Category) : Category :=
  {| cat_id := cat_id c;
     cat_name := cat_name c;
     cat_icon :=
       match cat_icon c with
       | Some i => Some i
       | None =>
           match List.find (fun ic => String.eqb (cat_name ic) (cat_name c))
                           INITIAL_CATEGORIES with
           | Some ic => match cat_icon ic with
                        | Some i => Some i
                        | None => Some "question_mark_circle"
                        end
           | None => Some "question_mark_circle"
           end
       end |}.

Definition mergeCategories (parsed : list Category) : list Category :=
  let categoriesWithIcons := List.map default_icon parsed in
  fold_left (fun mergedCategories initialCat =>
               if negb (existsb (fun userCat => String.eqb (cat_name userCat)
                                                           (cat_name initialCat))
                                mergedCategories)
               then mergedCategories ++ [initialCat] else mergedCategories)
            INITIAL_CATEGORIES categoriesWithIcons.

(** ** A [Date] for running the definitions

    The sections above take the host's [Date] as a parameter.  To run
    them on concrete inputs, the following instance reads calendar
    dates written [YYYY-MM-DD] (the value of a date input) and
    midnight-UTC timestamps [YYYY-MM-DDT00:00:00.000Z] (what the form
    stores), with a month from 01 to 12 and a day from 01 to 31.  A
    day that the month does not have is counted on into the next
    month, as V8 does (the 30th of February 2024 is the 1st of March);
    engines differ there, and agree on the days that exist.  Every
    other string is an invalid date here: ECMAScript leaves the
    reading of other formats to the engine. *)

Definition digit (c : Ascii.ascii) : option Z :=
  let n := Z.of_nat (Ascii.nat_of_ascii c) in
  if (48 <=? n) && (n <=? 57) then Some (n - 48) else None.

Fixpoint digits (acc : Z) (s : string) : option Z :=
  match s with
  | EmptyString => Some acc
  | String c rest => match digit c with
                     | Some v => digits (acc * 10 + v) rest
                     | None => None
                     end
  end.

Definition is_leap (y : Z) : bool :=
  ((y mod 4 =? 0) && negb (y mod 100 =? 0)) || (y mod 400 =? 0).

Definition days_in_month (y m : Z) : Z :=
  if m =? 2 then (if is_leap y then 29 else 28)
  else if (m =? 4) || (m =? 6) || (m =? 9) || (m =? 11) then 30 else 31.

(** Days since 1970-01-01 of a civil date. *)
Definition days_from_civil (y m d : Z) : Z :=
  let y' := if m <=? 2 then y - 1 else y in
  let era := y' / 400 in
  let yoe := y' - era * 400 in
  let doy := (153 * (if 2 <? m then m - 3 else m + 9) + 2) / 5 + d - 1 in
  let doe := yoe * 365 + yoe / 4 - yoe / 100 + doy in
  era * 146097 + doe - 719468.

(** The civil date written at the front of [s], if [s] is [YYYY-MM-DD]
    followed by [rest]; a day beyond the end of the month is a day of
    the next month (which is never beyond December, a month of 31
    days). *)
Definition parse_day (s : string) : option (Z * Z * Z * string) :=
  if (String.substring 4 1 s =? "-")%string && (String.substring 7 1 s =? "-")%string
     && (String.length (String.substring 0 10 s) =? 10)%nat
  then
    match digits 0 (String.substring 0 4 s), digits 0 (String.substring 5 2 s),
          digits 0 (String.substring 8 2 s) with
    | Some y, Some m, Some d =>
        if (1 <=? m) && (m <=? 12) && (1 <=? d) && (d <=? 31)
        then
          let rest := String.substring 10 (String.length s - 10) s in
          if d <=? days_in_month y m then Some (y, m, d, rest)
          else Some (y, m + 1, d - days_in_month y m, rest)
        else None
    | _, _, _ => None
    end
  else None.

(** The decimal numeral of [n] on [width] digits. *)
Fixpoint numeral (width : nat) (n : Z) : string :=
  match width with
  | O => EmptyString
  | S w => String.append (numeral w (n / 10))
                         (String (Ascii.ascii_of_nat (Z.to_nat (48 + n mod 10))) EmptyString)
  end.

Definition midnight (rest : string) : bool :=
  (rest =? "")%string || (rest =? "T00:00:00.000Z")%string.

Definition calendar_toISOString (s : string) : option string :=
  match parse_day s with
  | Some (y, m, d, rest) =>
      if midnight rest
      then Some (String.append (numeral 4 y)
                   (String.append "-"
                      (String.append (numeral 2 m)
                         (String.append "-"
                            (String.append (numeral 2 d) "T00:00:00.000Z")))))
      else None
  | None => None
  end.

Definition calendar_getTime (s : string) : option Z :=
  match parse_day s with
  | Some (y, m, d, rest) =>
      if midnight rest then Some (days_from_civil y m d * 86400000) else None
  | None => None
  end.

(** ** Properties of record sets *)

(** Ids are unique identifiers: no two records share one. *)
Definition unique_ids (l : list Transaction) : Prop := NoDup (List.map id l).

(** No record carries the empty id. *)
Definition ids_nonempty (l : list Transaction) : Prop :=
  forall t, In t l -> id t <> "".

(** Ids as the data model has them: unique and never empty. *)
Definition valid_ids (l : list Transaction) : Prop :=
  unique_ids l /\ ids_nonempty l.

(** Invariant I1 (parent-sum), [p.amount == sum] for every record [p]
    that some record names as its parent, the sum being that of the
    amounts of the records naming it, added in the order of the set. *)
Definition parent_sum (l : list Transaction) : Prop :=
  forall p, In p l -> childrenOf (id p) l <> [] ->
            number_eq (amount p) (sum_amounts (childrenOf (id p) l)) = true.

(** The amount [a] is what the sum [s] gives: [a == s], or both are
    [NaN] (which [==] tells apart from itself). *)
Definition derived_from (a s : float) : bool :=
  number_eq a s || (PrimFloat.is_nan a && PrimFloat.is_nan s).

(** The parent-sum invariant up to [NaN]: the amount of every record
    that is named as parent is what the sum of its children gives. *)
Definition parent_derived (l : list Transaction) : Prop :=
  forall p, In p l -> childrenOf (id p) l <> [] ->
            derived_from (amount p) (sum_amounts (childrenOf (id p) l)) = true.


(** Tree depth at most 2 (invariant I2): a record whose parent is in
    the set is not itself the parent of a record of the set. *)
Definition depth2 (l : list Transaction) : Prop :=
  forall c q g, In c l -> In q l -> In g l ->
                parentId c = Some (id q) -> parentId q <> Some (id g).

(** Invariant I2 as the specification words it (no nested sub-items):
    a record whose parentId is set is named as parent by no record. *)
Definition no_nested (l : list Transaction) : Prop :=
  forall s c, In s l -> In c l -> truthy (parentId s) = true -> parentId c <> Some (id s).

(** The direct children of the id [i] in [l]: the records whose
    parentId equals [i]. *)
Definition direct_children (i : string) (l : list Transaction) : list Transaction :=
  List.filter (fun u => bool_decide (parentId u = Some i)) l.

(** [u'] is the record [u] up to its amount. *)
Definition same_but_amount (u u' : Transaction) : Prop :=
  id u' = id u /\ description u' = description u /\ date u' = date u
  /\ type u' = type u /\ category u' = category u /\ parentId u' = parentId u
  /\ subItems u' = subItems u /\ notes u' = notes u.

(** The id that [Date.now()] yields is new: no record carries it and
    no record names it as parent. *)
Definition fresh (now : N) (l : list Transaction) : Prop :=
  forall t, In t l -> id t <> trans_id now /\ parentId t <> Some (trans_id now).

(** No record carries the id [__proto__] and no parentId is the name
    of a member of [Object.prototype]. *)
Definition ordinary_keys (l : list Transaction) : Prop :=
  forall t, In t l ->
            id t <> "__proto__"
            /\ forall p, parentId t = Some p -> ~ In p Object_prototype.

(** The presence test of the code on [parentId]: a record is a
    sub-item when [t.parentId] is truthy, top-level otherwise. *)
Definition is_subItem (t : Transaction) : bool := truthy (parentId t).
Definition top_level (t : Transaction) : bool := negb (truthy (parentId t)).

(** [t.parentId && transactionMap[t.parentId]] of the tree builder, on
    the record set: [t] names a record of [l] through a truthy
    [parentId]. *)
Definition resolves (l : list Transaction) (t : Transaction) : bool :=
  match parentId t with
  | Some p => truthy_string p && existsb (fun u => String.eqb (id u) p) l
  | None => false
  end.

(** The records that the tree builder attaches to the object of id
    [p]: those naming [p] through a truthy [parentId]. *)
Definition attachedTo (p : string) (l : list Transaction) : list Transaction :=
  List.filter (fun c => truthy (parentId c) && opt_is (parentId c) p) l.

(** [t] is [k] parent links away from a root of the tree: a record at
    level 0 resolves to no parent, a record at level [k + 1] names a
    record at level [k] through a truthy parentId. *)
Fixpoint at_level (l : list Transaction) (k : nat) (t : Transaction) : bool :=
  match k with
  | O => negb (resolves l t)
  | S j => truthy (parentId t)
           && existsb (fun q => opt_is (parentId t) (id q) && at_level l j q) l
  end.

(** No parentId cycle: following parentId from any record of the set
    ends, after finitely many links, at a record that resolves to no
    parent. *)
Definition rooted (l : list Transaction) : Prop :=
  forall t, In t l -> exists k, at_level l k t = true.

(** The records met when descending from the records [ts] through at
    most [fuel] levels of the parent relation of [l]. *)
Fixpoint descend (l : list Transaction) (fuel : nat) (ts : list Transaction)
    : list Transaction :=
  match fuel with
  | O => []
  | S f => flat_map (fun t => t :: descend l f (attachedTo (id t) l)) ts
  end.

(** A record without its derived [subItems] field. *)
Definition erase (t : Transaction) : Transaction := with_subItems None t.

(** The sum of a list of numbers: they are added one after the other,
    in the order of the list, to [0]. *)
Fixpoint add_all (acc : float) (numbers : list float) : float :=
  match numbers with
  | [] => acc
  | a :: rest => add_all (acc + a)%float rest
  end.

Definition total (numbers : list float) : float := add_all 0%float numbers.

(** The amounts of the records of [l] that satisfy [P], in the order
    of [l]. *)
Definition amounts_where (P : Transaction -> bool) (l : list Transaction) : list float :=
  List.map amount (List.filter P l).

(** ** Operations of the transactions page *)

(** What the user can ask for: a new top-level record, a new sub-item
    under the record of id [parent], an edit of the row [row], a
    confirmed deletion. *)
Inductive Intent :=
| AddTransaction (form : FormState) (now : N)
| AddSubItem (parent : string) (form : FormState) (now : N)
| EditTransaction (row : Transaction) (form : FormState)
| DeleteTransaction (transactionId : string).

Section Ledger.

Variable Date_toISOString : string -> option string.
Variable Date_getTime : string -> option Z.

(** The record set after an intent: [openTransactionModal] with the
    page's arguments and a click on submit, or the confirmed
    deletion. *)
Definition perform (intent : Intent) (l : list Transaction) : list Transaction :=
  match intent with
  | AddTransaction form now => submit Date_toISOString form None None now l
  | AddSubItem parent form now => submit Date_toISOString form None (Some parent) now l
  | EditTransaction row form => submit Date_toISOString form (Some row) None 0%N l
  | DeleteTransaction transactionId => confirmDeleteTransaction transactionId l
  end.

(** The intents the transactions page offers on the record set [l]:
    the sub-item button stands on the root rows only, the edit and
    delete buttons on every displayed row.  When the tree builder
    raises, the page does not render and offers nothing. *)
Definition offered (l : list Transaction) (intent : Intent) : Prop :=
  match transactionsWithSubItems Date_getTime l with
  | Some tree =>
      match intent with
      | AddTransaction _ now => fresh now l
      | AddSubItem parent _ now => fresh now l /\ exists r, In r tree /\ id r = parent
      | EditTransaction row _ => In row (displayedRows tree)
      | DeleteTransaction transactionId =>
          exists row, In row (displayedRows tree) /\ id row = transactionId
      end
  | None => False
  end.

(** The record sets after each intent of a sequence. *)
Fixpoint trace (l : list Transaction) (intents : list Intent) : list (list Transaction) :=
  match intents with
  | [] => []
  | i :: rest => perform i l :: trace (perform i l) rest
  end.


End Ledger.

(** A record set in the state the ledger keeps it. *)
Definition ledger_ok (l : list Transaction) : Prop :=
  valid_ids l /\ depth2 l /\ parent_derived l.

(** ** Further notions on record sets *)

(** A record up to its amount. *)
Definition erase_amount (t : Transaction) : Transaction := with_amount 0%float t.

(** [a] may stand before [b] in a list sorted by [sortByDate]: both
    dates are valid and [b] is not later than [a]. *)
Definition not_older (Date_getTime : string -> option Z) (a b : Transaction) : Prop :=
  exists ta tb,
    Date_getTime (date a) = Some ta /\ Date_getTime (date b) = Some tb /\ tb <= ta.

(** ** Categories in the settings page and in the transaction form *)

(** [s.includes(sub)]. *)
Definition includes (s sub : string) : bool :=
  match String.index 0 sub s with
  | Some _ => true
  | None => false
  end.

(** The template literal [`cat${Date.now()}`]. *)
Definition new_cat_id (now : N) : string :=
  String.append "cat" (NilEmpty.string_of_uint (N.to_uint now)).

Section Settings.

(** [String.prototype.toLowerCase] and [String.prototype.trim] are
    the host's. *)
Variable String_toLowerCase : string -> string.
Variable String_trim : string -> string.

(** [handleAddCategory] of the settings page, for the text
    [newCategoryName] of the input; through [handleUpdateCategories]. *)
Definition handleAddCategory (newCategoryName : string) (now : N) (d : UserData) : UserData :=
  if truthy_string (String_trim newCategoryName)
     && negb (existsb (fun c => String.eqb (String_toLowerCase (cat_name c))
                                           (String_toLowerCase (String_trim newCategoryName)))
                      (categories d))
  then set_categories
         (categories d
          ++ [ {| cat_id := new_cat_id now;
                  cat_name := String_trim newCategoryName;
                  cat_icon := Some "question_mark_circle" |} ]) d
  else d.

(** [incomeCategories], [expenseCategories] and [relevantCategories]
    of the transaction form. *)
Definition incomeCategories (categories : list Category) : list Category :=
  List.filter (fun c => includes (String_toLowerCase (cat_name c)) "salário"
                        || includes (String_toLowerCase (cat_name c)) "freelance")
              categories.

Definition expenseCategories (categories : list Category) : list Category :=
  List.filter (fun c => negb (existsb (String.eqb (cat_name c))
                                      (List.map cat_name (incomeCategories categories))))
              categories.

Definition relevantCategories (ty : TransactionType) (categories : list Category)
    : list Category :=
  match ty with
  | INCOME => incomeCategories categories
  | EXPENSE => expenseCategories categories
  end.

End Settings.

(** ** Accounts ([App]: profiles, passwords and their handlers) *)

(** [UserProfile] of [src/types.ts]. *)
Record UserProfile := mkUserProfile {
  p_username : string;
  p_displayName : string;
  p_email : string;
  p_profilePicture : option string;
  p_registeredAt : string;
  p_isVerified : bool;
  p_verificationCode : option string
}.

(** A plain object used as a dictionary ([{ [key: string]: V }]): its
    own properties in the order in which [Object.values] and
    [Object.entries] list them, that is the keys that are array
    indices in ascending numeric order, then the other keys in the
    order of their creation. *)
Definition Dict (V : Type) : Type := list (string * V).

(** The array index that a key is, if it is one: a canonical decimal
    numeral below [2^32 - 1]. *)
Definition array_index (k : string) : option N :=
  match NilEmpty.uint_of_string k with
  | Some d =>
      let n := N.of_uint d in
      if String.eqb (NilEmpty.string_of_uint (N.to_uint n)) k && (n <? 4294967295)%N
      then Some n else None
  | None => None
  end.

(** What a read [o[k]] finds. *)
Inductive Property (V : Type) :=
| Own (v : V)   (* an own property *)
| Inherited     (* a member of [Object.prototype]: a function or an object *)
| Absent        (* [undefined] *).
Arguments Own {V} v.
Arguments Inherited {V}.
Arguments Absent {V}.

Section Dict.
Context {V : Type}.

Definition dict_own (o : Dict V) (k : string) : option V :=
  match List.find (fun e => String.eqb (fst e) k) o with
  | Some e => Some (snd e)
  | None => None
  end.

(** [o[k]]. *)
Definition dict_get (o : Dict V) (k : string) : Property V :=
  match dict_own o k with
  | Some v => Own v
  | None => if existsb (String.eqb k) Object_prototype then Inherited else Absent
  end.

(** [!!o[k]] when the own values are objects. *)
Definition dict_has (o : Dict V) (k : string) : bool :=
  match dict_get o k with
  | Own _ | Inherited => true
  | Absent => false
  end.

Fixpoint dict_replace (k : string) (v : V) (o : Dict V) : Dict V :=
  match o with
  | [] => []
  | e :: rest => if String.eqb (fst e) k then (k, v) :: rest
                 else e :: dict_replace k v rest
  end.

Fixpoint dict_insert_index (n : N) (k : string) (v : V) (o : Dict V) : Dict V :=
  match o with
  | [] => [(k, v)]
  | e :: rest =>
      match array_index (fst e) with
      | Some n' => if (n' <? n)%N then e :: dict_insert_index n k v rest
                   else (k, v) :: e :: rest
      | None => (k, v) :: e :: rest
      end
  end.

(** [{ ...o, [k]: v }]: the value of an existing key is replaced
    where the key stands; a new key goes to its place among the array
    indices, or to the end. *)
Definition dict_set (k : string) (v : V) (o : Dict V) : Dict V :=
  match dict_own o k with
  | Some _ => dict_replace k v o
  | None =>
      match array_index k with
      | Some n => dict_insert_index n k v o
      | None => o ++ [(k, v)]
      end
  end.

(** [const o' = { ...o }; delete o'[k]]. *)
Definition dict_delete (k : string) (o : Dict V) : Dict V :=
  List.filter (fun e => negb (String.eqb (fst e) k)) o.

Definition Object_values (o : Dict V) : list V := List.map snd o.
Definition Object_entries (o : Dict V) : list (string * V) := o.

End Dict.

(** The items of [localStorage] that the application writes, each as
    the value whose JSON text it holds: the two databases and, under
    its user name, the data of every user. *)
Record Storage := mkStorage {
  profiles_db : option (Dict UserProfile);
  passwords_db : option (Dict string);
  user_data : gmap string UserData
}.

(** The state of [App] that the account handlers read and write. *)
Record AuthState := mkAuthState {
  currentUser : option UserProfile;
  userProfiles : Dict UserProfile;
  userPasswords : Dict string;
  localStorage : Storage
}.

(** The promise of an [async] handler: resolved with a value, the
    state being as given, or rejected with the message of the error
    thrown, the state being untouched. *)
Inductive Outcome (A : Type) :=
| Resolved (value : A) (st : AuthState)
| Rejected (message : string).
Arguments Resolved {A} value st.
Arguments Rejected {A} message.

Definition state_after {A : Type} (o : Outcome A) (st : AuthState) : AuthState :=
  match o with
  | Resolved _ st' => st'
  | Rejected _ => st
  end.

(** [{ ...profile, isVerified: v, verificationCode: c }] and the like. *)
Definition with_verification (v : bool) (c : option string) (p : UserProfile) : UserProfile :=
  {| p_username := p_username p;
     p_displayName := p_displayName p;
     p_email := p_email p;
     p_profilePicture := p_profilePicture p;
     p_registeredAt := p_registeredAt p;
     p_isVerified := v;
     p_verificationCode := c |}.

(** [handleLogin]. *)
Definition handleLogin (username password : string) (st : AuthState) : Outcome unit :=
  let profile := dict_get (userProfiles st) username in
  if negb (dict_has (userProfiles st) username)
     || negb (match dict_get (userPasswords st) username with
              | Own stored => String.eqb stored password
              | Inherited | Absent => false
              end)
  then Rejected "Usuário ou senha inválidos."
  else
    match profile with
    | Own p =>
        if p_isVerified p
        then Resolved tt {| currentUser := Some p;
                            userProfiles := userProfiles st;
                            userPasswords := userPasswords st;
                            localStorage := localStorage st |}
        else Rejected "Sua conta não foi verificada. Por favor, cadastre-se novamente para receber um novo código."
    | Inherited | Absent =>
        Rejected "Sua conta não foi verificada. Por favor, cadastre-se novamente para receber um novo código."
    end.

(** [handleLogout], on this part of the state. *)
Definition handleLogout (st : AuthState) : AuthState :=
  {| currentUser := None;
     userProfiles := userProfiles st;
     userPasswords := userPasswords st;
     localStorage := localStorage st |}.

(** [handleDeleteUser]. *)
Definition handleDeleteUser (usernameToDelete : string) (st : AuthState) : AuthState :=
  let updatedProfiles := dict_delete usernameToDelete (userProfiles st) in
  let updatedPasswords := dict_delete usernameToDelete (userPasswords st) in
  {| currentUser := currentUser st;
     userProfiles := updatedProfiles;
     userPasswords := updatedPasswords;
     localStorage :=
       {| profiles_db := Some updatedProfiles;
          passwords_db := Some updatedPasswords;
          user_data := delete usernameToDelete (user_data (localStorage st)) |} |}.

(** The first effect of [App]: both databases are read from
    [localStorage], an absent item as the empty object, and the
    [admin] account is created when the profiles lack it.
    [registeredAt] is [new Date().toISOString()]. *)
Definition loadDatabases (registeredAt : string) (st : AuthState) : AuthState :=
  let savedProfiles := default [] (profiles_db (localStorage st)) in
  let savedPasswords := default [] (passwords_db (localStorage st)) in
  if dict_has savedProfiles "admin"
  then {| currentUser := currentUser st;
          userProfiles := savedProfiles;
          userPasswords := savedPasswords;
          localStorage := localStorage st |}
  else
    let savedProfiles :=
      dict_set "admin" {| p_username := "admin";
                          p_displayName := "Admin";
                          p_email := "admin@controlfin.app";
                          p_profilePicture := None;
                          p_registeredAt := registeredAt;
                          p_isVerified := true;
                          p_verificationCode := None |} savedProfiles in
    let savedPasswords := dict_set "admin" "admin" savedPasswords in
    {| currentUser := currentUser st;
       userProfiles := savedProfiles;
       userPasswords := savedPasswords;
       localStorage :=
         {| profiles_db := Some savedProfiles;
            passwords_db := Some savedPasswords;
            user_data := user_data (localStorage st) |} |}.

(** The rows of the admin page, and the confirmed deletion of one of
    them ([handleDeleteRequest(user.username)], then [confirmDelete]). *)
Definition AdminPage_users (userProfiles : Dict UserProfile) : list UserProfile :=
  List.filter (fun p => negb (String.eqb (p_username p) "admin")) (Object_values userProfiles).

Definition AdminPage_delete (row : UserProfile) (st : AuthState) : AuthState :=
  if truthy_string (p_username row) then handleDeleteUser (p_username row) st else st.

Section Accounts.

Variable String_toLowerCase : string -> string.

Definition same_email (email : string) (p : UserProfile) : bool :=
  String.eqb (String_toLowerCase (p_email p)) (String_toLowerCase email).

(** [handleRegister]; [verificationCode] is the value of
    [generateCode()], [registeredAt] of [new Date().toISOString()]. *)
Definition handleRegister (username password email verificationCode registeredAt : string)
    (st : AuthState) : Outcome string :=
  if dict_has (userProfiles st) username
  then Rejected "Este nome de usuário já existe."
  else if existsb (same_email email) (Object_values (userProfiles st))
  then Rejected "Este e-mail já está em uso."
  else
    let newUserProfile :=
      {| p_username := username;
         p_displayName := username;
         p_email := email;
         p_profilePicture := None;
         p_registeredAt := registeredAt;
         p_isVerified := false;
         p_verificationCode := Some verificationCode |} in
    let updatedProfiles := dict_set username newUserProfile (userProfiles st) in
    let updatedPasswords := dict_set username password (userPasswords st) in
    Resolved verificationCode
      {| currentUser := currentUser st;
         userProfiles := updatedProfiles;
         userPasswords := updatedPasswords;
         localStorage :=
           {| profiles_db := Some updatedProfiles;
              passwords_db := Some updatedPasswords;
              user_data := <[username := DEFAULT_USER_DATA]> (user_data (localStorage st)) |} |}.

(** [handleVerifyEmail]. *)
Definition handleVerifyEmail (username code : string) (st : AuthState) : Outcome unit :=
  match dict_get (userProfiles st) username with
  | Own profile =>
      if opt_is (p_verificationCode profile) code
      then
        let verifiedProfile := with_verification true None profile in
        let updatedProfiles := dict_set username verifiedProfile (userProfiles st) in
        Resolved tt
          {| currentUser := Some verifiedProfile;
             userProfiles := updatedProfiles;
             userPasswords := userPasswords st;
             localStorage :=
               {| profiles_db := Some updatedProfiles;
                  passwords_db := passwords_db (localStorage st);
                  user_data := user_data (localStorage st) |} |}
      else Rejected "Código de verificação inválido."
  | Inherited | Absent => Rejected "Código de verificação inválido."
  end.

(** [handleForgotPassword]; [resetCode] is the value of
    [generateCode()]. *)
Definition handleForgotPassword (email resetCode : string) (st : AuthState)
    : Outcome string :=
  match List.find (fun e => same_email email (snd e)) (Object_entries (userProfiles st)) with
  | None => Rejected "Nenhum usuário encontrado com este e-mail."
  | Some userEntry =>
      let username := fst userEntry in
      let updatedProfile :=
        with_verification (p_isVerified (snd userEntry)) (Some resetCode) (snd userEntry) in
      let updatedProfiles := dict_set username updatedProfile (userProfiles st) in
      Resolved resetCode
        {| currentUser := currentUser st;
           userProfiles := updatedProfiles;
           userPasswords := userPasswords st;
           localStorage :=
             {| profiles_db := Some updatedProfiles;
                passwords_db := passwords_db (localStorage st);
                user_data := user_data (localStorage st) |} |}
  end.

(** [handleResetPassword]. *)
Definition handleResetPassword (email code newPassword : string) (st : AuthState)
    : Outcome unit :=
  match List.find (fun e => same_email email (snd e)) (Object_entries (userProfiles st)) with
  | None => Rejected "Usuário não encontrado."
  | Some userEntry =>
      let username := fst userEntry in
      let profile := snd userEntry in
      if opt_is (p_verificationCode profile) code
      then
        let updatedProfile := with_verification (p_isVerified profile) None profile in
        let updatedProfiles := dict_set username updatedProfile (userProfiles st) in
        let updatedPasswords := dict_set username newPassword (userPasswords st) in
        Resolved tt
          {| currentUser := currentUser st;
             userProfiles := updatedProfiles;
             userPasswords := updatedPasswords;
             localStorage :=
               {| profiles_db := Some updatedProfiles;
                  passwords_db := Some updatedPasswords;
                  user_data := user_data (localStorage st) |} |}
      else Rejected "Código de recuperação inválido."
  end.

(** What can be asked of the accounts, and the state afterwards. *)
Inductive AccountAction :=
| Login (username password : string)
| Register (username password email verificationCode registeredAt : string)
| VerifyEmail (username code : string)
| ForgotPassword (email resetCode : string)
| ResetPassword (email code newPassword : string)
| Logout
| DeleteUser (row : UserProfile).

Definition account_step (a : AccountAction) (st : AuthState) : AuthState :=
  match a with
  | Login username password => state_after (handleLogin username password st) st
  | Register username password email verificationCode registeredAt =>
      state_after (handleRegister username password email verificationCode registeredAt st) st
  | VerifyEmail username code => state_after (handleVerifyEmail username code st) st
  | ForgotPassword email resetCode => state_after (handleForgotPassword email resetCode st) st
  | ResetPassword email code newPassword =>
      state_after (handleResetPassword email code newPassword st) st
  | Logout => handleLogout st
  | DeleteUser row => AdminPage_delete row st
  end.

(** User names and e-mail addresses identify the accounts: the keys
    are pairwise distinct, every profile stands under its user name,
    and no two profiles have the same address up to case. *)
Definition accounts_ok (st : AuthState) : Prop :=
  NoDup (List.map fst (userProfiles st))
  /\ Forall (fun e => p_username (snd e) = fst e) (userProfiles st)
  /\ NoDup (List.map (fun e => String_toLowerCase (p_email (snd e))) (userProfiles st)).

(** The two databases in [localStorage] are the ones in the state. *)
Definition stored (st : AuthState) : Prop :=
  default [] (profiles_db (localStorage st)) = userProfiles st
  /\ default [] (passwords_db (localStorage st)) = userPasswords st.

End Accounts.

(** ** Service worker ([src/unnamed/part_000])

    The worker's [install] and [fetch] listeners, on the cache
    storage.  A request is its method and its URL, a response its
    status and its body; a cache is a map from URLs to responses (it
    holds at most one response per URL: [Vary] headers are not
    modelled), the cache storage a map from cache names to caches.
    URLs are compared as they are written.  A [put] that was started
    has completed when the next event arrives. *)

Record Request := mkRequest {
  method : string;
  url : string
}.

Record Response := mkResponse {
  status : Z;
  body : string
}.

Definition CACHE_NAME : string := "controlfin-cache-v1".

Definition CORE_ASSETS : list string :=
  [ "./"; "./index.html"; "./bundle.js"; "./manifest.json";
    "https://cdn.tailwindcss.com"; "https://rsms.me/inter/inter.css";
    "https://www.transparenttextures.com/patterns/stardust.png" ].

(** What the listener does with a [fetch] event: nothing (the browser
    handles the request), or [event.respondWith] with a promise that
    resolves with a response or with [undefined] (a network error for
    the page). *)
Inductive FetchOutcome :=
| Unhandled
| RespondWith (response : option Response).

(** [caches.open(name)]: the cache of that name, created if missing. *)
Definition caches_open (name : string) (caches : gmap string (gmap string Response))
    : gmap string Response * gmap string (gmap string Response) :=
  match caches !! name with
  | Some cache => (cache, caches)
  | None => (∅, <[name := ∅]> caches)
  end.

(** [cache.addAll] takes a response whose status is an ok status
    other than 206. *)
Definition addAll_accepts (r : Response) : bool :=
  (200 <=? status r) && (status r <=? 299) && negb (status r =? 206).

(** The [install] listener.  [network] is what a fetch of each URL
    settles with.  [cache.addAll] adds all the responses or none; the
    boolean tells whether the promise given to [event.waitUntil] was
    fulfilled. *)
Definition oninstall (network : string -> option Response)
    (caches : gmap string (gmap string Response))
    : bool * gmap string (gmap string Response) :=
  let '(cache, caches) := caches_open CACHE_NAME caches in
  if forallb (fun u => match network u with
                       | Some r => addAll_accepts r
                       | None => false
                       end) CORE_ASSETS
  then (true,
        <[CACHE_NAME := fold_left (fun c u => match network u with
                                              | Some r => <[u := r]> c
                                              | None => c
                                              end) CORE_ASSETS cache]> caches)
  else (false, caches).

(** The [fetch] listener.  [network] is what [fetch(event.request)]
    settles with: a response, or a rejection ([None]). *)
Definition onfetch (request : Request) (network : option Response)
    (caches : gmap string (gmap string Response))
    : FetchOutcome * gmap string (gmap string Response) :=
  if negb (String.eqb (method request) "GET") then (Unhandled, caches)
  else
    let '(cache, caches) := caches_open CACHE_NAME caches in
    let cachedResponse := cache !! url request in
    match network with
    | Some networkResponse =>
        if status networkResponse =? 200
        then (RespondWith (Some networkResponse),
              <[CACHE_NAME := <[url request := networkResponse]> cache]> caches)
        else (RespondWith (Some networkResponse), caches)
    | None => (RespondWith cachedResponse, caches)
    end.

(** What the worker's cache holds for a URL. *)
Definition cached (caches : gmap string (gmap string Response)) (u : string)
    : option Response :=
  match caches !! CACHE_NAME with
  | Some cache => cache !! u
  | None => None
  end.

(** The cache storage after a sequence of [fetch] events, each a
    request with what the network answered. *)
Definition after_fetches (events : list (Request * option Response))
    (caches : gmap string (gmap string Response)) : gmap string (gmap string Response) :=
  fold_left (fun caches event => snd (onfetch (fst event) (snd event) caches)) events caches.

(** The last answer with status 200 that a GET of the URL [u] got in
    a sequence of events. *)
Fixpoint last_good (u : string) (events : list (Request * option Response))
    : option Response :=
  match events with
  | [] => None
  | (request, network) :: rest =>
      match last_good u rest with
      | Some r => Some r
      | None =>
          match network with
          | Some r => if String.eqb (method request) "GET" && String.eqb (url request) u
                         && (status r =? 200)
                      then Some r else None
          | None => None
          end
      end
  end.

(** ** Sample ledgers

    The scenario of the specification: an income of 1000 and an
    expense record "Groceries" that receives two sub-items, 30 and
    45. *)

Definition ex_income : Transaction :=
  {| id := "trans1704412800000"; description := "Salary"; amount := 1000;
     date := "2024-01-05T00:00:00.000Z"; type := INCOME; category := "Salário";
     parentId := None; subItems := None; notes := None |}.

Definition ex_groceries (a : float) : Transaction :=
  {| id := "trans1704844800000"; description := "Groceries"; amount := a;
     date := "2024-01-10T00:00:00.000Z"; type := EXPENSE; category := "Supermercado";
     parentId := None; subItems := None; notes := None |}.

Definition ex_rice : Transaction :=
  {| id := "trans1704931200000"; description := "Rice"; amount := 30;
     date := "2024-01-11T00:00:00.000Z"; type := EXPENSE; category := "Supermercado";
     parentId := Some "trans1704844800000"; subItems := None; notes := Some "5kg" |}.

Definition ex_milk : Transaction :=
  {| id := "trans1705017600000"; description := "Milk"; amount := 45;
     date := "2024-02-12T00:00:00.000Z"; type := EXPENSE; category := "Supermercado";
     parentId := Some "trans1704844800000"; subItems := None; notes := Some "2L" |}.

Definition ex_start : list Transaction := [ex_income; ex_groceries 0].

Definition ex_ledger : list Transaction :=
  [ex_income; ex_groceries 75; ex_rice; ex_milk].

Definition ex_form (description : string) (a : float) (day : string) (notes : string)
    : FormState :=
  {| f_description := description; f_amount := Some a; f_date := day;
     f_type := EXPENSE; f_category := "Supermercado"; f_notes := notes |}.

(** The scenario as intents: two sub-items under "Groceries", then the
    deletion of the first. *)
Definition ex_intents : list Intent :=
  [ AddSubItem "trans1704844800000" (ex_form "Rice" 30 "2024-01-11" "5kg") 1704931200000;
    AddSubItem "trans1704844800000" (ex_form "Milk" 45 "2024-02-12" "2L") 1705017600000;
    DeleteTransaction "trans1704931200000" ].

(** The row of "Groceries" as the tree builder returns it for
    [ex_ledger]. *)
Definition ex_groceries_row : Transaction :=
  with_subItems (Some [with_subItems (Some []) ex_milk; with_subItems (Some []) ex_rice])
                (ex_groceries 75).


(** The sub-item "Rice" asked for with an amount field that was
    filled and cleared again. *)
Definition ex_cleared_intent : Intent :=
  AddSubItem "trans1704844800000" (ex_form "Rice" nan "2024-01-11" "5kg") 1704931200000.

(** A ledger of depth 3 that satisfies the parent-sum invariant:
    "Basmati" stands under the sub-item "Rice". *)
Definition ex_basmati : Transaction :=
  {| id := "trans1705104000000"; description := "Basmati"; amount := 5;
     date := "2024-01-11T00:00:00.000Z"; type := EXPENSE; category := "Supermercado";
     parentId := Some "trans1704931200000"; subItems := None; notes := None |}.

Definition ex_deep : list Transaction :=
  [ex_income; ex_groceries 50; with_amount 5 ex_rice; ex_milk; ex_basmati].

(** A form with a negative amount, one without description, one whose
    amount field was filled and cleared, and one whose amount field
    was never touched. *)
Definition ex_negative_form : FormState := ex_form "Refund" (-5) "2024-01-15" "".
Definition ex_blank_form : FormState := ex_form "" 5 "2024-01-15" "".
Definition ex_cleared_form : FormState := ex_form "Refund" nan "2024-01-15" "".
Definition ex_untouched_form : FormState :=
  {| f_description := "Refund"; f_amount := None; f_date := "2024-01-15";
     f_type := EXPENSE; f_category := "Supermercado"; f_notes := "" |}.

(** An orphan (its parent is not in the list) that is itself named as
    parent, and a record that names itself. *)
Definition ex_orphan : Transaction :=
  {| id := "trans1706000000000"; description := "Orphan"; amount := 7;
     date := "2024-01-20T00:00:00.000Z"; type := EXPENSE; category := "Lazer";
     parentId := Some "trans1600000000000"; subItems := None; notes := None |}.

Definition ex_orphan_child : Transaction :=
  {| id := "trans1706100000000"; description := "Child"; amount := 7;
     date := "2024-01-21T00:00:00.000Z"; type := EXPENSE; category := "Lazer";
     parentId := Some "trans1706000000000"; subItems := None; notes := None |}.

Definition ex_orphans : list Transaction := [ex_orphan; ex_orphan_child].

Definition ex_self_parent : Transaction :=
  {| id := "trans1707000000000"; description := "Loop"; amount := 1;
     date := "2024-01-22T00:00:00.000Z"; type := EXPENSE; category := "Lazer";
     parentId := Some "trans1707000000000"; subItems := None; notes := None |}.

(** A payload whose parentId is the id of no record of [ex_ledger]. *)
Definition ex_stray : TransactionData :=
  {| d_description := "Stray"; d_amount := 9; d_date := "2024-01-13T00:00:00.000Z";
     d_type := EXPENSE; d_category := "Lazer";
     d_parentId := Some "trans1600000000000"; d_notes := None |}.

(** A top-level record of a given id, type, amount and date. *)
Definition ex_entry (i : string) (ty : TransactionType) (a : float) (day : string)
    : Transaction :=
  {| id := i; description := "Entry"; amount := a; date := day; type := ty;
     category := "Lazer"; parentId := None; subItems := None; notes := None |}.

(** A record that names the id [trans5], which no record carries, and
    a payload that names it too. *)
Definition ex_early : Transaction :=
  {| id := "trans1"; description := "Early"; amount := 7;
     date := "2024-01-12T00:00:00.000Z"; type := EXPENSE; category := "Lazer";
     parentId := Some "trans5"; subItems := None; notes := None |}.

Definition ex_late : TransactionData :=
  {| d_description := "Late"; d_amount := 9; d_date := "2024-01-14T00:00:00.000Z";
     d_type := EXPENSE; d_category := "Lazer";
     d_parentId := Some "trans5"; d_notes := None |}.

(** Two records that share an id. *)
Definition ex_twins : list Transaction :=
  [ with_amount 1 (ex_groceries 0); with_amount 2 (ex_groceries 0) ].

(** The category "Supermercado" renamed to "Mercado" in the settings
    page, and the user data read back by the load effect: the initial
    category is pushed again, under the id the renamed one still
    carries.  [String_trim] is the host's [trim]. *)
Definition ex_renamed (String_trim : string -> string) : UserData :=
  handleUpdateCategory String_trim
    {| cat_id := "cat1"; cat_name := "Mercado"; cat_icon := Some "shopping_cart" |}
    (set_transactions [ex_groceries 75; ex_rice; ex_milk] DEFAULT_USER_DATA).

Definition ex_reloaded (String_trim : string -> string) : UserData :=
  set_categories (mergeCategories (categories (ex_renamed String_trim)))
                 (ex_renamed String_trim).

(** ** Further samples *)

(** A record that was kept at 100 without sub-items. *)
Definition ex_plain : list Transaction := [ex_income; ex_groceries 100].

(** ** A [toLowerCase] and a [trim] for running the definitions

    The sections take the host's string functions as parameters.  To
    run them on concrete inputs, the following instances work on text
    written in UTF-8, as the literals of this file are.  [lower] gives
    the lower case of the letters of the Basic Latin and Latin-1
    Supplement blocks ([A] to [Z], and [U+00C0] to [U+00DE] without
    the multiplication sign) and leaves every other character as it
    is; it is [toLowerCase] on text of these two blocks, not beyond.
    [trim] removes, at both ends, the white space and the line
    terminators of ECMAScript: tab, line feed, vertical tab, form
    feed, carriage return, space, [U+00A0], [U+1680], [U+2000] to
    [U+200A], [U+2028], [U+2029], [U+202F], [U+205F], [U+3000] and
    [U+FEFF]. *)
Definition ascii_lower (c : Ascii.ascii) : Ascii.ascii :=
  let n := Ascii.nat_of_ascii c in
  if ((65 <=? n)%nat && (n <=? 90)%nat) then Ascii.ascii_of_nat (n + 32) else c.

(** The second byte of a letter of the Latin-1 Supplement, whose
    first byte is [0xC3]. *)
Definition latin1_lower (c : Ascii.ascii) : Ascii.ascii :=
  let n := Ascii.nat_of_ascii c in
  if ((128 <=? n)%nat && (n <=? 150)%nat) || ((152 <=? n)%nat && (n <=? 158)%nat)
  then Ascii.ascii_of_nat (n + 32) else c.

Fixpoint lower (s : string) : string :=
  match s with
  | EmptyString => EmptyString
  | String c rest =>
      if (Ascii.nat_of_ascii c =? 195)%nat
      then match rest with
           | EmptyString => String c EmptyString
           | String c' rest' => String c (String (latin1_lower c') (lower rest'))
           end
      else String (ascii_lower c) (lower rest)
  end.

(** What is left of [s] after the white space character or line
    terminator at its front, if there is one. *)
Definition white_space_prefix (s : string) : option string :=
  match s with
  | EmptyString => None
  | String c1 r1 =>
      let n1 := Ascii.nat_of_ascii c1 in
      if ((9 <=? n1)%nat && (n1 <=? 13)%nat) || (n1 =? 32)%nat then Some r1
      else
        match r1 with
        | EmptyString => None
        | String c2 r2 =>
            let n2 := Ascii.nat_of_ascii c2 in
            if (n1 =? 194)%nat && (n2 =? 160)%nat then Some r2
            else
              match r2 with
              | EmptyString => None
              | String c3 r3 =>
                  let n3 := Ascii.nat_of_ascii c3 in
                  if ((n1 =? 225)%nat && (n2 =? 154)%nat && (n3 =? 128)%nat)
                     || ((n1 =? 226)%nat && (n2 =? 128)%nat
                         && (((128 <=? n3)%nat && (n3 <=? 138)%nat)
                             || (n3 =? 168)%nat || (n3 =? 169)%nat || (n3 =? 175)%nat))
                     || ((n1 =? 226)%nat && (n2 =? 129)%nat && (n3 =? 159)%nat)
                     || ((n1 =? 227)%nat && (n2 =? 128)%nat && (n3 =? 128)%nat)
                     || ((n1 =? 239)%nat && (n2 =? 187)%nat && (n3 =? 191)%nat)
                  then Some r3 else None
              end
        end
  end.

Fixpoint trim_start_from (fuel : nat) (s : string) : string :=
  match fuel with
  | O => s
  | S f => match white_space_prefix s with
           | Some rest => trim_start_from f rest
           | None => s
           end
  end.

Definition trim_start (s : string) : string := trim_start_from (String.length s) s.

(** A string that is white space from some byte on ends there. *)
Fixpoint trim_end (s : string) : string :=
  match s with
  | EmptyString => EmptyString
  | String c rest =>
      match trim_start s with
      | EmptyString => EmptyString
      | _ => String c (trim_end rest)
      end
  end.

Definition trim (s : string) : string := trim_end (trim_start s).

(** The no-break space [U+00A0], in UTF-8. *)
Definition ex_no_break_space : string :=
  String (Ascii.ascii_of_nat 194) (String (Ascii.ascii_of_nat 160) EmptyString).

(** A page that was fetched once with success, then with a server
    error. *)
Definition ex_page : Response := {| status := 200; body := "<html>" |}.
Definition ex_error : Response := {| status := 500; body := "" |}.
Definition ex_get (u : string) : Request := {| method := "GET"; url := u |}.
Definition ex_session : list (Request * option Response) :=
  [ (ex_get "./index.html", Some ex_page); (ex_get "./index.html", Some ex_error) ].

(** A sub-item of 30 asked for under "Groceries". *)
Definition ex_sub_item : TransactionData :=
  {| d_description := "Rice"; d_amount := 30; d_date := "2024-01-11T00:00:00.000Z";
     d_type := EXPENSE; d_category := "Supermercado";
     d_parentId := Some "trans1704844800000"; d_notes := Some "5kg" |}.

(** The user data of the scenario, with the initial categories. *)
Definition ex_user_data : UserData :=
  set_transactions [ex_groceries 75; ex_rice; ex_milk] DEFAULT_USER_DATA.

(** The accounts of a browser that never ran the application, after
    the first effect; then with a user who registered, verified the
    address and logged out. *)
Definition ex_first_visit : AuthState :=
  {| currentUser := None; userProfiles := []; userPasswords := [];
     localStorage := {| profiles_db := None; passwords_db := None; user_data := ∅ |} |}.

Definition ex_accounts : AuthState :=
  loadDatabases "2024-01-01T00:00:00.000Z" ex_first_visit.

Definition ex_registered : AuthState :=
  state_after (handleRegister lower "ana" "secret1" "Ana@Example.com" "123456"
                              "2024-01-02T00:00:00.000Z" ex_accounts) ex_accounts.

Definition ex_verified : AuthState :=
  state_after (handleVerifyEmail "ana" "123456" ex_registered) ex_registered.

Definition ex_ana : UserProfile :=
  {| p_username := "ana"; p_displayName := "ana"; p_email := "Ana@Example.com";
     p_profilePicture := None; p_registeredAt := "2024-01-02T00:00:00.000Z";
     p_isVerified := true; p_verificationCode := None |}.

(** ** Tactics for concrete record sets *)

(** Case analysis on membership in a list that is written out. *)
Ltac in_cases :=
  repeat match goal with
         | H : In _ (_ :: _) |- _ => destruct H as [<-|H]
         | H : In _ [] |- _ => destruct H
         end.

(** A decidable proposition settled by evaluation. *)
Ltac by_computation := apply (bool_decide_unpack _); vm_compute; exact I.

(** * Properties *)

(** ** Sums *)

Lemma add_all_fold (l : list Transaction) (a : float) :
  fold_left (fun sum item => (sum + amount item)%float) l a = add_all a (List.map amount l).
Proof. revert a. induction l as [|x l IH]; intros a; simpl; [reflexivity|apply IH]. Qed.

Lemma sum_amounts_total (l : list Transaction) :
  sum_amounts l = total (List.map amount l).
Proof. apply add_all_fold. Qed.

Lemma filter_filter {A : Type} (P Q : A -> bool) (l : list A) :
  List.filter P (List.filter Q l) = List.filter (fun x => P x && Q x) l.
Proof.
  induction l as [|x l IH]; simpl; [reflexivity|].
  destruct (Q x); simpl; destruct (P x); simpl; now rewrite IH.
Qed.

Lemma filter_top_level (P : Transaction -> bool) (l : list Transaction) :
  List.filter (fun t => P t && negb (truthy (parentId t))) l
  = List.filter (fun t => P t && negb (truthy (parentId t))) (List.filter top_level l).
Proof.
  rewrite filter_filter. apply filter_ext. intros t. unfold top_level.
  destruct (P t), (truthy (parentId t)); reflexivity.
Qed.

(** ** Period totals (C4) *)

Lemma no_parentId_top_level (t : Transaction) :
  parentId t <> Some "" ->
  top_level t = match parentId t with None => true | Some _ => false end.
Proof.
  unfold top_level, truthy, truthy_string. destruct (parentId t) as [p|]; [|reflexivity].
  intros H. destruct (String.eqb_spec p ""); [subst; congruence|reflexivity].
Qed.

(** C4. For every record set, [totalIncome] is the sum of the amounts
    of the INCOME records without a parentId, [totalExpense] the sum
    over the EXPENSE records without a parentId, and [balance] is
    [totalIncome - totalExpense].  A sum of amounts adds them in the
    order of the set, in floating-point arithmetic.  Sub-items do not
    contribute: each total is the total of the set with its sub-items
    taken out, and two sets with the same top-level records, in the
    same order, have the same totals, whatever sub-items they hold.
    "Without a parentId" is the presence test of the code
    ([!t.parentId]: undefined or empty); when no record carries the
    empty string as parentId it is literally an absent parentId. *)
Theorem period_totals (l : list Transaction) :
  totalIncome l = total (amounts_where (fun t => bool_decide (type t = INCOME) && top_level t) l)
  /\ totalExpense l = total (amounts_where (fun t => bool_decide (type t = EXPENSE) && top_level t) l)
  /\ balance l = (totalIncome l - totalExpense l)%float
  /\ totalIncome l = totalIncome (List.filter top_level l)
  /\ totalExpense l = totalExpense (List.filter top_level l)
  /\ (forall l', List.filter top_level l' = List.filter top_level l ->
        totalIncome l' = totalIncome l /\ totalExpense l' = totalExpense l
        /\ balance l' = balance l)
  /\ ((forall t, In t l -> parentId t <> Some "") ->
      totalIncome l
      = total (amounts_where
                 (fun t => bool_decide (type t = INCOME)
                           && match parentId t with None => true | Some _ => false end) l)
      /\ totalExpense l
         = total (amounts_where
                    (fun t => bool_decide (type t = EXPENSE)
                              && match parentId t with None => true | Some _ => false end) l)).
Proof.
  assert (HI : forall k, totalIncome k = totalIncome (List.filter top_level k)).
  { intros k. unfold totalIncome. now rewrite filter_top_level. }
  assert (HE : forall k, totalExpense k = totalExpense (List.filter top_level k)).
  { intros k. unfold totalExpense. now rewrite filter_top_level. }
  split; [apply sum_amounts_total|]. split; [apply sum_amounts_total|].
  split; [reflexivity|]. split; [apply HI|]. split; [apply HE|]. split.
  - intros l' E. unfold balance.
    rewrite (HI l'), (HE l'), E, <- (HI l), <- (HE l). repeat split.
  - intros Hlit. split.
    + unfold totalIncome. rewrite sum_amounts_total. unfold amounts_where. do 2 f_equal.
      apply filter_ext_in. intros t Ht.
      rewrite <- no_parentId_top_level by auto. reflexivity.
    + unfold totalExpense. rewrite sum_amounts_total. unfold amounts_where. do 2 f_equal.
      apply filter_ext_in. intros t Ht.
      rewrite <- no_parentId_top_level by auto. reflexivity.
Qed.

Lemma map_fixed {A : Type} (g : A -> A) (l : list A) :
  (forall a, In a l -> g a = a) -> List.map g l = l.
Proof.
  intros H. rewrite <- (map_id l) at 2. now apply map_ext_in.
Qed.

Lemma rederive_app (p : string) (l1 l2 : list Transaction) :
  rederive p (l1 ++ l2)
  = List.map (fun t => if String.eqb (id t) p
                       then with_amount (sum_amounts (childrenOf p (l1 ++ l2))) t else t) l1
    ++ List.map (fun t => if String.eqb (id t) p
                          then with_amount (sum_amounts (childrenOf p (l1 ++ l2))) t else t) l2.
Proof. unfold rederive. apply map_app. Qed.

(** ** Create under a dangling parentId (C10) *)

(** C10, amended. Creating a record whose parentId [p] is the id of
    no existing record appends one record and leaves every existing
    record as it was: the result is the old list followed by one
    record, which carries the id generated from [Date.now()], the
    fields of the payload other than the amount, and no [subItems].
    When the generated id is not [p] itself, that record carries the
    amount of the payload as well; otherwise the re-derivation writes
    to the new record. *)
Theorem create_dangling_parent
    (prev : list Transaction) (now : N) (data : TransactionData) (p : string) :
  d_parentId data = Some p ->
  (forall t, In t prev -> id t <> p) ->
  let generated := String.append "trans" (NilEmpty.string_of_uint (N.to_uint now)) in
  (exists a,
     handleSaveTransaction None now data prev
     = prev ++ [ {| id := generated; description := d_description data; amount := a;
                    date := d_date data; type := d_type data;
                    category := d_category data; parentId := Some p;
                    subItems := None; notes := d_notes data |} ])
  /\ (generated <> p ->
      handleSaveTransaction None now data prev
      = prev ++ [ {| id := generated; description := d_description data;
                     amount := d_amount data;
                     date := d_date data; type := d_type data;
                     category := d_category data; parentId := Some p;
                     subItems := None; notes := d_notes data |} ]).
Proof.
  intros Hp Hdangling generated.
  assert (Hprev : forall a,
             List.map (fun t => if String.eqb (id t) p then with_amount a t else t) prev
             = prev).
  { intros a. apply map_fixed. intros t Ht.
    destruct (String.eqb_spec (id t) p) as [E|E]; [|reflexivity].
    now apply Hdangling in Ht. }
  unfold handleSaveTransaction. rewrite Hp.
  destruct (truthy_string p).
  - rewrite rederive_app, Hprev. cbn [List.map id newTransaction]. fold generated.
    unfold trans_id. fold generated. split.
    + destruct (String.eqb generated p).
      * eexists. unfold with_amount. cbn. now rewrite Hp.
      * eexists. unfold newTransaction, trans_id. fold generated. now rewrite Hp.
    + intros Hne. destruct (String.eqb_spec generated p) as [E|_]; [contradiction|].
      unfold newTransaction, trans_id. fold generated. now rewrite Hp.
  - unfold newTransaction, trans_id. fold generated. rewrite Hp. split; [eexists|]; reflexivity.
Qed.

(** ** Month filter and available months (C6) *)

Lemma prefix_substring (n : nat) (s : string) :
  String.prefix (String.substring 0 n s) s = true.
Proof.
  revert n. induction s as [|c s IH]; intros [|n]; simpl; try reflexivity.
  destruct (Ascii.ascii_dec c c) as [_|E]; [apply IH|now elim E].
Qed.

Lemma In_Set_add (months : list string) (m x : string) :
  In x (Set_add months m) -> In x months \/ x = m.
Proof.
  unfold Set_add. destruct (existsb (String.eqb m) months); [now left|].
  rewrite in_app_iff. simpl. intuition.
Qed.

Lemma In_months (f : Transaction -> string) (l : list Transaction)
    (acc : list string) (x : string) :
  In x (fold_left (fun months t => Set_add months (f t)) l acc) ->
  In x acc \/ exists t, In t l /\ x = f t.
Proof.
  revert acc. induction l as [|t l IH]; intros acc H; simpl in H; [now left|].
  apply IH in H. destruct H as [H|(u & Hu & E)].
  - apply In_Set_add in H. destruct H as [H|H]; [now left|].
    right. exists t. split; [now left|assumption].
  - right. exists u. split; [now right|assumption].
Qed.

Lemma In_insert_string (s x : string) (l : list string) :
  In x (insert_string s l) -> x = s \/ In x l.
Proof.
  induction l as [|y l IH]; simpl.
  - intuition.
  - destruct (String.leb y s); simpl; intuition.
Qed.

Lemma In_sort_strings_acc (l acc : list string) (x : string) :
  In x (fold_left (fun acc s => insert_string s acc) l acc) -> In x acc \/ In x l.
Proof.
  revert acc. induction l as [|s l IH]; intros acc H; simpl in H; [now left|].
  apply IH in H. destruct H as [H|H]; [|right; now right].
  apply In_insert_string in H. destruct H as [->|H]; [right; now left|now left].
Qed.

Lemma In_availableMonths (l : list Transaction) (M : string) :
  In M (availableMonths l) ->
  exists t, In t l /\ M = String.substring 0 7 (date t).
Proof.
  unfold availableMonths. rewrite <- in_rev. intros H.
  apply In_sort_strings_acc in H. destruct H as [[]|H].
  apply In_months in H. destruct H as [[]|H]. exact H.
Qed.

Lemma filter_sublist {A : Type} (P : A -> bool) (l : list A) :
  sublist (List.filter P l) l.
Proof.
  induction l as [|x l IH]; simpl; [constructor|].
  destruct (P x); now constructor.
Qed.

(** C6. Filtering by the literal ["all"] returns the list unchanged;
    filtering by a month [M] of [availableMonths] (a month string,
    hence not the literal ["all"]) returns a non-empty sublist in
    which every record's date starts with [M]. *)
Theorem month_filter (l : list Transaction) (M : string) :
  filteredTransactions "all" l = l
  /\ (In M (availableMonths l) -> M <> "all" ->
      filteredTransactions M l <> []
      /\ sublist (filteredTransactions M l) l
      /\ Forall (fun t => String.prefix M (date t) = true) (filteredTransactions M l)).
Proof.
  split; [reflexivity|]. intros HM Hall.
  unfold filteredTransactions.
  destruct (String.eqb_spec M "all") as [E|_]; [contradiction|].
  split; [|split].
  - apply In_availableMonths in HM. destruct HM as (t & Ht & ->).
    intros Hnil.
    assert (Hin : In t (List.filter
                          (fun u => String.prefix (String.substring 0 7 (date t)) (date u)) l)).
    { apply filter_In. split; [assumption|apply prefix_substring]. }
    rewrite Hnil in Hin. destruct Hin.
  - apply filter_sublist.
  - apply List.Forall_forall. intros t Ht. now apply filter_In in Ht.
Qed.

(** ** Lists of records with unique ids *)

Lemma perm_filter_split {A : Type} (P : A -> bool) (l : list A) :
  Permutation l (List.filter P l ++ List.filter (fun x => negb (P x)) l).
Proof.
  induction l as [|x l IH]; simpl; [constructor|].
  destruct (P x); simpl.
  - now constructor.
  - now apply Permutation_cons_app.
Qed.

Lemma filter_none {A : Type} (P : A -> bool) (l : list A) :
  (forall x, In x l -> P x = false) -> List.filter P l = [].
Proof.
  induction l as [|x l IH]; intros H; simpl; [reflexivity|].
  rewrite (H x (or_introl eq_refl)). apply IH. intros y Hy. apply H. now right.
Qed.

Lemma unique_ids_eq (l : list Transaction) (t u : Transaction) :
  unique_ids l -> In t l -> In u l -> id t = id u -> t = u.
Proof.
  unfold unique_ids. induction l as [|x l IH]; simpl; intros Hnd Ht Hu E; [contradiction|].
  apply NoDup_cons in Hnd. destruct Hnd as [Hx Hnd]. rewrite list_elem_of_In in Hx.
  destruct Ht as [->|Ht], Hu as [->|Hu]; auto.
  - elim Hx. rewrite E. now apply in_map.
  - elim Hx. rewrite <- E. now apply in_map.
Qed.

Lemma find_unique (l : list Transaction) (t : Transaction) :
  unique_ids l -> In t l ->
  List.find (fun u => String.eqb (id u) (id t)) l = Some t.
Proof.
  intros Hnd Ht.
  destruct (List.find (fun u => String.eqb (id u) (id t)) l) as [u|] eqn:F.
  - apply find_some in F. destruct F as [Hu E].
    apply String.eqb_eq in E. f_equal. now apply (unique_ids_eq l).
  - apply (find_none _ _ F) in Ht. now rewrite String.eqb_refl in Ht.
Qed.

Lemma filter_id_unique (l : list Transaction) (t : Transaction) :
  unique_ids l -> In t l ->
  List.filter (fun u => String.eqb (id u) (id t)) l = [t].
Proof.
  unfold unique_ids. induction l as [|x l IH]; simpl; intros Hnd Ht; [contradiction|].
  apply NoDup_cons in Hnd. destruct Hnd as [Hx Hnd]. rewrite list_elem_of_In in Hx.
  destruct Ht as [->|Ht].
  - rewrite String.eqb_refl. f_equal.
    apply filter_none. intros u Hu. destruct (String.eqb_spec (id u) (id t)) as [E|E]; [|easy].
    elim Hx. rewrite <- E. now apply in_map.
  - destruct (String.eqb_spec (id x) (id t)) as [E|E]; [|now apply IH].
    elim Hx. rewrite E. now apply in_map.
Qed.

Lemma perm_remove_id (l : list Transaction) (t : Transaction) :
  unique_ids l -> In t l ->
  Permutation l (t :: List.filter (fun u => negb (String.eqb (id u) (id t))) l).
Proof.
  intros Hnd Ht.
  rewrite (perm_filter_split (fun u => String.eqb (id u) (id t)) l) at 1.
  now rewrite filter_id_unique.
Qed.

Lemma childrenOf_In (p : string) (l : list Transaction) (c : Transaction) :
  In c (childrenOf p l) <-> In c l /\ parentId c = Some p.
Proof.
  unfold childrenOf. rewrite filter_In. unfold opt_is.
  destruct (parentId c) as [x|]; [|intuition congruence].
  destruct (String.eqb_spec x p); intuition congruence.
Qed.

Lemma opt_is_true (o : option string) (p : string) :
  opt_is o p = true <-> o = Some p.
Proof.
  unfold opt_is. destruct o as [x|]; [|intuition congruence].
  destruct (String.eqb_spec x p); intuition congruence.
Qed.

Lemma truthy_Some (p : string) : p <> "" -> truthy_string p = true.
Proof. unfold truthy_string. now destruct (String.eqb_spec p ""). Qed.

(** The records kept by the delete handler are those that are neither
    the target nor name it as parent. *)
Lemma delete_keeps (l : list Transaction) (i : string) (u : Transaction) :
  In u l ->
  negb (bool_decide (id u ∈ (list_to_set (i :: List.map id (childrenOf i l)) : gset string)))
  = negb (String.eqb (id u) i)
    && negb (existsb (fun c => String.eqb (id c) (id u)) (childrenOf i l)).
Proof.
  intros Hu. rewrite <- negb_orb. f_equal.
  apply eq_true_iff_eq. rewrite bool_decide_eq_true, orb_true_iff, elem_of_list_to_set.
  rewrite elem_of_cons, list_elem_of_In, in_map_iff, String.eqb_eq, existsb_exists.
  split.
  - intros [E|(c & E & Hc)]; [now left|]. right. exists c. split; [assumption|].
    now apply String.eqb_eq.
  - intros [E|(c & Hc & E)]; [now left|]. right. exists c.
    apply String.eqb_eq in E. now split.
Qed.

Lemma perm_three_way {A : Type} (P Q : A -> bool) (l : list A) :
  (forall x, In x l -> P x = true -> Q x = false) ->
  Permutation l (List.filter P l ++ List.filter Q l
                 ++ List.filter (fun x => negb (P x) && negb (Q x)) l).
Proof.
  induction l as [|x l IH]; intros H; simpl; [constructor|].
  assert (IH' := IH (fun y Hy => H y (or_intror Hy))). clear IH.
  destruct (P x) eqn:EP; simpl.
  - rewrite (H x (or_introl eq_refl) EP). simpl. now constructor.
  - destruct (Q x); simpl.
    + now apply Permutation_cons_app.
    + rewrite app_assoc. apply Permutation_cons_app. now rewrite <- app_assoc.
Qed.

Lemma kept_by_delete (l : list Transaction) (i : string) :
  unique_ids l ->
  List.filter (fun u => negb (bool_decide
     (id u ∈ (list_to_set (i :: List.map id (childrenOf i l)) : gset string)))) l
  = List.filter (fun u => negb (String.eqb (id u) i) && negb (opt_is (parentId u) i)) l.
Proof.
  intros Hnd. apply filter_ext_in. intros u Hu. rewrite delete_keeps by assumption.
  f_equal. f_equal. apply eq_true_iff_eq. rewrite existsb_exists, opt_is_true. split.
  - intros (c & Hc & E). apply String.eqb_eq in E. apply childrenOf_In in Hc.
    destruct Hc as [Hc Hp]. now rewrite <- (unique_ids_eq l c u).
  - intros Hp. exists u. split; [now apply childrenOf_In|apply String.eqb_refl].
Qed.

(** ** Cascading delete (C3) *)

Lemma direct_children_childrenOf (i : string) (l : list Transaction) :
  direct_children i l = childrenOf i l.
Proof.
  apply filter_ext. intros u. apply eq_true_iff_eq.
  now rewrite bool_decide_eq_true, opt_is_true.
Qed.

Lemma filter_other_id (i : string) (l : list Transaction) :
  List.filter (fun u => negb (String.eqb (id u) i)) l
  = List.filter (fun u => bool_decide (id u <> i)) l.
Proof.
  apply filter_ext. intros u. apply eq_true_iff_eq.
  rewrite bool_decide_eq_true, negb_true_iff. now destruct (String.eqb_spec (id u) i).
Qed.

Lemma Forall2_map_r {A B : Type} (f : A -> B) (l : list A) :
  Forall2 (fun x y => y = f x) l (List.map f l).
Proof. induction l; simpl; constructor; auto. Qed.

(** C3. In a record set with unique, non-empty ids and no nested
    sub-items (tree depth at most 2): deleting a top-level record [t]
    leaves exactly the records that are neither [t] nor name [t] as
    parent, as they were and in their order, so that [t] and its [N]
    direct children are removed, [N + 1] records in all; deleting a
    sub-item [s], of parentId [p], removes [s] alone, every record of
    another id than [p] stays as it was, and the record of id [p]
    keeps its fields and gets as amount the sum of the amounts of the
    remaining records whose parentId is [p], added in the order of
    the set; when no record has the id [p], nothing else changes. *)
Theorem delete_cascade (l : list Transaction) :
  valid_ids l -> no_nested l ->
  (forall t, In t l -> top_level t = true ->
     let result := confirmDeleteTransaction (id t) l in
     result
     = List.filter (fun u => bool_decide (id u <> id t /\ parentId u <> Some (id t))) l
     /\ Permutation l (t :: direct_children (id t) l ++ result)
     /\ length l = S (length (direct_children (id t) l) + length result))
  /\ (forall s p, In s l -> parentId s = Some p -> p <> "" ->
        let result := confirmDeleteTransaction (id s) l in
        let rest := List.filter (fun u => bool_decide (id u <> id s)) l in
        let remaining := direct_children p rest in
        Permutation l (s :: rest)
        /\ length l = S (length result)
        /\ Forall2 (fun u u' =>
                      if bool_decide (id u = p)
                      then same_but_amount u u'
                           /\ amount u' = total (List.map amount remaining)
                      else u' = u) rest result
        /\ ((forall u, In u l -> id u <> p) -> result = rest)).
Proof.
  intros [Hnd Hne] Hnest. split.
  - intros t Ht Htop result.
    assert (Hres : result
                   = List.filter (fun u => negb (String.eqb (id u) (id t))
                                           && negb (opt_is (parentId u) (id t))) l).
    { unfold result, confirmDeleteTransaction. rewrite find_unique by assumption.
      rewrite kept_by_delete by assumption.
      unfold top_level, truthy in Htop.
      destruct (parentId t) as [p|]; [|reflexivity].
      now destruct (truthy_string p). }
    assert (Hperm : Permutation l (t :: direct_children (id t) l ++ result)).
    { rewrite Hres, direct_children_childrenOf.
      rewrite (perm_three_way (fun u => String.eqb (id u) (id t))
                              (fun u => opt_is (parentId u) (id t)) l) at 1.
      - now rewrite filter_id_unique.
      - intros x Hx E. apply String.eqb_eq in E.
        rewrite (unique_ids_eq l x t) by assumption.
        destruct (opt_is (parentId t) (id t)) eqn:O; [|reflexivity].
        apply opt_is_true in O. unfold top_level in Htop. rewrite O in Htop. simpl in Htop.
        rewrite truthy_Some in Htop by now apply Hne. discriminate. }
    split; [|split; [exact Hperm|]].
    + rewrite Hres. apply filter_ext. intros u.
      destruct (opt_is (parentId u) (id t)) eqn:O.
      * apply opt_is_true in O. rewrite andb_false_r. symmetry.
        apply bool_decide_eq_false_2. tauto.
      * assert (parentId u <> Some (id t))
          by (intros E; apply opt_is_true in E; congruence).
        destruct (String.eqb_spec (id u) (id t)); simpl; symmetry;
          [apply bool_decide_eq_false_2|apply bool_decide_eq_true_2]; tauto.
    + apply Permutation_length in Hperm. rewrite Hperm. simpl. now rewrite length_app.
  - intros s p Hs Hp Hpne result rest remaining.
    assert (Hchildless : childrenOf (id s) l = []).
    { apply filter_none. intros c Hc.
      destruct (opt_is (parentId c) (id s)) eqn:O; [|reflexivity].
      apply opt_is_true in O. elim (Hnest s c Hs Hc); [|assumption].
      rewrite Hp. simpl. now apply truthy_Some. }
    assert (Hres : result = rederive p rest).
    { unfold result, confirmDeleteTransaction. rewrite find_unique by assumption.
      rewrite kept_by_delete by assumption. rewrite Hp.
      rewrite truthy_Some by assumption.
      f_equal. unfold rest. rewrite <- filter_other_id. apply filter_ext_in. intros u Hu.
      destruct (opt_is (parentId u) (id s)) eqn:O; [|now rewrite andb_true_r].
      assert (Hin : In u (childrenOf (id s) l)) by (apply filter_In; now split).
      rewrite Hchildless in Hin. destruct Hin. }
    assert (Hperm : Permutation l (s :: rest)).
    { unfold rest. rewrite <- filter_other_id. now apply perm_remove_id. }
    split; [exact Hperm|]. split; [|split].
    + apply Permutation_length in Hperm. rewrite Hperm, Hres. simpl.
      unfold rederive. now rewrite length_map.
    + rewrite Hres. unfold rederive.
      eapply Forall2_impl; [apply Forall2_map_r|].
      intros u u' ->. cbv beta.
      destruct (String.eqb_spec (id u) p) as [E|E].
      * rewrite bool_decide_eq_true_2 by assumption.
        split; [repeat split|]. cbn [amount with_amount].
        unfold remaining. now rewrite sum_amounts_total, direct_children_childrenOf.
      * now rewrite bool_decide_eq_false_2 by assumption.
    + intros Habsent. rewrite Hres. unfold rederive. apply map_fixed. intros u Hu.
      apply filter_In in Hu. destruct Hu as [Hu _].
      destruct (String.eqb_spec (id u) p) as [E|E]; [now elim (Habsent u Hu)|reflexivity].
Qed.

Lemma unique_ids_filter (P : Transaction -> bool) (l : list Transaction) :
  unique_ids l -> unique_ids (List.filter P l).
Proof.
  unfold unique_ids. induction l as [|x l IH]; intros Hnd; simpl; [constructor|].
  apply NoDup_cons in Hnd. destruct Hnd as [Hx Hnd].
  destruct (P x); [|now apply IH]. simpl. apply NoDup_cons. split; [|now apply IH].
  intros H. apply Hx. rewrite list_elem_of_In in *.
  apply in_map_iff in H. destruct H as (y & E & Hy). apply filter_In in Hy.
  apply in_map_iff. exists y. tauto.
Qed.

Lemma perm_filter_or {A : Type} (P Q : A -> bool) (l : list A) :
  (forall x, In x l -> P x = true -> Q x = false) ->
  Permutation (List.filter (fun x => P x || Q x) l) (List.filter P l ++ List.filter Q l).
Proof.
  induction l as [|x l IH]; intros H; simpl; [constructor|].
  assert (IH' := IH (fun y Hy => H y (or_intror Hy))). clear IH.
  destruct (P x) eqn:EP; simpl.
  - rewrite (H x (or_introl eq_refl) EP). now constructor.
  - destruct (Q x); [|assumption]. now apply Permutation_cons_app.
Qed.

(** The records attached to the members of a list with distinct ids
    are the records naming one of them, each counted once. *)
Lemma attached_partition (rs cs : list Transaction) :
  unique_ids rs ->
  Permutation
    (List.filter (fun c => truthy (parentId c)
                           && existsb (fun r => opt_is (parentId c) (id r)) rs) cs)
    (flat_map (fun r => attachedTo (id r) cs) rs).
Proof.
  unfold unique_ids. induction rs as [|r rs IH]; intros Hnd; simpl.
  - rewrite filter_none; [constructor|]. intros x _. apply andb_false_r.
  - apply NoDup_cons in Hnd. destruct Hnd as [Hr Hnd]. rewrite list_elem_of_In in Hr.
    rewrite <- (IH Hnd). unfold attachedTo.
    rewrite <- perm_filter_or.
    + erewrite filter_ext; [reflexivity|]. intros c. simpl.
      now destruct (truthy (parentId c)).
    + intros c _ H. apply andb_true_iff in H. destruct H as [_ H].
      apply opt_is_true in H. apply andb_false_iff. right.
      destruct (existsb (fun r0 => opt_is (parentId c) (id r0)) rs) eqn:E; [|reflexivity].
      apply existsb_exists in E. destruct E as (q & Hq & E). apply opt_is_true in E.
      elim Hr. replace (id r) with (id q) by congruence. now apply in_map.
Qed.

(** ** Tree builder: the object graph *)

Lemma index_lookup_other (l : list Transaction) (m : gmap string TreeObject) (k : string) :
  ~ In k (List.map id l) -> fold_left index_step l m !! k = m !! k.
Proof.
  revert m. induction l as [|x l IH]; intros m H; simpl; [reflexivity|].
  simpl in H. rewrite IH by tauto. unfold index_step.
  apply lookup_insert_ne. tauto.
Qed.

Lemma index_lookup (l : list Transaction) (m : gmap string TreeObject) (t : Transaction) :
  unique_ids l -> In t l ->
  fold_left index_step l m !! id t = Some {| obj_fields := t; obj_subItems := [] |}.
Proof.
  unfold unique_ids. revert m.
  induction l as [|x l IH]; intros m Hnd Ht; simpl in *; [contradiction|].
  apply NoDup_cons in Hnd. destruct Hnd as [Hx Hnd]. rewrite list_elem_of_In in Hx.
  destruct Ht as [->|Ht]; [|now apply IH].
  rewrite index_lookup_other by assumption. apply lookup_insert_eq.
Qed.

Lemma index_dom (l : list Transaction) (k : string) :
  is_Some (fold_left index_step l (∅ : gmap string TreeObject) !! k) <-> In k (List.map id l).
Proof.
  assert (G : forall m, is_Some (fold_left index_step l m !! k)
                        <-> In k (List.map id l) \/ is_Some (m !! k)).
  { induction l as [|x l IH]; intros m; simpl; [tauto|].
    rewrite IH. unfold index_step.
    destruct (decide (id x = k)) as [->|E].
    - rewrite lookup_insert_eq. split; [intros _; left; now left|intros _; right; eauto].
    - rewrite lookup_insert_ne by assumption. tauto. }
  rewrite G, lookup_empty. split; [intros [H|[? H]]; [assumption|discriminate]|tauto].
Qed.

Lemma resolves_spec (l : list Transaction) (m : gmap string TreeObject) (t : Transaction) :
  (forall k, is_Some (m !! k) <-> In k (List.map id l)) ->
  resolves l t = match parentId t with
                 | Some p => truthy_string p && bool_decide (is_Some (m !! p))
                 | None => false
                 end.
Proof.
  intros Hdom. unfold resolves. destruct (parentId t) as [p|]; [|reflexivity].
  f_equal. apply eq_true_iff_eq.
  rewrite existsb_exists, bool_decide_eq_true, Hdom, in_map_iff.
  split; intros (u & H1 & H2).
  - apply String.eqb_eq in H2. eauto.
  - exists u. split; [assumption|now apply String.eqb_eq].
Qed.

Lemma attachedTo_cons (k : string) (t : Transaction) (cs : list Transaction) :
  attachedTo k (t :: cs)
  = if truthy (parentId t) && opt_is (parentId t) k then t :: attachedTo k cs
    else attachedTo k cs.
Proof. reflexivity. Qed.

Lemma attach_step_spec (l : list Transaction) (m : gmap string TreeObject)
    (rs : list string) (t : Transaction) :
  (forall k, is_Some (m !! k) <-> In k (List.map id l)) ->
  attach_step (Some (m, rs)) t
  = if resolves l t
    then Some (match parentId t with
               | Some p => alter (push_subItem (id t)) p m
               | None => m
               end, rs)
    else if truthy (parentId t)
            && match parentId t with Some p => inherited m p | None => false end
         then None
         else Some (m, rs ++ [id t]).
Proof.
  intros Hdom. rewrite (resolves_spec l m t Hdom). unfold attach_step.
  destruct (parentId t) as [p|]; [|reflexivity]. simpl.
  destruct (truthy_string p); [|reflexivity]. simpl.
  destruct (m !! p) as [o|] eqn:E.
  - rewrite bool_decide_eq_true_2 by eauto. reflexivity.
  - rewrite bool_decide_eq_false_2; [reflexivity|]. intros [? ?]. discriminate.
Qed.

Lemma resolves_true (l : list Transaction) (t : Transaction) :
  resolves l t = true <->
  exists q, In q l /\ parentId t = Some (id q) /\ truthy_string (id q) = true.
Proof.
  unfold resolves. destruct (parentId t) as [p|].
  - rewrite andb_true_iff, existsb_exists. split.
    + intros (Ht & q & Hq & E). apply String.eqb_eq in E. subst p. eauto.
    + intros (q & Hq & E & Ht). injection E as ->. split; [assumption|].
      exists q. split; [assumption|apply String.eqb_refl].
  - split; [discriminate|]. intros (q & _ & E & _). discriminate.
Qed.

Lemma attach_fold_raised (cs : list Transaction) :
  fold_left attach_step cs None = None.
Proof. induction cs as [|t cs IH]; [reflexivity|exact IH]. Qed.

Lemma alter_dom (l : list Transaction) (m : gmap string TreeObject)
    (f : TreeObject -> TreeObject) (p : string) :
  (forall k, is_Some (m !! k) <-> In k (List.map id l)) ->
  forall k, is_Some (alter f p m !! k) <-> In k (List.map id l).
Proof.
  intros Hdom k. rewrite <- Hdom, lookup_alter.
  case_decide; [subst|reflexivity]. now rewrite fmap_is_Some.
Qed.

(** The second loop, when it does not raise: the roots are the
    records that do not resolve, in order; every object gains the ids
    of the records attached to it, in order. *)
Lemma attach_fold (l cs : list Transaction) :
  forall (m m' : gmap string TreeObject) (rs rs' : list string),
    (forall k, is_Some (m !! k) <-> In k (List.map id l)) ->
    fold_left attach_step cs (Some (m, rs)) = Some (m', rs') ->
    rs' = rs ++ List.map id (List.filter (fun t => negb (resolves l t)) cs)
    /\ forall k,
        m' !! k
        = (fun o => {| obj_fields := obj_fields o;
                       obj_subItems := obj_subItems o ++ List.map id (attachedTo k cs) |})
            <$> (m !! k).
Proof.
  induction cs as [|t cs IH]; intros m m' rs rs' Hdom.
  - simpl. intros E. injection E as <- <-. split; [now rewrite app_nil_r|].
    intros k. destruct (m !! k) as [[f s]|]; simpl; [|reflexivity].
    now rewrite app_nil_r.
  - cbn [fold_left List.filter]. rewrite (attach_step_spec l m rs t Hdom).
    destruct (resolves l t) eqn:R; simpl negb.
    + apply resolves_true in R. destruct R as (q & Hq & Ep & Et). rewrite Ep.
      intros E.
      destruct (IH (alter (push_subItem (id t)) (id q) m) m' rs rs'
                   (alter_dom l m _ _ Hdom) E) as [IH1 IH2].
      split; [exact IH1|].
      intros k. rewrite IH2, lookup_alter, attachedTo_cons, Ep. simpl truthy. rewrite Et.
      simpl andb. case_decide as Ek.
      * subst k. rewrite String.eqb_refl. destruct (m !! id q) as [[f s]|]; simpl; [|reflexivity].
        now rewrite <- app_assoc.
      * destruct (String.eqb_spec (id q) k); [contradiction|reflexivity].
    + destruct (truthy (parentId t)
                && match parentId t with Some p => inherited m p | None => false end).
      { rewrite attach_fold_raised. discriminate. }
      intros E. destruct (IH m m' (rs ++ [id t]) rs' Hdom E) as [IH1 IH2].
      split; [rewrite IH1, <- app_assoc; reflexivity|].
      intros k. rewrite IH2, attachedTo_cons.
      destruct (truthy (parentId t) && opt_is (parentId t) k) eqn:E'; [|reflexivity].
      apply andb_true_iff in E'. destruct E' as [Et Ek]. apply opt_is_true in Ek.
      destruct (m !! k) as [o|] eqn:Em; [|reflexivity].
      assert (Hk : In k (List.map id l)) by (apply Hdom; eauto).
      apply in_map_iff in Hk. destruct Hk as (q & <- & Hq).
      assert (R' : resolves l t = true).
      { apply resolves_true. exists q. rewrite Ek in Et. auto. }
      congruence.
Qed.

Lemma ordinary_not_inherited (l : list Transaction) (m : gmap string TreeObject)
    (t : Transaction) :
  ordinary_keys l -> In t l ->
  (forall k, is_Some (m !! k) <-> In k (List.map id l)) ->
  match parentId t with Some p => inherited m p | None => false end = false.
Proof.
  intros Hord Ht Hdom. destruct (parentId t) as [p|] eqn:Ep; [|reflexivity].
  unfold inherited.
  destruct (m !! "__proto__") as [o|] eqn:Em.
  - assert (Hk : In "__proto__" (List.map id l)) by (apply Hdom; eauto).
    apply in_map_iff in Hk. destruct Hk as (u & E & Hu). now elim (proj1 (Hord u Hu)).
  - destruct (existsb (String.eqb p) Object_prototype) eqn:E; [|reflexivity].
    apply existsb_exists in E. destruct E as (x & Hx & E). apply String.eqb_eq in E.
    subst x. now elim (proj2 (Hord t Ht) p).
Qed.

(** With ordinary keys the second loop does not raise. *)
Lemma attach_total (l cs : list Transaction) :
  ordinary_keys l -> (forall t, In t cs -> In t l) ->
  forall (m : gmap string TreeObject) (rs : list string),
    (forall k, is_Some (m !! k) <-> In k (List.map id l)) ->
    exists m' rs', fold_left attach_step cs (Some (m, rs)) = Some (m', rs').
Proof.
  intros Hord. induction cs as [|t cs IH]; intros Hin m rs Hdom; [simpl; eauto|].
  cbn [fold_left]. rewrite (attach_step_spec l m rs t Hdom).
  assert (Hcs : forall x, In x cs -> In x l) by (intros x Hx; apply Hin; now right).
  destruct (resolves l t).
  - destruct (parentId t); apply IH; auto using alter_dom.
  - rewrite (ordinary_not_inherited l m t) by (auto; apply Hin; now left).
    rewrite andb_false_r. now apply IH.
Qed.

Lemma insert_sorted_perm {A : Type} (compare : A -> A -> option Z) (x : A) (l : list A) :
  Permutation (insert_sorted compare x l) (x :: l).
Proof.
  induction l as [|y l IH]; simpl; [reflexivity|].
  destruct (ordered compare y x); [|reflexivity].
  rewrite IH. apply perm_swap.
Qed.

Lemma js_sort_perm {A : Type} (compare : A -> A -> option Z) (l : list A) :
  Permutation (js_sort compare l) l.
Proof.
  unfold js_sort.
  assert (G : forall acc, Permutation
                (fold_left (fun acc x => insert_sorted compare x acc) l acc) (acc ++ l)).
  { induction l as [|x l IH]; intros acc; simpl; [now rewrite app_nil_r|].
    rewrite IH, insert_sorted_perm. simpl. apply Permutation_middle. }
  apply G.
Qed.

Lemma descend_flat_map (l : list Transaction) (f : nat) (g : Transaction -> list Transaction)
    (ts : list Transaction) :
  descend l f (flat_map g ts) = flat_map (fun t => descend l f (g t)) ts.
Proof.
  destruct f; simpl.
  - induction ts; simpl; auto.
  - induction ts as [|t ts IH]; simpl; [reflexivity|].
    now rewrite flat_map_app, IH.
Qed.

(** Descending depth-first meets the records level by level. *)
Lemma descend_step (l : list Transaction) (f : nat) (ts : list Transaction) :
  Permutation (descend l (S f) ts)
              (ts ++ descend l f (flat_map (fun t => attachedTo (id t) l) ts)).
Proof.
  rewrite descend_flat_map. cbn [descend].
  induction ts as [|t ts IH]; simpl; [constructor|].
  constructor. rewrite IH. rewrite !app_assoc. apply Permutation_app_tail.
  apply Permutation_app_comm.
Qed.

Lemma at_level_parent (l : list Transaction) (k : nat) (t : Transaction) :
  at_level l (S k) t = true <->
  exists q, In q l /\ parentId t = Some (id q) /\ truthy_string (id q) = true
            /\ at_level l k q = true.
Proof.
  cbn [at_level]. rewrite andb_true_iff, existsb_exists. split.
  - intros (Ht & q & Hq & E). apply andb_true_iff in E. destruct E as [E Hl].
    apply opt_is_true in E. exists q. rewrite E in Ht. auto.
  - intros (q & Hq & E & Ht & Hl). split; [now rewrite E|].
    exists q. split; [assumption|]. apply andb_true_iff. split; [now apply opt_is_true|assumption].
Qed.

Lemma levels_disjoint (l : list Transaction) (j k : nat) (t : Transaction) :
  unique_ids l -> at_level l j t = true -> at_level l k t = true -> j = k.
Proof.
  intros Hnd. revert k t. induction j as [|j IH]; intros [|k] t Hj Hk; [reflexivity| | |].
  - apply at_level_parent in Hk. destruct Hk as (q & Hq & E & Ht & _).
    simpl in Hj. apply negb_true_iff in Hj.
    assert (R : resolves l t = true) by (apply resolves_true; eauto). congruence.
  - apply at_level_parent in Hj. destruct Hj as (q & Hq & E & Ht & _).
    simpl in Hk. apply negb_true_iff in Hk.
    assert (R : resolves l t = true) by (apply resolves_true; eauto). congruence.
  - apply at_level_parent in Hj, Hk.
    destruct Hj as (q & Hq & E & _ & Hj), Hk as (q' & Hq' & E' & _ & Hk).
    f_equal. apply (IH k q); [assumption|].
    now rewrite (unique_ids_eq l q q') by (try assumption; congruence).
Qed.

(** The records attached to the records of one level are the records
    of the next. *)
Lemma level_children (l ts : list Transaction) (k : nat) :
  unique_ids l -> Permutation ts (List.filter (at_level l k) l) ->
  Permutation (flat_map (fun t => attachedTo (id t) l) ts)
              (List.filter (at_level l (S k)) l).
Proof.
  intros Hnd P. rewrite (Permutation_flat_map _ P).
  rewrite <- attached_partition by now apply unique_ids_filter.
  erewrite filter_ext; [reflexivity|]. intros c. cbn [at_level]. f_equal.
  apply eq_true_iff_eq. rewrite !existsb_exists. split.
  - intros (q & Hq & E). apply filter_In in Hq. exists q. split; [tauto|].
    apply andb_true_iff. tauto.
  - intros (q & Hq & E). apply andb_true_iff in E. exists q. split; [|tauto].
    apply filter_In. tauto.
Qed.

Lemma descend_levels (l : list Transaction) :
  unique_ids l ->
  forall (f k : nat) (ts : list Transaction),
    Permutation ts (List.filter (at_level l k) l) ->
    Permutation (descend l f ts)
                (List.filter (fun t => existsb (fun j => at_level l j t) (seq k f)) l).
Proof.
  intros Hnd. induction f as [|f IH]; intros k ts P.
  - simpl. rewrite filter_none; [constructor|reflexivity].
  - rewrite descend_step. cbn [seq existsb].
    rewrite perm_filter_or.
    + apply Permutation_app; [exact P|]. apply IH. now apply level_children.
    + intros t _ Hk. destruct (existsb (fun j => at_level l j t) (seq (S k) f)) eqn:E;
        [|reflexivity].
      apply existsb_exists in E. destruct E as (j & Hj & E). apply in_seq in Hj.
      pose proof (levels_disjoint l k j t Hnd Hk E). lia.
Qed.

(** A record at level [k] has [k] distinct ancestors in the set. *)
Lemma level_chain (l : list Transaction) (k : nat) (t : Transaction) :
  unique_ids l -> In t l -> at_level l k t = true ->
  exists chain,
    length chain = S k /\ List.NoDup chain /\ incl chain l
    /\ forall x, In x chain -> exists j, (j <= k)%nat /\ at_level l j x = true.
Proof.
  intros Hnd. revert t. induction k as [|k IH]; intros t Ht Hk.
  - exists [t]. split; [reflexivity|]. split; [repeat constructor; intros []|].
    split; [intros x [<-|[]]; assumption|]. intros x [<-|[]]. exists O. auto.
  - pose proof Hk as Hk'. apply at_level_parent in Hk'.
    destruct Hk' as (q & Hq & E & _ & Hl).
    destruct (IH q Hq Hl) as (chain & Hlen & Hnd' & Hincl & Hlev).
    exists (t :: chain). split; [simpl; now rewrite Hlen|]. split; [|split].
    + constructor; [|assumption]. intros Hin. destruct (Hlev t Hin) as (j & Hj & Hjl).
      pose proof (levels_disjoint l j (S k) t Hnd Hjl Hk). lia.
    + intros x [<-|Hx]; [assumption|now apply Hincl].
    + intros x [<-|Hx]; [exists (S k); auto|].
      destruct (Hlev x Hx) as (j & Hj & Hjl). exists j. split; [lia|assumption].
Qed.

Lemma level_bound (l : list Transaction) (k : nat) (t : Transaction) :
  unique_ids l -> In t l -> at_level l k t = true -> (k < length l)%nat.
Proof.
  intros Hnd Ht Hk. destruct (level_chain l k t Hnd Ht Hk) as (chain & Hlen & Hnd' & Hincl & _).
  pose proof (List.NoDup_incl_length Hnd' Hincl). lia.
Qed.

(** Descending from the roots through as many levels as there are
    records meets every record of a rooted set once. *)
Lemma descend_all (l : list Transaction) :
  unique_ids l -> rooted l ->
  Permutation (descend l (S (length l)) (List.filter (fun t => negb (resolves l t)) l)) l.
Proof.
  intros Hnd Hrooted.
  rewrite (descend_levels l Hnd (S (length l)) 0 _ (Permutation_refl _)).
  rewrite forallb_filter_id; [reflexivity|].
  apply forallb_forall. intros t Ht. destruct (Hrooted t Ht) as (k & Hk).
  apply existsb_exists. exists k. split; [|assumption].
  apply in_seq. pose proof (level_bound l k t Hnd Ht Hk). lia.
Qed.

Section TreeBuilderFacts.

Variable Date_getTime : string -> option Z.

(** Sorting the sub-items of the roots keeps every object's fields
    and permutes its references. *)
Lemma sort_fold_lookup (rs : list string) :
  forall (m : gmap string TreeObject) (k : string),
    match m !! k with
    | Some o =>
        exists subs,
          fold_left (sort_subItems Date_getTime) rs m !! k
          = Some {| obj_fields := obj_fields o; obj_subItems := subs |}
          /\ Permutation subs (obj_subItems o)
    | None => fold_left (sort_subItems Date_getTime) rs m !! k = None
    end.
Proof.
  induction rs as [|r rs IH]; intros m k.
  - simpl. destruct (m !! k) as [[f s]|]; [|reflexivity]. now exists s.
  - cbn [fold_left]. specialize (IH (sort_subItems Date_getTime m r) k).
    unfold sort_subItems at 1 3 in IH. rewrite lookup_alter in IH.
    case_decide as Ek; [subst r|exact IH].
    destruct (m !! k) as [[f s]|]; simpl in IH; [|exact IH].
    destruct IH as (subs & H1 & H2). exists subs. split; [exact H1|].
    rewrite H2. apply js_sort_perm.
Qed.

(** The object graph of a record set with unique ids: the roots are
    the records that resolve to no parent, the object of a record
    carries its fields and the ids of the records attached to it. *)
Lemma buildTree_spec (l : list Transaction) (tree : Tree) :
  unique_ids l -> buildTree Date_getTime l = Some tree ->
  Permutation (tree_roots tree)
              (List.map id (List.filter (fun t => negb (resolves l t)) l))
  /\ (forall t, In t l ->
        exists subs,
          tree_objects tree !! id t = Some {| obj_fields := t; obj_subItems := subs |}
          /\ Permutation subs (List.map id (attachedTo (id t) l))).
Proof.
  intros Hnd. unfold buildTree.
  destruct (fold_left attach_step l (Some (fold_left index_step l ∅, [])))
    as [[m2 rs2]|] eqn:F; [|discriminate].
  destruct (attach_fold l l _ m2 [] rs2 (index_dom l) F) as [H1 H2].
  intros E. injection E as <-. simpl in H1. simpl. split.
  - rewrite js_sort_perm. now rewrite H1.
  - intros t Ht.
    pose proof (sort_fold_lookup (js_sort (sortByDate_ref Date_getTime m2) rs2) m2 (id t)) as S.
    rewrite H2, index_lookup in S by assumption. simpl in S.
    exact S.
Qed.

(** With ordinary keys the builder returns. *)
Lemma buildTree_total (l : list Transaction) :
  ordinary_keys l -> exists tree, buildTree Date_getTime l = Some tree.
Proof.
  intros Hord. unfold buildTree.
  destruct (attach_total l l Hord (fun t H => H) (fold_left index_step l ∅) []
                         (index_dom l)) as (m' & rs' & E).
  rewrite E. eauto.
Qed.

Lemma reify_object (l : list Transaction) (tree : Tree) (fuel : nat) (t : Transaction) :
  unique_ids l -> buildTree Date_getTime l = Some tree -> In t l ->
  exists subs,
    reify (S fuel) (tree_objects tree) (id t)
    = Some (with_subItems (Some (omap (reify fuel (tree_objects tree)) subs)) t)
    /\ Permutation subs (List.map id (attachedTo (id t) l)).
Proof.
  intros Hnd Hb Ht. destruct (buildTree_spec l tree Hnd Hb) as [_ H].
  destruct (H t Ht) as (subs & E & P). exists subs. split; [|exact P].
  simpl. now rewrite E.
Qed.

(** Reading the objects of a list of records of the set gives the
    records back, up to their derived field. *)
Lemma reify_records (l cs : list Transaction) (tree : Tree) (fuel : nat) :
  unique_ids l -> buildTree Date_getTime l = Some tree ->
  (forall c, In c cs -> In c l) ->
  List.map erase (omap (reify (S fuel) (tree_objects tree)) (List.map id cs))
  = List.map erase cs.
Proof.
  intros Hnd Hb. induction cs as [|c cs IH]; intros Hin; [reflexivity|].
  destruct (reify_object l tree fuel c Hnd Hb (Hin c (or_introl eq_refl))) as (subs & E & _).
  cbn [List.map omap list_omap]. rewrite E. cbn [List.map]. f_equal.
  apply IH. intros x Hx. apply Hin. now right.
Qed.

Lemma attachedTo_In (p : string) (l : list Transaction) (c : Transaction) :
  In c (attachedTo p l) <-> In c l /\ parentId c = Some p /\ truthy_string p = true.
Proof.
  unfold attachedTo. rewrite filter_In, andb_true_iff, opt_is_true.
  split; intros (H1 & H2 & H3); repeat split; auto.
  - now rewrite H3 in H2.
  - now rewrite H2.
Qed.

Lemma root_reference (l : list Transaction) (tree : Tree) (t : Transaction) :
  unique_ids l -> buildTree Date_getTime l = Some tree ->
  In t l -> resolves l t = false ->
  In (id t) (tree_roots tree).
Proof.
  intros Hnd Hb Ht R. destruct (buildTree_spec l tree Hnd Hb) as [P _].
  apply (Permutation_in _ (Permutation_sym P)).
  apply in_map. apply filter_In. now rewrite R.
Qed.

Lemma nonempty_fuel (l : list Transaction) (t : Transaction) :
  In t l -> length l = S (pred (length l)).
Proof. destruct l; [contradiction|reflexivity]. Qed.

Lemma transactionsWithSubItems_Some (l : list Transaction) (rows : list Transaction) :
  transactionsWithSubItems Date_getTime l = Some rows ->
  exists tree,
    buildTree Date_getTime l = Some tree
    /\ rows = omap (reify (S (length l)) (tree_objects tree)) (tree_roots tree).
Proof.
  unfold transactionsWithSubItems.
  destruct (buildTree Date_getTime l) as [tree|]; [|discriminate].
  intros E. injection E as <-. eauto.
Qed.

(** ** Orphans (C8) *)

(** C8, amended. In a list with pairwise distinct ids and ordinary
    keys (no id is [__proto__], no parentId is the name of a member of
    [Object.prototype]), the builder raises no error, and a record
    whose parentId is the id of no record of the list is a root: it
    appears in the returned root sequence with its fields, and its
    subItems list holds the records that name it as parent (through a
    truthy parentId), so it is empty exactly when no record does. *)
Theorem orphan_is_root (l : list Transaction) (t : Transaction) :
  unique_ids l -> ordinary_keys l -> In t l ->
  (forall u, In u l -> parentId t <> Some (id u)) ->
  exists roots r items,
    transactionsWithSubItems Date_getTime l = Some roots
    /\ In r roots
    /\ erase r = erase t
    /\ subItems r = Some items
    /\ Permutation (List.map erase items) (List.map erase (attachedTo (id t) l))
    /\ (items = [] <-> attachedTo (id t) l = []).
Proof.
  intros Hnd Hord Ht Horphan.
  destruct (buildTree_total l Hord) as (tree & Hb).
  assert (R : resolves l t = false).
  { destruct (resolves l t) eqn:R; [|reflexivity].
    apply resolves_true in R. destruct R as (q & Hq & E & _). now elim (Horphan q). }
  pose proof (root_reference l tree t Hnd Hb Ht R) as Hroot.
  destruct (reify_object l tree (length l) t Hnd Hb Ht) as (subs & E & P).
  assert (Hitems : Permutation (List.map erase (omap (reify (length l) (tree_objects tree)) subs))
                               (List.map erase (attachedTo (id t) l))).
  { rewrite P. rewrite (nonempty_fuel l t Ht).
    rewrite (reify_records l); [reflexivity|assumption..|].
    intros c Hc. now apply attachedTo_In in Hc. }
  exists (omap (reify (S (length l)) (tree_objects tree)) (tree_roots tree)),
         (with_subItems (Some (omap (reify (length l) (tree_objects tree)) subs)) t),
         (omap (reify (length l) (tree_objects tree)) subs).
  split; [unfold transactionsWithSubItems; now rewrite Hb|].
  split; [|split; [reflexivity|split; [reflexivity|split; [exact Hitems|]]]].
  - apply list_elem_of_In, list_elem_of_omap.
    exists (id t). split; [now apply list_elem_of_In|exact E].
  - split; intros H.
    + rewrite H in Hitems. apply Permutation_nil in Hitems.
      now destruct (attachedTo (id t) l).
    + rewrite H in Hitems. apply Permutation_nil_r in Hitems.
      now destruct (omap (reify (length l) (tree_objects tree)) subs).
Qed.

(** ** Every record once (C9) *)

(** Reading the tree below the objects of the records [ts] meets the
    records that the descent from [ts] meets. *)
Lemma reify_descend (l : list Transaction) (tree : Tree) :
  unique_ids l -> buildTree Date_getTime l = Some tree ->
  forall (fuel : nat) (ts : list Transaction),
    (forall t, In t ts -> In t l) ->
    Permutation
      (List.map erase
         (flat_map flatten (omap (reify fuel (tree_objects tree)) (List.map id ts))))
      (List.map erase (descend l fuel ts)).
Proof.
  intros Hnd Hb. induction fuel as [|f IH]; intros ts Hin.
  - simpl. induction ts as [|t ts IHts]; [constructor|].
    cbn [List.map omap list_omap reify]. apply IHts. intros x Hx. apply Hin. now right.
  - induction ts as [|t ts IHts]; [constructor|].
    assert (Ht : In t l) by (apply Hin; now left).
    destruct (reify_object l tree f t Hnd Hb Ht) as (subs & E & P).
    cbn [List.map omap list_omap]. rewrite E. cbn [flat_map descend].
    rewrite !map_app. apply Permutation_app; [|apply IHts; intros x Hx; apply Hin; now right].
    cbn [flatten subItems with_subItems List.map]. constructor.
    rewrite P. apply IH. intros c Hc. now apply attachedTo_In in Hc.
Qed.

(** C9, amended. For a list with pairwise distinct ids, ordinary keys
    and no parentId cycle (every record reaches, by following
    parentId, a record that resolves to no parent), the builder
    returns a tree whose records (the roots and, recursively, the
    members of the subItems lists) are exactly the records of the
    input, each once, with every field but the derived subItems
    unchanged. *)
Theorem tree_keeps_records (l : list Transaction) :
  unique_ids l -> ordinary_keys l -> rooted l ->
  exists roots,
    transactionsWithSubItems Date_getTime l = Some roots
    /\ Permutation (List.map erase (flat_map flatten roots)) (List.map erase l).
Proof.
  intros Hnd Hord Hrooted.
  destruct (buildTree_total l Hord) as (tree & Hb).
  exists (omap (reify (S (length l)) (tree_objects tree)) (tree_roots tree)).
  split; [unfold transactionsWithSubItems; now rewrite Hb|].
  destruct (buildTree_spec l tree Hnd Hb) as [Hroots _].
  rewrite Hroots.
  rewrite (reify_descend l tree Hnd Hb)
    by (intros t Ht; now apply filter_In in Ht).
  apply Permutation_map. now apply descend_all.
Qed.

(** A set of depth at most 2 has no cycle. *)
Lemma depth2_rooted (l : list Transaction) : depth2 l -> rooted l.
Proof.
  intros Hdepth t Ht. destruct (resolves l t) eqn:R.
  - exists 1%nat. apply at_level_parent. apply resolves_true in R.
    destruct R as (q & Hq & E & Tq). exists q. repeat split; try assumption.
    simpl. apply negb_true_iff.
    destruct (resolves l q) eqn:R'; [|reflexivity].
    apply resolves_true in R'. destruct R' as (g & Hg & E' & _).
    now elim (Hdepth t q g).
  - exists O. simpl. now rewrite R.
Qed.
End TreeBuilderFacts.

(** ** Rows of the transactions page *)

Lemma attachedTo_childrenOf (p : string) (l : list Transaction) :
  p <> "" -> attachedTo p l = childrenOf p l.
Proof.
  intros Hp. apply filter_ext. intros c.
  destruct (opt_is (parentId c) p) eqn:E; [|apply andb_false_r].
  apply opt_is_true in E. rewrite E. simpl. now rewrite truthy_Some.
Qed.

(** A record of a level is neither its own parent nor the parent of
    its parent. *)
Lemma level_no_cycle (l : list Transaction) (j : nat) (t : Transaction) :
  unique_ids l -> In t l -> at_level l j t = true ->
  (truthy_string (id t) = true -> parentId t <> Some (id t))
  /\ forall c, In c l -> truthy_string (id t) = true -> truthy_string (id c) = true ->
               parentId t = Some (id c) -> parentId c <> Some (id t).
Proof.
  intros Hnd Ht Hj. split.
  - intros Tt E.
    assert (H : at_level l (S j) t = true) by (apply at_level_parent; exists t; auto).
    pose proof (levels_disjoint l j (S j) t Hnd Hj H). lia.
  - intros c Hc Tt Tc E E'.
    assert (H1 : at_level l (S j) c = true) by (apply at_level_parent; exists t; auto).
    assert (H2 : at_level l (S (S j)) t = true) by (apply at_level_parent; exists c; auto).
    pose proof (levels_disjoint l j (S (S j)) t Hnd Hj H2). lia.
Qed.

Section Rows.

Variable Date_getTime : string -> option Z.

(** Reading the records of a level with the fuel left at that level
    gives, at that level and below, records of the set read with
    their sub-items. *)
Lemma flatten_rows (l : list Transaction) (tree : Tree) :
  unique_ids l -> buildTree Date_getTime l = Some tree ->
  forall (fuel k : nat) (ts : list Transaction) (e : Transaction),
    (fuel + k = S (length l))%nat ->
    (forall t, In t ts -> In t l /\ at_level l k t = true) ->
    In e (flat_map flatten (omap (reify fuel (tree_objects tree)) (List.map id ts))) ->
    exists t items j,
      In t l
      /\ e = with_subItems (Some items) t
      /\ Permutation (List.map erase items) (List.map erase (attachedTo (id t) l))
      /\ at_level l j t = true.
Proof.
  intros Hnd Hb. induction fuel as [|f IH]; intros k ts e Hfuel Hts He.
  - exfalso. induction ts as [|t ts IHts]; [destruct He|].
    apply IHts; [intros x Hx; apply Hts; now right|exact He].
  - induction ts as [|t ts IHts]; [destruct He|].
    destruct (Hts t (or_introl eq_refl)) as [Ht Hk].
    destruct (reify_object Date_getTime l tree f t Hnd Hb Ht) as (subs & E & P).
    cbn [List.map omap list_omap] in He. rewrite E in He. cbn [flat_map] in He.
    apply in_app_iff in He. destruct He as [He|He];
      [|apply IHts; [intros x Hx; apply Hts; now right|exact He]].
    assert (Hkids : forall c, In c (attachedTo (id t) l) ->
                              In c l /\ at_level l (S k) c = true).
    { intros c Hc. apply attachedTo_In in Hc. destruct Hc as (Hc & Ep & Tt).
      split; [assumption|]. apply at_level_parent. exists t. auto. }
    cbn [flatten subItems with_subItems] in He. destruct He as [<-|He].
    + exists t, (omap (reify f (tree_objects tree)) subs), k.
      split; [assumption|]. split; [reflexivity|]. split; [|assumption].
      assert (Hf : attachedTo (id t) l = [] \/ exists f', f = S f').
      { destruct (attachedTo (id t) l) as [|c cs] eqn:Ec; [now left|right].
        destruct (Hkids c (or_introl eq_refl)) as [Hcl Hl].
        pose proof (level_bound l (S k) c Hnd Hcl Hl). exists (pred f). lia. }
      rewrite P. destruct Hf as [Ef|(f' & Ef)]; [rewrite Ef; constructor|]. subst f.
      rewrite (reify_records Date_getTime l); [reflexivity|assumption..|].
      intros x Hx. now apply Hkids.
    + apply (IH (S k) (attachedTo (id t) l)); [lia|exact Hkids|].
      apply in_flat_map in He. destruct He as (x & Hx & He).
      apply in_flat_map. exists x. split; [|exact He].
      apply list_elem_of_In. rewrite <- P. now apply list_elem_of_In.
Qed.

(** A row of the page is a record of the set, read with its
    sub-items; it stands at some level below the roots. *)
Lemma rows_spec (l : list Transaction) (roots : list Transaction) (e : Transaction) :
  unique_ids l ->
  transactionsWithSubItems Date_getTime l = Some roots ->
  In e (displayedRows roots) ->
  exists t items j,
    In t l
    /\ e = with_subItems (Some items) t
    /\ Permutation (List.map erase items) (List.map erase (attachedTo (id t) l))
    /\ at_level l j t = true.
Proof.
  intros Hnd Hroots He.
  apply transactionsWithSubItems_Some in Hroots. destruct Hroots as (tree & Hb & ->).
  destruct (buildTree_spec Date_getTime l tree Hnd Hb) as [Hperm _].
  apply (flatten_rows l tree Hnd Hb (S (length l)) 0
           (List.filter (fun t => negb (resolves l t)) l)); [lia| |].
  - intros t Ht. apply filter_In in Ht. exact Ht.
  - unfold displayedRows in He. apply in_flat_map in He. destruct He as (x & Hx & He).
    apply in_flat_map. exists x. split; [|exact He].
    apply list_elem_of_In. rewrite <- Hperm. now apply list_elem_of_In.
Qed.

End Rows.

(** ** Re-derivation and the parent-sum invariant *)

Lemma filter_map_commute {A : Type} (P : A -> bool) (g : A -> A) (l : list A) :
  (forall a, In a l -> P (g a) = P a) ->
  List.filter P (List.map g l) = List.map g (List.filter P l).
Proof.
  induction l as [|a l IH]; intros H; simpl; [reflexivity|].
  rewrite (H a (or_introl eq_refl)), IH by (intros b Hb; apply H; now right).
  now destruct (P a).
Qed.

Lemma rederive_In (p : string) (l : list Transaction) (x' : Transaction) :
  In x' (rederive p l) ->
  exists x, In x l /\ id x' = id x /\ parentId x' = parentId x
            /\ ((id x = p /\ amount x' = sum_amounts (childrenOf p l))
                \/ (id x <> p /\ x' = x)).
Proof.
  unfold rederive. rewrite in_map_iff. intros (x & <- & Hx). exists x.
  split; [assumption|].
  destruct (String.eqb_spec (id x) p); simpl; auto.
Qed.

(** Re-derivation touches no child of [x] when the records of id [p]
    are children of no record. *)
Lemma childrenOf_rederive (x p : string) (l : list Transaction) :
  (forall c, In c l -> id c = p -> parentId c <> Some x) ->
  childrenOf x (rederive p l) = childrenOf x l.
Proof.
  intros H. unfold childrenOf, rederive.
  rewrite filter_map_commute.
  - apply map_fixed. intros c Hc. apply filter_In in Hc. destruct Hc as [Hc E].
    apply opt_is_true in E.
    destruct (String.eqb_spec (id c) p) as [Ep|]; [|reflexivity]. now elim (H c Hc Ep).
  - intros c _. now destruct (String.eqb (id c) p).
Qed.












(** ** The operations keep the ledger well-formed *)






Lemma js_or_None (o : option string) :
  js_or o None = o \/ (js_or o None = None /\ truthy o = false).
Proof. unfold js_or. destruct (truthy o); auto. Qed.

Lemma falsy_not_parent (l : list Transaction) (o : option string) (x : Transaction) :
  ids_nonempty l -> truthy o = false -> In x l -> o <> Some (id x).
Proof.
  intros Hne Ho Hx ->. simpl in Ho. rewrite truthy_Some in Ho by now apply Hne.
  discriminate.
Qed.



Section LedgerFacts.

Variable Date_toISOString : string -> option string.
Variable Date_getTime : string -> option Z.


(** The amount the form sends for a row with sub-items is the
    row's own. *)
Lemma row_amount (l : list Transaction) (t : Transaction) (items : list Transaction)
    (form : FormState) (parentIdProp : option string) (d : TransactionData) :
  ids_nonempty l -> In t l ->
  Permutation (List.map erase items) (List.map erase (attachedTo (id t) l)) ->
  handleSubmit Date_toISOString form (Some (with_subItems (Some items) t)) parentIdProp
  = Saved d ->
  d_parentId d = js_or (parentId t) parentIdProp
  /\ (childrenOf (id t) l <> [] -> d_amount d = amount t).
Proof.
  intros Hne Ht P. unfold handleSubmit.
  destruct (f_amount form) as [entered|]; [|discriminate].
  destruct (truthy_string (f_description form) && truthy_string (f_date form)
            && truthy_string (f_category form)); [|discriminate].
  destruct (Date_toISOString (f_date form)) as [iso|]; [|discriminate].
  intros E. injection E as <-. simpl. split; [reflexivity|].
  intros Hc. rewrite attachedTo_childrenOf in P by now apply Hne.
  destruct items as [|i items]; [|reflexivity].
  apply Permutation_nil in P. now destruct (childrenOf (id t) l).
Qed.


(** ** Invariant preservation (C1) *)


(** ** A parent's amount is not editable (C2) *)

Lemma edit_children (l : list Transaction) (t e x : Transaction) (d : TransactionData) :
  valid_ids l -> In t l -> id e = id t ->
  d_parentId d = js_or (parentId t) None ->
  In x l -> d_parentId d <> Some (id x) ->
  childrenOf (id x)
    (List.map (fun y => if String.eqb (id y) (id e) then spread_update y d else y) l)
  = childrenOf (id x) l.
Proof.
  intros [Hnd Hne] Ht Ee Ep Hx Hp.
  set (u := fun y => if String.eqb (id y) (id e) then spread_update y d else y).
  assert (Hu : forall y, In y l -> (y = t /\ u y = spread_update t d) \/ u y = y).
  { intros y Hy. unfold u. destruct (String.eqb_spec (id y) (id e)) as [E|]; [|now right].
    left. assert (y = t) as -> by (apply (unique_ids_eq l); congruence). auto. }
  unfold childrenOf. rewrite filter_map_commute.
  - apply map_fixed. intros c Hc. apply filter_In in Hc. destruct Hc as [Hc O].
    apply opt_is_true in O. destruct (Hu c Hc) as [[-> E]|E]; [|exact E].
    destruct (js_or_None (parentId t)) as [E'|[_ F]]; [congruence|].
    now elim (falsy_not_parent l (parentId t) x).
  - intros c Hc. destruct (Hu c Hc) as [[-> E]|E]; rewrite E; [|reflexivity].
    simpl. rewrite Ep.
    destruct (js_or_None (parentId t)) as [->|[-> F]]; [reflexivity|].
    simpl. symmetry. destruct (opt_is (parentId t) (id x)) eqn:O; [|reflexivity].
    apply opt_is_true in O. now elim (falsy_not_parent l (parentId t) x).
Qed.

(** C2. For a record set with unique non-empty ids and a displayed
    row with at least one sub-item in the set, an edit submitted
    through the form, whatever amount is entered, leaves the
    record's amount as it was stored (the already-derived sum): in
    the resulting set the record of that id has the old amount, and
    if the old amount was the sum of its children's amounts then the
    new amount is the sum of its children's amounts in the
    resulting set, be it as the same number or as a number that [==]
    tells equal. *)
Theorem edit_keeps_parent_amount (l : list Transaction) (roots : list Transaction)
    (row : Transaction) (form : FormState) :
  valid_ids l ->
  transactionsWithSubItems Date_getTime l = Some roots ->
  In row (displayedRows roots) ->
  childrenOf (id row) l <> [] ->
  exists t,
    In t l /\ id t = id row /\ amount t = amount row
    /\ (exists t', In t' (perform Date_toISOString (EditTransaction row form) l)
                    /\ id t' = id row)
    /\ forall t', In t' (perform Date_toISOString (EditTransaction row form) l) ->
                  id t' = id row ->
                  amount t' = amount t
                  /\ (amount t = sum_amounts (childrenOf (id t) l) ->
                      amount t'
                      = sum_amounts
                          (childrenOf (id row)
                             (perform Date_toISOString (EditTransaction row form) l)))
                  /\ (number_eq (amount t) (sum_amounts (childrenOf (id t) l)) = true ->
                      number_eq (amount t')
                        (sum_amounts
                           (childrenOf (id row)
                              (perform Date_toISOString (EditTransaction row form) l)))
                      = true).
Proof.
  intros Hvalid Hroots Hrow Hc. pose proof Hvalid as [Hnd Hne].
  destruct (rows_spec Date_getTime l roots row Hnd Hroots Hrow)
    as (t & items & j & Ht & -> & P & Hj).
  cbn [id amount with_subItems] in *.
  exists t. split; [assumption|]. split; [reflexivity|]. split; [reflexivity|].
  destruct (level_no_cycle l j t Hnd Ht Hj) as [Hself' Hcycle'].
  assert (Hself : parentId t <> Some (id t)).
  { apply Hself'. apply truthy_Some. now apply Hne. }
  assert (Hcycle : forall c, In c l -> parentId t = Some (id c) ->
                             parentId c <> Some (id t)).
  { intros c Hcl. apply Hcycle'; [assumption|apply truthy_Some; now apply Hne..]. }
  unfold perform, submit.
  destruct (handleSubmit Date_toISOString form (Some (with_subItems (Some items) t)) None)
    as [| |d] eqn:E.
  1,2: split; [now exists t|]; intros t' Ht' Ei;
       assert (t' = t) as -> by (now apply (unique_ids_eq l)); now repeat split.
  destruct (row_amount l t items form None d Hne Ht P E) as [Ep Ea].
  specialize (Ea Hc).
  set (u := fun y => if String.eqb (id y) (id t) then spread_update y d else y).
  assert (Hupd : forall x', In x' (List.map u l) -> id x' = id t -> amount x' = amount t).
  { intros x' Hx' Ei. apply in_map_iff in Hx'. destruct Hx' as (x & <- & Hx).
    unfold u in *. destruct (String.eqb_spec (id x) (id t)) as [Ex|Ex]; [exact Ea|].
    now elim Ex. }
  assert (Hkids : childrenOf (id t) (List.map u l) = childrenOf (id t) l).
  { apply (edit_children l t (with_subItems (Some items) t)); auto.
    rewrite Ep. destruct (js_or_None (parentId t)) as [->|[-> _]]; [assumption|discriminate]. }
  assert (Hres : forall t', In t' (handleSaveTransaction
                                     (Some (with_subItems (Some items) t)) 0 d l) ->
                            id t' = id t ->
                            amount t' = amount t
                            /\ childrenOf (id t) (handleSaveTransaction
                                     (Some (with_subItems (Some items) t)) 0 d l)
                               = childrenOf (id t) l).
  { unfold handleSaveTransaction. cbn [id with_subItems]. fold u.
    destruct (d_parentId d) as [p|] eqn:Ed; [destruct (truthy_string p) eqn:Tp|];
      try (intros t' Ht' Ei; split; [now apply Hupd|exact Hkids]).
    assert (Etp : parentId t = Some p).
    { rewrite Ep in Ed. destruct (js_or_None (parentId t)) as [E'|[E' _]]; congruence. }
    assert (Hp : id t <> p) by (intros <-; contradiction).
    intros t' Ht' Ei. split.
    - apply rederive_In in Ht'. destruct Ht' as (x & Hx & Ex & _ & [[Exp _]|[_ ->]]).
      + congruence.
      + now apply Hupd.
    - rewrite childrenOf_rederive; [exact Hkids|].
      intros c Hcu Ecp. apply in_map_iff in Hcu. destruct Hcu as (c0 & <- & Hc0).
      unfold u in *.
      destruct (String.eqb_spec (id c0) (id t)) as [Ex|Ex]; [simpl in Ecp; congruence|].
      apply Hcycle; [assumption|congruence]. }
  split.
  - assert (Hin : In (u t) (List.map u l)) by now apply in_map.
    unfold handleSaveTransaction. cbn [id with_subItems]. fold u.
    assert (Hi : id (u t) = id t) by (unfold u; now rewrite String.eqb_refl).
    destruct (d_parentId d) as [p|]; [destruct (truthy_string p)|]; eauto.
    exists (if String.eqb (id (u t)) p
            then with_amount (sum_amounts (childrenOf p (List.map u l))) (u t) else u t).
    split.
    + unfold rederive. apply in_map_iff. exists (u t). now split.
    + now destruct (String.eqb (id (u t)) p).
  - intros t' Ht' Ei. destruct (Hres t' Ht' Ei) as [H1 H2].
    split; [exact H1|]. split; intros Hs; now rewrite H2, H1.
Qed.

End LedgerFacts.

(** * The definitions at work *)

Lemma ex_ledger_valid_ids : valid_ids ex_ledger.
Proof.
  split; [unfold unique_ids; by_computation|].
  intros t Ht. unfold ex_ledger in Ht. in_cases; discriminate.
Defined.




Lemma ex_start_ok : ledger_ok ex_start.
Proof.
  split; [split; [unfold unique_ids; by_computation|]|split].
  - intros t Ht. unfold ex_start in Ht. in_cases; discriminate.
  - intros c q g Hc Hq Hg E. unfold ex_start in *. in_cases; simpl in *; congruence.
  - intros p Hp Hc. unfold ex_start in Hp. in_cases; vm_compute in Hc |- *;
      first [reflexivity|now elim Hc].
Defined.

(** The scenario of the specification runs as it says: 75 after the
    two sub-items, 45 after the deletion, and the dashboard reports
    1000, 75 and 925. *)
Example scenario_trace :
  trace calendar_toISOString ex_start ex_intents
  = [ [ex_income; ex_groceries 30; ex_rice];
      ex_ledger;
      [ex_income; ex_groceries 45; ex_milk] ].
Proof. vm_compute. reflexivity. Qed.

Example scenario_totals :
  totalIncome ex_ledger = 1000%float /\ totalExpense ex_ledger = 75%float
  /\ balance ex_ledger = 925%float.
Proof. vm_compute. auto. Qed.

(** The totals of the scenario are those of its two top-level
    records, and the income is the sum over the INCOME records whose
    parentId is absent. *)
Lemma period_totals_witness :
  (totalIncome [ex_income; ex_groceries 75] = totalIncome ex_ledger
   /\ totalExpense [ex_income; ex_groceries 75] = totalExpense ex_ledger
   /\ balance [ex_income; ex_groceries 75] = balance ex_ledger)
  /\ totalIncome ex_ledger
     = total (amounts_where
                (fun t => bool_decide (type t = INCOME)
                          && match parentId t with None => true | Some _ => false end)
                ex_ledger).
Proof.
  destruct (period_totals ex_ledger) as (_ & _ & _ & _ & _ & H & Hlit).
  split; [apply H; reflexivity|]. apply Hlit.
  intros t Ht. unfold ex_ledger in Ht. in_cases; discriminate.
Defined.

(** Floating-point sums do not regroup: the two totals of a set need
    not add up to the sum over its top-level records in their order. *)
Example totals_do_not_regroup :
  let l := [ ex_entry "trans1" INCOME 0.1 "2024-01-05T00:00:00.000Z";
             ex_entry "trans2" EXPENSE 0.3 "2024-01-15T00:00:00.000Z";
             ex_entry "trans3" INCOME 0.7 "2024-01-25T00:00:00.000Z" ] in
  (totalIncome l + totalExpense l)%float = 1.0999999999999999%float
  /\ total (amounts_where top_level l) = 1.1%float.
Proof. vm_compute. auto. Qed.

Lemma month_filter_witness :
  filteredTransactions "2024-01" ex_ledger <> []
  /\ sublist (filteredTransactions "2024-01" ex_ledger) ex_ledger
  /\ Forall (fun t => String.prefix "2024-01" (date t) = true)
            (filteredTransactions "2024-01" ex_ledger).
Proof.
  apply (month_filter ex_ledger "2024-01").
  - vm_compute. right. left. reflexivity.
  - discriminate.
Defined.

(** C10 as stated fails: the parentId [trans5] of the payload is the
    id of no record of the set, and it is the id that [Date.now() = 5]
    generates for the new record.  The re-derivation then writes to
    the new record, which is stored with 16, the sum of the 7 of the
    record already naming [trans5] and of its own 9. *)
Lemma generated_id_is_dangling_parent :
  let prev := [ex_early] in
  d_parentId ex_late = Some "trans5"
  /\ (forall t, In t prev -> id t <> "trans5")
  /\ d_amount ex_late = 9%float
  /\ handleSaveTransaction None 5 ex_late prev
     = prev ++ [ {| id := "trans5"; description := "Late"; amount := 16;
                    date := "2024-01-14T00:00:00.000Z"; type := EXPENSE;
                    category := "Lazer"; parentId := Some "trans5";
                    subItems := None; notes := None |} ].
Proof.
  cbv zeta. split; [reflexivity|]. split.
  - intros t Ht. in_cases. discriminate.
  - split; [reflexivity|]. vm_compute. reflexivity.
Qed.

Lemma create_dangling_parent_witness :
  handleSaveTransaction None 1705104000000 ex_stray ex_ledger
  = ex_ledger ++ [ {| id := "trans1705104000000"; description := "Stray"; amount := 9;
                      date := "2024-01-13T00:00:00.000Z"; type := EXPENSE;
                      category := "Lazer"; parentId := Some "trans1600000000000";
                      subItems := None; notes := None |} ].
Proof.
  apply (create_dangling_parent ex_ledger 1705104000000 ex_stray "trans1600000000000").
  - reflexivity.
  - intros t Ht. unfold ex_ledger in Ht. in_cases; discriminate.
  - discriminate.
Defined.

Lemma ex_ledger_no_nested : no_nested ex_ledger.
Proof.
  intros s c Hs Hc T E. unfold ex_ledger in *. in_cases; simpl in *; congruence.
Defined.

Lemma delete_cascade_witness :
  (let result := confirmDeleteTransaction (id (ex_groceries 75)) ex_ledger in
   result
   = List.filter (fun u => bool_decide (id u <> id (ex_groceries 75)
                                        /\ parentId u <> Some (id (ex_groceries 75))))
                 ex_ledger
   /\ Permutation ex_ledger
        (ex_groceries 75 :: direct_children (id (ex_groceries 75)) ex_ledger ++ result)
   /\ length ex_ledger
      = S (length (direct_children (id (ex_groceries 75)) ex_ledger) + length result))
  /\ (let result := confirmDeleteTransaction (id ex_rice) ex_ledger in
      let rest := List.filter (fun u => bool_decide (id u <> id ex_rice)) ex_ledger in
      let remaining := direct_children "trans1704844800000" rest in
      Permutation ex_ledger (ex_rice :: rest)
      /\ length ex_ledger = S (length result)
      /\ Forall2 (fun u u' =>
                    if bool_decide (id u = "trans1704844800000")
                    then same_but_amount u u'
                         /\ amount u' = total (List.map amount remaining)
                    else u' = u) rest result
      /\ ((forall u, In u ex_ledger -> id u <> "trans1704844800000") -> result = rest))
  /\ confirmDeleteTransaction (id ex_early) [ex_income; ex_early]
     = List.filter (fun u => bool_decide (id u <> id ex_early)) [ex_income; ex_early].
Proof.
  destruct (delete_cascade ex_ledger ex_ledger_valid_ids ex_ledger_no_nested) as [Htop Hsub].
  split; [|split].
  - apply Htop; [right; left; reflexivity|reflexivity].
  - apply (Hsub ex_rice "trans1704844800000").
    + right. right. left. reflexivity.
    + reflexivity.
    + discriminate.
  - assert (Hv : valid_ids [ex_income; ex_early]).
    { split; [unfold unique_ids; by_computation|].
      intros t Ht. in_cases; discriminate. }
    assert (Hn : no_nested [ex_income; ex_early]).
    { intros s c Hs Hc T E. in_cases; simpl in *; congruence. }
    apply (proj2 (delete_cascade [ex_income; ex_early] Hv Hn) ex_early "trans5").
    + right. left. reflexivity.
    + reflexivity.
    + discriminate.
    + intros u Hu. in_cases; discriminate.
Defined.

(** The two deletions of the scenario, and the deletion of a sub-item
    whose parent is not in the set. *)
Example scenario_deletions :
  confirmDeleteTransaction (id (ex_groceries 75)) ex_ledger = [ex_income]
  /\ confirmDeleteTransaction (id ex_rice) ex_ledger = [ex_income; ex_groceries 45; ex_milk]
  /\ confirmDeleteTransaction (id ex_early) [ex_income; ex_early] = [ex_income].
Proof. vm_compute. auto. Qed.

(** ** Invariant preservation: what fails, what holds *)


(** C1 as stated fails also without nesting: the amount field of the
    form, once cleared, holds [NaN]; the form saves it, the sub-item
    "Rice" is stored with it, "Groceries" is re-derived to [NaN], and
    [NaN == NaN] is false. *)
Example cleared_amount_breaks_parent_sum :
  parent_sum ex_start
  /\ ledger_ok ex_start
  /\ offered calendar_getTime ex_start ex_cleared_intent
  /\ perform calendar_toISOString ex_cleared_intent ex_start
     = [ex_income; ex_groceries nan; with_amount nan ex_rice]
  /\ ~ parent_sum (perform calendar_toISOString ex_cleared_intent ex_start)
  /\ parent_derived (perform calendar_toISOString ex_cleared_intent ex_start).
Proof.
  assert (E : perform calendar_toISOString ex_cleared_intent ex_start
              = [ex_income; ex_groceries nan; with_amount nan ex_rice])
    by (vm_compute; reflexivity).
  split; [|split; [exact ex_start_ok|split; [|split; [exact E|split]]]].
  - intros p Hp Hc. unfold ex_start in Hp. in_cases; vm_compute in Hc |- *;
      first [reflexivity|now elim Hc].
  - unfold offered.
    replace (transactionsWithSubItems calendar_getTime ex_start)
      with (Some [with_subItems (Some []) (ex_groceries 0);
                  with_subItems (Some []) ex_income]) by (vm_compute; reflexivity).
    split.
    + intros t Ht. unfold ex_start in Ht. in_cases; split; discriminate.
    + exists (with_subItems (Some []) (ex_groceries 0)). split; [now left|reflexivity].
  - rewrite E. intros H. specialize (H (ex_groceries nan)).
    assert (F : false = true).
    { apply H; [right; left; reflexivity|vm_compute; discriminate]. }
    discriminate F.
  - rewrite E. intros p Hp Hc. in_cases; vm_compute in Hc |- *;
      first [reflexivity|now elim Hc].
Qed.

(** The save handler itself writes whatever amount it is given: the
    guard on a parent's amount is the form's. *)
Lemma handler_overwrites_parent_amount :
  ~ parent_sum
      (handleSaveTransaction (Some (ex_groceries 75)) 0
         {| d_description := "Groceries"; d_amount := 99;
            d_date := "2024-01-10T00:00:00.000Z"; d_type := EXPENSE;
            d_category := "Supermercado"; d_parentId := None; d_notes := None |}
         ex_ledger).
Proof.
  intros H. specialize (H (ex_groceries 99)).
  assert (E : false = true).
  { apply H; [vm_compute; right; left; reflexivity|vm_compute; discriminate]. }
  discriminate E.
Qed.

(** The tree of a ledger of depth 3: the builder nests as deep as
    the parentId links go. *)
Example deep_tree :
  transactionsWithSubItems calendar_getTime ex_deep
  = Some [ with_subItems
             (Some [ with_subItems (Some []) ex_milk;
                     with_subItems (Some [with_subItems (Some []) ex_basmati])
                                   (with_amount 5 ex_rice) ])
             (ex_groceries 50);
           with_subItems (Some []) ex_income ].
Proof. vm_compute. reflexivity. Qed.

(** The depth bound is needed even for the operations the page
    offers: in a ledger of depth 3 that satisfies the parent-sum
    invariant, the card list shows "Basmati"; its deletion re-derives
    "Rice" to 0 and leaves "Groceries" at 50, which is no longer the
    sum 0 + 45 of its children. *)
Example deep_delete_breaks_parent_sum :
  valid_ids ex_deep /\ parent_sum ex_deep
  /\ offered calendar_getTime ex_deep (DeleteTransaction (id ex_basmati))
  /\ ~ parent_sum (perform calendar_toISOString (DeleteTransaction (id ex_basmati)) ex_deep).
Proof.
  split; [|split; [|split]].
  - split; [unfold unique_ids; by_computation|].
    intros t Ht. unfold ex_deep in Ht. in_cases; discriminate.
  - intros p Hp Hc. unfold ex_deep in Hp. in_cases; vm_compute in Hc |- *;
      first [reflexivity|now elim Hc].
  - unfold offered. rewrite deep_tree.
    exists (with_subItems (Some []) ex_basmati). split; [|reflexivity].
    simpl. do 3 right. left. reflexivity.
  - intros H. specialize (H (ex_groceries 50)).
    assert (E : false = true).
    { apply H; [vm_compute; right; left; reflexivity|vm_compute; discriminate]. }
    discriminate E.
Qed.


Lemma edit_keeps_parent_amount_witness :
  exists t,
    In t ex_ledger /\ id t = id ex_groceries_row /\ amount t = amount ex_groceries_row
    /\ (exists t', In t' (perform calendar_toISOString
                            (EditTransaction ex_groceries_row
                               (ex_form "Groceries" 99 "2024-01-10" "")) ex_ledger)
                   /\ id t' = id ex_groceries_row)
    /\ forall t', In t' (perform calendar_toISOString
                           (EditTransaction ex_groceries_row
                              (ex_form "Groceries" 99 "2024-01-10" "")) ex_ledger) ->
                  id t' = id ex_groceries_row ->
                  amount t' = amount t
                  /\ (amount t = sum_amounts (childrenOf (id t) ex_ledger) ->
                      amount t'
                      = sum_amounts
                          (childrenOf (id ex_groceries_row)
                             (perform calendar_toISOString
                                (EditTransaction ex_groceries_row
                                   (ex_form "Groceries" 99 "2024-01-10" "")) ex_ledger)))
                  /\ (number_eq (amount t) (sum_amounts (childrenOf (id t) ex_ledger))
                      = true ->
                      number_eq (amount t')
                        (sum_amounts
                           (childrenOf (id ex_groceries_row)
                              (perform calendar_toISOString
                                 (EditTransaction ex_groceries_row
                                    (ex_form "Groceries" 99 "2024-01-10" "")) ex_ledger)))
                      = true).
Proof.
  apply (edit_keeps_parent_amount calendar_toISOString calendar_getTime ex_ledger
           [ex_groceries_row; with_subItems (Some []) ex_income]
           ex_groceries_row (ex_form "Groceries" 99 "2024-01-10" "")).
  - exact ex_ledger_valid_ids.
  - vm_compute. reflexivity.
  - simpl. left. reflexivity.
  - vm_compute. discriminate.
Defined.

Example edit_keeps_75 :
  perform calendar_toISOString
    (EditTransaction ex_groceries_row (ex_form "Food" 99 "2024-01-09" "")) ex_ledger
  = [ ex_income;
      {| id := "trans1704844800000"; description := "Food"; amount := 75;
         date := "2024-01-09T00:00:00.000Z"; type := EXPENSE; category := "Supermercado";
         parentId := None; subItems := None; notes := None |};
      ex_rice; ex_milk ].
Proof. vm_compute. reflexivity. Qed.

(** ** Tree builder: what fails, what holds *)

Lemma ex_ledger_ordinary : ordinary_keys ex_ledger.
Proof.
  intros t Ht. unfold ex_ledger in Ht.
  in_cases; (split; [discriminate|]); intros p E; try discriminate E;
    injection E as <-; simpl; intuition discriminate.
Defined.

Lemma ex_orphans_ordinary : ordinary_keys ex_orphans.
Proof.
  intros t Ht. unfold ex_orphans in Ht.
  in_cases; (split; [discriminate|]); intros p E; try discriminate E;
    injection E as <-; simpl; intuition discriminate.
Defined.

(** C8 as stated fails: the orphan is a root, but the object pushed
    on the roots is the one the later records are attached to, so its
    subItems list holds the record that names it and is not empty. *)
Lemma orphan_root_has_sub_items :
  In ex_orphan ex_orphans
  /\ (forall u, In u ex_orphans -> parentId ex_orphan <> Some (id u))
  /\ transactionsWithSubItems calendar_getTime ex_orphans
     = Some [with_subItems (Some [with_subItems (Some []) ex_orphan_child]) ex_orphan]
  /\ ~ (exists roots r,
          transactionsWithSubItems calendar_getTime ex_orphans = Some roots
          /\ In r roots /\ erase r = erase ex_orphan /\ subItems r = Some []).
Proof.
  assert (E : transactionsWithSubItems calendar_getTime ex_orphans
              = Some [with_subItems (Some [with_subItems (Some []) ex_orphan_child])
                                    ex_orphan])
    by (vm_compute; reflexivity).
  split; [now left|]. split; [|split; [exact E|]].
  - intros u Hu. unfold ex_orphans in Hu. in_cases; discriminate.
  - intros (roots & r & Hroots & Hr & _ & Hs).
    rewrite E in Hroots. injection Hroots as <-. in_cases. discriminate Hs.
Qed.

(** A dangling parentId that is the name of a member of
    [Object.prototype] is not tolerated: the lookup finds the
    inherited function, which has no subItems, and the push raises. *)
Example inherited_parentId_raises :
  transactionsWithSubItems calendar_getTime
    [ {| id := "trans1706000000000"; description := "Orphan"; amount := 7;
         date := "2024-01-20T00:00:00.000Z"; type := EXPENSE; category := "Lazer";
         parentId := Some "constructor"; subItems := None; notes := None |} ]
  = None.
Proof. vm_compute. reflexivity. Qed.

(** With a shared id the object of the last record stands for both:
    the first record is not in the tree. *)
Example twins_tree :
  transactionsWithSubItems calendar_getTime ex_twins
  = Some [ with_subItems (Some []) (with_amount 2 (ex_groceries 0));
           with_subItems (Some []) (with_amount 2 (ex_groceries 0)) ].
Proof. vm_compute. reflexivity. Qed.

Lemma orphan_is_root_witness :
  exists roots r items,
    transactionsWithSubItems calendar_getTime ex_orphans = Some roots
    /\ In r roots
    /\ erase r = erase ex_orphan
    /\ subItems r = Some items
    /\ Permutation (List.map erase items)
                   (List.map erase (attachedTo (id ex_orphan) ex_orphans))
    /\ (items = [] <-> attachedTo (id ex_orphan) ex_orphans = []).
Proof.
  apply (orphan_is_root calendar_getTime ex_orphans ex_orphan).
  - unfold unique_ids. by_computation.
  - exact ex_orphans_ordinary.
  - now left.
  - intros u Hu. unfold ex_orphans in Hu. in_cases; discriminate.
Defined.

(** C9 as stated fails: a record that names itself as parent is
    attached to its own object and pushed on no root; the returned
    tree is empty and the record is dropped. *)
Lemma self_parent_is_dropped :
  transactionsWithSubItems calendar_getTime [ex_self_parent] = Some []
  /\ ~ (exists roots,
          transactionsWithSubItems calendar_getTime [ex_self_parent] = Some roots
          /\ Permutation (List.map erase (flat_map flatten roots))
                         (List.map erase [ex_self_parent])).
Proof.
  assert (E : transactionsWithSubItems calendar_getTime [ex_self_parent] = Some [])
    by (vm_compute; reflexivity).
  split; [exact E|]. intros (roots & Hroots & H).
  rewrite E in Hroots. injection Hroots as <-. simpl in H. now apply Permutation_nil in H.
Qed.

Lemma tree_keeps_records_witness :
  exists roots,
    transactionsWithSubItems calendar_getTime ex_ledger = Some roots
    /\ Permutation (List.map erase (flat_map flatten roots)) (List.map erase ex_ledger).
Proof.
  apply (tree_keeps_records calendar_getTime ex_ledger).
  - exact (proj1 ex_ledger_valid_ids).
  - exact ex_ledger_ordinary.
  - intros t Ht. unfold ex_ledger in Ht.
    in_cases; [exists 0%nat|exists 0%nat|exists 1%nat|exists 1%nat]; vm_compute; reflexivity.
Defined.

Example scenario_tree :
  transactionsWithSubItems calendar_getTime ex_ledger
  = Some [ ex_groceries_row; with_subItems (Some []) ex_income ].
Proof. vm_compute. reflexivity. Qed.

(** ** Validation in the form (C7) *)

Section FormFacts.

Variable Date_toISOString : string -> option string.

Lemma truthy_string_empty (s : string) : truthy_string s = false <-> s = "".
Proof.
  unfold truthy_string. destruct (String.eqb_spec s ""); simpl; split; intros; congruence.
Qed.

(** C7, amended. A Create or Update submitted through the form with
    an empty description, an amount that was never entered (the [''] with
    which the form for a new record opens), an empty date or an empty
    category is not submitted: nothing is called and no error value
    is produced.  One whose date cannot be converted raises before
    the save handler is called.  In each case the record set is left
    unchanged.  The amount itself is not checked: a complete form
    that is not the edit of a parent is saved with the amount as it
    stands, whatever number it is, a negative one and the [NaN] of a
    cleared or non-numeric field included. *)
Theorem form_validation (form : FormState) (editingTransaction : option Transaction)
    (parentIdProp : option string) (now : N) (prev : list Transaction) :
  ((f_description form = "" \/ f_amount form = None \/ f_date form = ""
    \/ f_category form = "") ->
   handleSubmit Date_toISOString form editingTransaction parentIdProp = NotSubmitted
   /\ submit Date_toISOString form editingTransaction parentIdProp now prev = prev)
  /\ (Date_toISOString (f_date form) = None ->
      (handleSubmit Date_toISOString form editingTransaction parentIdProp = NotSubmitted
       \/ handleSubmit Date_toISOString form editingTransaction parentIdProp = Threw)
      /\ submit Date_toISOString form editingTransaction parentIdProp now prev = prev)
  /\ (forall entered iso,
        f_description form <> "" -> f_amount form = Some entered ->
        f_date form <> "" -> f_category form <> "" ->
        Date_toISOString (f_date form) = Some iso ->
        hasSubItems editingTransaction = false ->
        exists payload,
          handleSubmit Date_toISOString form editingTransaction parentIdProp = Saved payload
          /\ d_amount payload = entered
          /\ submit Date_toISOString form editingTransaction parentIdProp now prev
             = handleSaveTransaction editingTransaction now payload prev).
Proof.
  split; [|split].
  - intros H.
    assert (E : handleSubmit Date_toISOString form editingTransaction parentIdProp
                = NotSubmitted).
    { unfold handleSubmit. destruct (f_amount form) as [entered|]; [|reflexivity].
      destruct H as [H|[H|[H|H]]]; try discriminate;
        apply truthy_string_empty in H; rewrite H; simpl;
        rewrite ?andb_false_r; reflexivity. }
    split; [exact E|]. unfold submit. now rewrite E.
  - intros H.
    assert (E : handleSubmit Date_toISOString form editingTransaction parentIdProp
                = NotSubmitted
                \/ handleSubmit Date_toISOString form editingTransaction parentIdProp
                   = Threw).
    { unfold handleSubmit. destruct (f_amount form); [|now left].
      destruct (_ && _); [|now left]. rewrite H. now right. }
    split; [exact E|]. unfold submit. now destruct E as [-> | ->].
  - intros entered iso Hd Ha Hdate Hc Hiso Hs. unfold submit, handleSubmit. rewrite Ha.
    assert (T : forall s, s <> "" -> truthy_string s = true) by apply truthy_Some.
    rewrite !T by assumption. simpl. rewrite Hiso, Hs.
    eexists. split; [reflexivity|]. split; [|reflexivity].
    simpl. now destruct editingTransaction.
Qed.

End FormFacts.

(** C7 as stated fails: a negative amount is not rejected; the form
    sends it and the save handler appends the record. *)
Lemma negative_amount_is_saved :
  f_amount ex_negative_form = Some (-5)%float
  /\ submit calendar_toISOString ex_negative_form None None 1705276800000 ex_ledger
     = ex_ledger
       ++ [ {| id := "trans1705276800000"; description := "Refund"; amount := -5;
               date := "2024-01-15T00:00:00.000Z"; type := EXPENSE;
               category := "Supermercado"; parentId := None; subItems := None;
               notes := None |} ]
  /\ submit calendar_toISOString ex_negative_form None None 1705276800000 ex_ledger
     <> ex_ledger.
Proof.
  split; [reflexivity|].
  assert (E : submit calendar_toISOString ex_negative_form None None 1705276800000 ex_ledger
              = ex_ledger
                ++ [ {| id := "trans1705276800000"; description := "Refund"; amount := -5;
                        date := "2024-01-15T00:00:00.000Z"; type := EXPENSE;
                        category := "Supermercado"; parentId := None; subItems := None;
                        notes := None |} ]) by (vm_compute; reflexivity).
  split; [exact E|]. rewrite E. intros H.
  apply (f_equal (@length Transaction)) in H. vm_compute in H. discriminate H.
Qed.

(** Nor is an amount that is no number: the [NaN] of a cleared field
    passes [amount !== ''] and the record is appended with it. *)
Example cleared_amount_is_saved :
  f_amount ex_cleared_form = Some nan
  /\ submit calendar_toISOString ex_cleared_form None None 1705276800000 ex_ledger
     = ex_ledger
       ++ [ {| id := "trans1705276800000"; description := "Refund"; amount := nan;
               date := "2024-01-15T00:00:00.000Z"; type := EXPENSE;
               category := "Supermercado"; parentId := None; subItems := None;
               notes := None |} ].
Proof. split; [reflexivity|]. vm_compute. reflexivity. Qed.

(** The four ways in which the form leaves the record set alone, on
    forms with no description, with an amount never entered, with no
    date and with a date that is none; and a cleared amount field,
    which is saved. *)
Lemma form_validation_witness :
  (handleSubmit calendar_toISOString ex_blank_form None None = NotSubmitted
   /\ submit calendar_toISOString ex_blank_form None None 1705276800000 ex_ledger = ex_ledger)
  /\ (handleSubmit calendar_toISOString ex_untouched_form None None = NotSubmitted
      /\ submit calendar_toISOString ex_untouched_form None None 1705276800000 ex_ledger
         = ex_ledger)
  /\ (handleSubmit calendar_toISOString (ex_form "Refund" 5 "" "") None None = NotSubmitted
      /\ submit calendar_toISOString (ex_form "Refund" 5 "" "") None None
           1705276800000 ex_ledger = ex_ledger)
  /\ ((handleSubmit calendar_toISOString (ex_form "Refund" 5 "2024-13-45" "") None None
       = NotSubmitted
       \/ handleSubmit calendar_toISOString (ex_form "Refund" 5 "2024-13-45" "") None None
          = Threw)
      /\ submit calendar_toISOString (ex_form "Refund" 5 "2024-13-45" "") None None
           1705276800000 ex_ledger = ex_ledger)
  /\ (exists payload,
        handleSubmit calendar_toISOString ex_cleared_form None None = Saved payload
        /\ d_amount payload = nan
        /\ submit calendar_toISOString ex_cleared_form None None 1705276800000 ex_ledger
           = handleSaveTransaction None 1705276800000 payload ex_ledger).
Proof.
  split; [|split; [|split; [|split]]].
  - apply (proj1 (form_validation calendar_toISOString ex_blank_form None None
                    1705276800000 ex_ledger)).
    left. reflexivity.
  - apply (proj1 (form_validation calendar_toISOString ex_untouched_form None None
                    1705276800000 ex_ledger)).
    right. left. reflexivity.
  - apply (proj1 (form_validation calendar_toISOString (ex_form "Refund" 5 "" "") None None
                    1705276800000 ex_ledger)).
    right. right. left. reflexivity.
  - apply (proj1 (proj2 (form_validation calendar_toISOString
                           (ex_form "Refund" 5 "2024-13-45" "") None None
                           1705276800000 ex_ledger))).
    reflexivity.
  - apply (proj2 (proj2 (form_validation calendar_toISOString ex_cleared_form None None
                           1705276800000 ex_ledger)) nan "2024-01-15T00:00:00.000Z");
      first [discriminate|reflexivity].
Defined.

(** ** Category deletion guard (C5) *)

Lemma find_category (cs : list Category) (c : Category) :
  NoDup (List.map cat_id cs) -> In c cs ->
  List.find (fun x => String.eqb (cat_id x) (cat_id c)) cs = Some c
  /\ Permutation cs (c :: List.filter (fun x => negb (String.eqb (cat_id x) (cat_id c))) cs).
Proof.
  induction cs as [|x cs IH]; simpl; intros Hnd Hc; [contradiction|].
  apply NoDup_cons in Hnd. destruct Hnd as [Hx Hnd]. rewrite list_elem_of_In in Hx.
  destruct Hc as [->|Hc].
  - rewrite String.eqb_refl. split; [reflexivity|]. simpl. constructor.
    rewrite forallb_filter_id; [reflexivity|].
    apply forallb_forall. intros y Hy. apply negb_true_iff.
    destruct (String.eqb_spec (cat_id y) (cat_id c)) as [E|]; [|reflexivity].
    elim Hx. rewrite <- E. now apply in_map.
  - destruct (String.eqb_spec (cat_id x) (cat_id c)) as [E|E].
    + elim Hx. rewrite E. now apply in_map.
    + destruct (IH Hnd Hc) as [F P]. split; [exact F|]. simpl.
      rewrite P at 1. apply perm_swap.
Qed.

(** When the category ids are pairwise distinct the guard works as
    C5 says: a category whose name is on a record is kept, with one
    alert, and nothing changes; an unused category is removed, alone. *)
Lemma category_guard (d : UserData) (c : Category) :
  NoDup (List.map cat_id (categories d)) -> In c (categories d) ->
  ((exists t, In t (transactions d) /\ category t = cat_name c) ->
   alerts (deleteCategory (cat_id c) (idle d)) = 1%nat
   /\ userData (deleteCategory (cat_id c) (idle d)) = d)
  /\ (existsb (uses_category (cat_name c)) (transactions d) = false ->
      alerts (deleteCategory (cat_id c) (idle d)) = 0%nat
      /\ transactions (userData (deleteCategory (cat_id c) (idle d))) = transactions d
      /\ Permutation (categories d)
                     (c :: categories (userData (deleteCategory (cat_id c) (idle d))))).
Proof.
  intros Hnd Hc. destruct (find_category (categories d) c Hnd Hc) as [F P].
  unfold deleteCategory, handleDeleteCategoryRequest. simpl. rewrite F. split.
  - intros (t & Ht & E).
    assert (U : existsb (uses_category (cat_name c)) (transactions d) = true).
    { apply existsb_exists. exists t. split; [assumption|]. unfold uses_category.
      rewrite E, String.eqb_refl. reflexivity. }
    rewrite U. simpl. auto.
  - intros U. rewrite U. simpl. auto.
Qed.

Lemma ex_reloaded_eq (String_trim : string -> string) :
  String_trim "Mercado" = "Mercado" ->
  ex_reloaded String_trim
  = {| transactions := [ex_groceries 75; ex_rice; ex_milk];
       categories :=
         [ {| cat_id := "cat1"; cat_name := "Mercado"; cat_icon := Some "shopping_cart" |};
           {| cat_id := "cat2"; cat_name := "Contas de Casa"; cat_icon := Some "home" |};
           {| cat_id := "cat3"; cat_name := "Aluguel"; cat_icon := Some "key" |};
           {| cat_id := "cat4"; cat_name := "Salário"; cat_icon := Some "currency_dollar" |};
           {| cat_id := "cat5"; cat_name := "Lazer"; cat_icon := Some "puzzle_piece" |};
           {| cat_id := "cat1"; cat_name := "Supermercado";
              cat_icon := Some "shopping_cart" |} ];
       currency := "BRL"; chatHistory := []; theme := galaxy |}.
Proof.
  intros H. unfold ex_reloaded, ex_renamed, handleUpdateCategory. cbn [cat_name].
  rewrite H. vm_compute. reflexivity.
Qed.

(** The load effect does produce two categories with one id. *)
Example reloaded_categories :
  List.map (fun c => (cat_id c, cat_name c)) (categories (ex_reloaded trim))
  = [ ("cat1", "Mercado"); ("cat2", "Contas de Casa"); ("cat3", "Aluguel");
      ("cat4", "Salário"); ("cat5", "Lazer"); ("cat1", "Supermercado") ].
Proof. vm_compute. reflexivity. Qed.

(** C5 fails on the code: after the rename and the reload the
    category "Supermercado" is on three records, yet a click on its
    delete button raises no alert and, once confirmed, removes it
    together with "Mercado": the request looks the id up, finds the
    first category carrying it ("Mercado", unused), and the
    confirmation filters by id.  This holds with every [trim] of the
    host that leaves "Mercado" as it is. *)
Theorem category_guard_bypassed (String_trim : string -> string) :
  String_trim "Mercado" = "Mercado" ->
  In {| cat_id := "cat1"; cat_name := "Supermercado"; cat_icon := Some "shopping_cart" |}
     (categories (ex_reloaded String_trim))
  /\ (exists t, In t (transactions (ex_reloaded String_trim))
                /\ category t = "Supermercado")
  /\ alerts (deleteCategory "cat1" (idle (ex_reloaded String_trim))) = 0%nat
  /\ List.map cat_name
       (categories (userData (deleteCategory "cat1" (idle (ex_reloaded String_trim)))))
     = ["Contas de Casa"; "Aluguel"; "Salário"; "Lazer"]
  /\ transactions (userData (deleteCategory "cat1" (idle (ex_reloaded String_trim))))
     = transactions (ex_reloaded String_trim).
Proof.
  intros H. rewrite (ex_reloaded_eq String_trim H).
  split; [do 5 right; left; reflexivity|].
  split; [exists (ex_groceries 75); split; [now left|reflexivity]|].
  split; [vm_compute; reflexivity|]. split; vm_compute; reflexivity.
Qed.

Lemma category_guard_bypassed_witness :
  In {| cat_id := "cat1"; cat_name := "Supermercado"; cat_icon := Some "shopping_cart" |}
     (categories (ex_reloaded trim))
  /\ (exists t, In t (transactions (ex_reloaded trim)) /\ category t = "Supermercado")
  /\ alerts (deleteCategory "cat1" (idle (ex_reloaded trim))) = 0%nat
  /\ List.map cat_name
       (categories (userData (deleteCategory "cat1" (idle (ex_reloaded trim)))))
     = ["Contas de Casa"; "Aluguel"; "Salário"; "Lazer"]
  /\ transactions (userData (deleteCategory "cat1" (idle (ex_reloaded trim))))
     = transactions (ex_reloaded trim).
Proof. apply (category_guard_bypassed trim). reflexivity. Defined.

(** * Further properties of the code *)

(** ** The available-month index *)

Lemma Set_add_In (months : list string) (m x : string) :
  In x (Set_add months m) <-> In x months \/ x = m.
Proof.
  unfold Set_add. destruct (existsb (String.eqb m) months) eqn:E.
  - split; [now left|]. intros [H| ->]; [assumption|].
    apply existsb_exists in E. destruct E as (y & Hy & E).
    apply String.eqb_eq in E. now subst.
  - rewrite in_app_iff. simpl. intuition.
Qed.

Lemma Set_add_NoDup (months : list string) (m : string) :
  NoDup months -> NoDup (Set_add months m).
Proof.
  intros H. unfold Set_add. destruct (existsb (String.eqb m) months) eqn:E; [assumption|].
  apply NoDup_app. split; [assumption|]. split.
  - intros x Hx Hm. apply list_elem_of_In in Hx. apply list_elem_of_singleton in Hm. subst x.
    assert (T : existsb (String.eqb m) months = true); [|congruence].
    apply existsb_exists. exists m. split; [assumption|apply String.eqb_refl].
  - apply NoDup_singleton.
Qed.

Lemma months_fold (f : Transaction -> string) (l : list Transaction) (acc : list string) :
  (forall x, In x (fold_left (fun months t => Set_add months (f t)) l acc)
             <-> In x acc \/ exists t, In t l /\ x = f t)
  /\ (NoDup acc -> NoDup (fold_left (fun months t => Set_add months (f t)) l acc)).
Proof.
  revert acc. induction l as [|t l IH]; intros acc; simpl.
  - split; [|auto]. intros x. split; [now left|]. now intros [H|(t & [] & _)].
  - destruct (IH (Set_add acc (f t))) as [H1 H2]. split.
    + intros x. rewrite H1, Set_add_In. split.
      * intros [[H| ->]|(u & Hu & ->)]; eauto 6.
      * intros [H|(u & [<-|Hu] & ->)]; eauto 6.
    + intros Hnd. apply H2. now apply Set_add_NoDup.
Qed.

Lemma insert_string_perm (s : string) (l : list string) :
  Permutation (insert_string s l) (s :: l).
Proof.
  induction l as [|y l IH]; simpl; [reflexivity|].
  destruct (String.leb y s); [|reflexivity]. rewrite IH. apply perm_swap.
Qed.

Lemma insert_string_sorted (s : string) (l : list string) :
  Sorted (fun a b => String.leb a b = true) l ->
  Sorted (fun a b => String.leb a b = true) (insert_string s l).
Proof.
  induction l as [|y l IH]; intros H; simpl; [repeat constructor|].
  apply Sorted_inv in H. destruct H as [Hs Hhd].
  destruct (String.leb y s) eqn:E.
  - constructor; [now apply IH|].
    destruct l as [|z l]; simpl; [now constructor|].
    apply HdRel_inv in Hhd. destruct (String.leb z s); now constructor.
  - constructor; [now constructor|]. constructor.
    destruct (String.leb_total s y) as [H|H]; [assumption|congruence].
Qed.

Lemma sort_strings_spec (l : list string) :
  Permutation (sort_strings l) l
  /\ Sorted (fun a b => String.leb a b = true) (sort_strings l).
Proof.
  unfold sort_strings.
  assert (G : forall acc, Sorted (fun a b => String.leb a b = true) acc ->
                Permutation (fold_left (fun acc s => insert_string s acc) l acc) (acc ++ l)
                /\ Sorted (fun a b => String.leb a b = true)
                          (fold_left (fun acc s => insert_string s acc) l acc)).
  { induction l as [|x l IH]; intros acc Hacc; simpl.
    - now rewrite app_nil_r.
    - destruct (IH (insert_string x acc) (insert_string_sorted x acc Hacc)) as [P S].
      split; [|exact S]. rewrite P, insert_string_perm. simpl. apply Permutation_middle. }
  apply (G []). constructor.
Qed.

Lemma sorted_snoc {A : Type} (R : A -> A -> Prop) (l : list A) (x : A) :
  Sorted R l -> (forall y, List.last l x = y -> l <> [] -> R y x) -> Sorted R (l ++ [x]).
Proof.
  induction l as [|a l IH]; intros Hs Hlast; simpl; [repeat constructor|].
  apply Sorted_inv in Hs. destruct Hs as [Hs Hhd]. constructor.
  - apply IH; [assumption|]. intros y Hy Hne. apply Hlast; [|discriminate].
    destruct l; [now elim Hne|exact Hy].
  - destruct l as [|b l]; simpl.
    + constructor. apply Hlast; [reflexivity|discriminate].
    + apply HdRel_inv in Hhd. now constructor.
Qed.

Lemma sorted_rev {A : Type} (R : A -> A -> Prop) (l : list A) :
  Sorted R l -> Sorted (fun a b => R b a) (rev l).
Proof.
  induction l as [|a l IH]; intros Hs; simpl; [constructor|].
  apply Sorted_inv in Hs. destruct Hs as [Hs Hhd].
  apply sorted_snoc; [now apply IH|].
  intros y Hy Hne. destruct l as [|b l]; [now elim Hne|].
  apply HdRel_inv in Hhd. simpl in Hy.
  rewrite List.last_last in Hy. now subst y.
Qed.

Lemma sorted_strict (l : list string) :
  NoDup l -> Sorted (fun a b => String.leb b a = true) l ->
  Sorted (fun a b => String.ltb b a = true) l.
Proof.
  induction l as [|a l IH]; intros Hnd Hs; [constructor|].
  apply NoDup_cons in Hnd. destruct Hnd as [Ha Hnd]. rewrite list_elem_of_In in Ha.
  apply Sorted_inv in Hs. destruct Hs as [Hs Hhd].
  constructor; [now apply IH|].
  destruct l as [|b l]; constructor. apply HdRel_inv in Hhd.
  unfold String.leb in Hhd. unfold String.ltb.
  destruct (String.compare b a) eqn:C; try reflexivity; try discriminate.
  apply String.compare_eq_iff in C. subst b. elim Ha. now left.
Qed.

Lemma availableMonths_members (l : list Transaction) :
  (forall M, In M (availableMonths l)
             <-> exists t, In t l /\ M = String.substring 0 7 (date t))
  /\ NoDup (availableMonths l).
Proof.
  unfold availableMonths.
  set (months := fold_left (fun months t => Set_add months (String.substring 0 7 (date t))) l []).
  destruct (months_fold (fun t => String.substring 0 7 (date t)) l []) as [Hin Hnd].
  fold months in Hin, Hnd.
  destruct (sort_strings_spec months) as [P _]. split.
  - intros M. rewrite <- in_rev. split.
    + intros H. apply (Permutation_in _ P) in H. apply Hin in H. now destruct H as [[]|H].
    + intros H. apply (Permutation_in _ (Permutation_sym P)). apply Hin. now right.
  - rewrite <- Permutation_rev, P. apply Hnd. constructor.
Qed.

(** The month index lists exactly the months of the records (the
    first seven code units of each date), each once, in descending
    order. *)
Theorem availableMonths_spec (l : list Transaction) :
  (forall M, In M (availableMonths l)
             <-> exists t, In t l /\ M = String.substring 0 7 (date t))
  /\ NoDup (availableMonths l)
  /\ Sorted (fun a b => String.ltb b a = true) (availableMonths l).
Proof.
  destruct (availableMonths_members l) as [Hin Hnd].
  split; [exact Hin|]. split; [exact Hnd|].
  apply sorted_strict; [exact Hnd|].
  unfold availableMonths. apply sorted_rev. apply sort_strings_spec.
Qed.

(** ** Deleting twice, deleting what is not there *)

Lemma rederive_fields (p : string) (l : list Transaction) :
  List.map erase_amount (rederive p l) = List.map erase_amount l.
Proof.
  unfold rederive. rewrite map_map. apply map_ext. intros t.
  now destruct (String.eqb (id t) p).
Qed.

Lemma erase_amount_id (l l' : list Transaction) :
  List.map erase_amount l = List.map erase_amount l' -> List.map id l = List.map id l'.
Proof.
  intros H. apply (f_equal (List.map id)) in H. now rewrite !map_map in H.
Qed.

Lemma rederive_id (p : string) (l : list Transaction) :
  List.map id (rederive p l) = List.map id l.
Proof. apply erase_amount_id, rederive_fields. Qed.

Lemma rederive_member (p : string) (l : list Transaction) (u : Transaction) :
  In u (rederive p l) -> exists t, In t l /\ id u = id t /\ parentId u = parentId t.
Proof.
  unfold rederive. rewrite in_map_iff. intros (t & <- & Ht). exists t.
  split; [assumption|]. now destruct (String.eqb (id t) p).
Qed.

Lemma find_absent (i : string) (l : list Transaction) :
  ~ In i (List.map id l) -> List.find (fun t => String.eqb (id t) i) l = None.
Proof.
  intros H. destruct (List.find _ l) as [t|] eqn:F; [|reflexivity].
  apply find_some in F. destruct F as [Ht E]. apply String.eqb_eq in E.
  elim H. rewrite <- E. now apply in_map.
Qed.

Lemma delete_member (i : string) (l : list Transaction) (u : Transaction) :
  In i (List.map id l) -> In u (confirmDeleteTransaction i l) ->
  id u <> i /\ parentId u <> Some i.
Proof.
  intros Hi Hu. unfold confirmDeleteTransaction in Hu.
  destruct (List.find (fun t => String.eqb (id t) i) l) as [x|] eqn:F.
  - assert (G : exists t, In t (List.filter
                (fun t => negb (bool_decide
                   (id t ∈ (list_to_set (i :: List.map id (childrenOf i l)) : gset string)))) l)
              /\ id u = id t /\ parentId u = parentId t).
    { destruct (parentId x) as [p|]; [destruct (truthy_string p)|]; eauto.
      now apply rederive_member in Hu. }
    destruct G as (t & Ht & -> & ->). apply filter_In in Ht. destruct Ht as [Ht K].
    apply negb_true_iff, bool_decide_eq_false in K.
    rewrite elem_of_list_to_set, elem_of_cons, list_elem_of_In in K. split.
    + intros E. apply K. now left.
    + intros E. apply K. right. apply in_map. now apply childrenOf_In.
  - apply in_map_iff in Hi. destruct Hi as (t & <- & Ht).
    apply (find_none _ _ F) in Ht. now rewrite String.eqb_refl in Ht.
Qed.

(** After the deletion of an id that some record carries, no record
    carries that id and no record names it as its parent. *)
Theorem delete_leaves_no_reference (i : string) (l : list Transaction) :
  In i (List.map id l) ->
  forall u, In u (confirmDeleteTransaction i l) -> id u <> i /\ parentId u <> Some i.
Proof. intros Hi u Hu. now apply (delete_member i l). Qed.

(** Deleting an id that no record carries changes nothing, and a
    deletion repeated changes nothing more. *)
Theorem delete_idempotent (i : string) (l : list Transaction) :
  (~ In i (List.map id l) -> confirmDeleteTransaction i l = l)
  /\ confirmDeleteTransaction i (confirmDeleteTransaction i l) = confirmDeleteTransaction i l.
Proof.
  assert (H : forall l', ~ In i (List.map id l') -> confirmDeleteTransaction i l' = l').
  { intros l' Hl'. unfold confirmDeleteTransaction. now rewrite find_absent. }
  split; [apply H|].
  destruct (in_dec String.string_dec i (List.map id l)) as [Hi|Hi].
  - apply H. intros Hin. apply in_map_iff in Hin. destruct Hin as (u & E & Hu).
    now destruct (delete_member i l u Hi Hu).
  - now rewrite !(H l Hi).
Qed.

(** ** Ids *)

Lemma append_inj (p x y : string) : String.append p x = String.append p y -> x = y.
Proof. induction p as [|c p IH]; simpl; intros E; [exact E|]. injection E as E. auto. Qed.

(** Ids generated at different instants are different. *)
Theorem trans_id_inj (a b : N) : trans_id a = trans_id b -> a = b.
Proof.
  unfold trans_id. intros E. apply append_inj in E.
  apply DecimalN.Unsigned.to_uint_inj.
  pose proof (NilEmpty.usu (N.to_uint a)) as Ha.
  rewrite E, NilEmpty.usu in Ha. congruence.
Qed.

Lemma save_new_ids (now : N) (d : TransactionData) (prev : list Transaction) :
  List.map id (handleSaveTransaction None now d prev) = List.map id prev ++ [trans_id now].
Proof.
  unfold handleSaveTransaction.
  assert (E : List.map id (prev ++ [newTransaction now d]) = List.map id prev ++ [trans_id now])
    by now rewrite map_app.
  destruct (d_parentId d) as [p|]; [destruct (truthy_string p)|]; try exact E.
  now rewrite rederive_id.
Qed.

(** A new record keeps the ids of a set pairwise distinct exactly
    when the id generated for it is carried by no record yet. *)
Theorem create_unique_ids (now : N) (d : TransactionData) (prev : list Transaction) :
  unique_ids prev ->
  (unique_ids (handleSaveTransaction None now d prev)
   <-> ~ In (trans_id now) (List.map id prev)).
Proof.
  intros Hnd. unfold unique_ids. rewrite save_new_ids, NoDup_app. split.
  - intros (_ & H & _) Hin. apply (H (trans_id now)); [now apply list_elem_of_In|].
    now apply list_elem_of_singleton.
  - intros H. split; [exact Hnd|]. split; [|apply NoDup_singleton].
    intros x Hx Hs. apply list_elem_of_singleton in Hs. subst x.
    now apply list_elem_of_In in Hx.
Qed.

(** ** What an edit does not touch *)

Lemma save_edit_fields (e : Transaction) (now : N) (d : TransactionData)
    (prev : list Transaction) :
  List.map erase_amount (handleSaveTransaction (Some e) now d prev)
  = List.map (fun t => if String.eqb (id t) (id e)
                       then erase_amount (spread_update t d) else erase_amount t) prev.
Proof.
  unfold handleSaveTransaction.
  assert (E : List.map erase_amount
                (List.map (fun t => if String.eqb (id t) (id e)
                                    then spread_update t d else t) prev)
              = List.map (fun t => if String.eqb (id t) (id e)
                                   then erase_amount (spread_update t d)
                                   else erase_amount t) prev).
  { rewrite map_map. apply map_ext. intros t. now destruct (String.eqb (id t) (id e)). }
  destruct (d_parentId d) as [p|]; [destruct (truthy_string p)|]; try exact E.
  now rewrite rederive_fields.
Qed.

(** An edit neither adds, removes nor reorders records and changes no
    id; a record that is neither the edited one nor the parent named
    by the payload stays as it is.  An edit of an id that no record
    carries inserts nothing: at most the named parent's amount is
    re-derived. *)
Theorem edit_frame (e : Transaction) (now : N) (d : TransactionData)
    (prev : list Transaction) :
  List.map id (handleSaveTransaction (Some e) now d prev) = List.map id prev
  /\ (forall t, In t prev -> id t <> id e -> d_parentId d <> Some (id t) ->
        In t (handleSaveTransaction (Some e) now d prev))
  /\ (~ In (id e) (List.map id prev) ->
        List.map erase_amount (handleSaveTransaction (Some e) now d prev)
        = List.map erase_amount prev
        /\ (truthy (d_parentId d) = false ->
            handleSaveTransaction (Some e) now d prev = prev)).
Proof.
  split; [|split].
  - change (List.map id (handleSaveTransaction (Some e) now d prev))
      with (List.map (fun x => id (erase_amount x)) (handleSaveTransaction (Some e) now d prev)).
    rewrite <- (map_map erase_amount id), save_edit_fields, map_map.
    apply map_ext. intros t. now destruct (String.eqb (id t) (id e)).
  - intros t Ht He Hp. unfold handleSaveTransaction.
    assert (H : In t (List.map (fun t => if String.eqb (id t) (id e)
                                         then spread_update t d else t) prev)).
    { apply in_map_iff. exists t. split; [|assumption].
      destruct (String.eqb_spec (id t) (id e)); [contradiction|reflexivity]. }
    destruct (d_parentId d) as [p|]; [destruct (truthy_string p)|]; try exact H.
    unfold rederive. apply in_map_iff. exists t. split; [|exact H].
    destruct (String.eqb_spec (id t) p); [subst p; now elim Hp|reflexivity].
  - intros Habs.
    assert (E : List.map (fun t => if String.eqb (id t) (id e)
                                   then spread_update t d else t) prev = prev).
    { rewrite <- (map_id prev) at 2. apply map_ext_in. intros t Ht.
      destruct (String.eqb_spec (id t) (id e)) as [E|]; [|reflexivity].
      elim Habs. rewrite <- E. now apply in_map. }
    split.
    + rewrite save_edit_fields. apply map_ext_in. intros t Ht.
      destruct (String.eqb_spec (id t) (id e)) as [E'|]; [|reflexivity].
      elim Habs. rewrite <- E'. now apply in_map.
    + intros F. unfold handleSaveTransaction. rewrite E.
      destruct (d_parentId d) as [p|]; [|reflexivity]. simpl in F. now rewrite F.
Qed.

(** ** Months partition the records *)

Lemma substring_length (n : nat) (s : string) :
  (n <= String.length s)%nat -> String.length (String.substring 0 n s) = n.
Proof.
  revert n. induction s as [|c s IH]; intros [|n] H; simpl in *; try reflexivity; try lia.
  f_equal. apply IH. lia.
Qed.

Lemma month_filter_key (l : list Transaction) (M : string) :
  (forall t, In t l -> (7 <= String.length (date t))%nat) ->
  In M (availableMonths l) ->
  filteredTransactions M l
  = List.filter (fun t => String.eqb (String.substring 0 7 (date t)) M) l.
Proof.
  intros Hlen HM. apply In_availableMonths in HM. destruct HM as (t0 & Ht0 & ->).
  pose proof (substring_length 7 (date t0) (Hlen t0 Ht0)) as L.
  unfold filteredTransactions.
  destruct (String.eqb_spec (String.substring 0 7 (date t0)) "all") as [E|_].
  - rewrite E in L. discriminate L.
  - apply filter_ext. intros t. apply eq_true_iff_eq.
    rewrite String.prefix_correct, L, String.eqb_eq. reflexivity.
Qed.

Lemma filter_all {A : Type} (P : A -> bool) (l : list A) :
  (forall x, In x l -> P x = true) -> List.filter P l = l.
Proof.
  induction l as [|x l IH]; intros H; simpl; [reflexivity|].
  rewrite (H x (or_introl eq_refl)). f_equal. apply IH. intros y Hy. apply H. now right.
Qed.

Lemma flat_map_agree {A B : Type} (f g : A -> list B) (l : list A) :
  (forall a, In a l -> f a = g a) -> flat_map f l = flat_map g l.
Proof.
  induction l as [|a l IH]; intros H; simpl; [reflexivity|].
  rewrite (H a (or_introl eq_refl)), IH by (intros b Hb; apply H; now right).
  reflexivity.
Qed.

Lemma partition_by_key {A : Type} (key : A -> string) (ms : list string) (l : list A) :
  NoDup ms ->
  Permutation (flat_map (fun M => List.filter (fun t => String.eqb (key t) M) l) ms)
              (List.filter (fun t => existsb (String.eqb (key t)) ms) l).
Proof.
  induction ms as [|m ms IH]; intros Hnd; simpl.
  - rewrite filter_none; [constructor|reflexivity].
  - apply NoDup_cons in Hnd. destruct Hnd as [Hm Hnd]. rewrite list_elem_of_In in Hm.
    rewrite (IH Hnd). symmetry. apply perm_filter_or.
    intros t _ E. apply String.eqb_eq in E.
    destruct (existsb (String.eqb (key t)) ms) eqn:X; [|reflexivity].
    apply existsb_exists in X. destruct X as (m' & Hm' & E').
    apply String.eqb_eq in E'. elim Hm. congruence.
Qed.

(** When every date has at least seven code units, the months of the
    month selector partition the records: the views of the available
    months, one after the other, hold every record of the set once
    and nothing else, and no record is in the views of two months. *)
Theorem months_partition_records (l : list Transaction) :
  (forall t, In t l -> (7 <= String.length (date t))%nat) ->
  Permutation (flat_map (fun M => filteredTransactions M l) (availableMonths l)) l
  /\ (forall M M' t, In M (availableMonths l) -> In M' (availableMonths l) ->
        In t (filteredTransactions M l) -> In t (filteredTransactions M' l) -> M = M').
Proof.
  intros Hlen. destruct (availableMonths_members l) as [Hmem Hnd]. split.
  - rewrite (flat_map_agree _
               (fun M => List.filter
                           (fun t => String.eqb (String.substring 0 7 (date t)) M) l))
      by (intros M HM; now apply month_filter_key).
    rewrite (partition_by_key (fun t => String.substring 0 7 (date t)) _ l Hnd).
    rewrite filter_all; [reflexivity|].
    intros t Ht. apply existsb_exists.
    exists (String.substring 0 7 (date t)). split; [|apply String.eqb_refl].
    apply Hmem. eauto.
  - intros M M' t HM HM' Ht Ht'.
    rewrite month_filter_key in Ht, Ht' by assumption.
    apply filter_In in Ht, Ht'. destruct Ht as [_ E], Ht' as [_ E'].
    apply String.eqb_eq in E, E'. congruence.
Qed.

(** ** Creating, then deleting *)

Lemma with_amount_twice (a b : float) (t : Transaction) :
  with_amount a (with_amount b t) = with_amount a t.
Proof. reflexivity. Qed.



(** ** Order of the tree *)

Lemma sorted_impl {A : Type} (R R' : A -> A -> Prop) (l : list A) :
  (forall a b, In a l -> In b l -> R a b -> R' a b) -> Sorted R l -> Sorted R' l.
Proof.
  induction l as [|x l IH]; intros H Hs; [constructor|].
  apply Sorted_inv in Hs. destruct Hs as [Hs Hhd]. constructor.
  - apply IH; [|assumption]. intros a b Ha Hb. apply H; now right.
  - destruct l as [|y l]; constructor. apply HdRel_inv in Hhd.
    apply H; [now left|right; now left|assumption].
Qed.

Section SortFacts.
Context {A : Type}.
Variable compare : A -> A -> option Z.
Hypothesis total : forall a b, ordered compare a b = false -> ordered compare b a = true.

Lemma insert_sorted_sorted (x : A) (l : list A) :
  Sorted (fun a b => ordered compare a b = true) l ->
  Sorted (fun a b => ordered compare a b = true) (insert_sorted compare x l).
Proof.
  induction l as [|y l IH]; intros H; simpl; [repeat constructor|].
  apply Sorted_inv in H. destruct H as [Hs Hhd].
  destruct (ordered compare y x) eqn:E.
  - constructor; [now apply IH|].
    destruct l as [|z l]; simpl; [now constructor|].
    apply HdRel_inv in Hhd. destruct (ordered compare z x); now constructor.
  - constructor; [now constructor|]. constructor. now apply total.
Qed.

Lemma js_sort_sorted (l : list A) :
  Sorted (fun a b => ordered compare a b = true) (js_sort compare l).
Proof.
  unfold js_sort.
  assert (G : forall acc, Sorted (fun a b => ordered compare a b = true) acc ->
                Sorted (fun a b => ordered compare a b = true)
                       (fold_left (fun acc x => insert_sorted compare x acc) l acc)).
  { induction l as [|x l IH]; intros acc Hacc; simpl; [assumption|].
    apply IH. now apply insert_sorted_sorted. }
  apply G. constructor.
Qed.
End SortFacts.

Section TreeOrder.
Variable Date_getTime : string -> option Z.

Lemma sortByDate_total (a b : Transaction) :
  ordered (sortByDate Date_getTime) a b = false ->
  ordered (sortByDate Date_getTime) b a = true.
Proof.
  unfold ordered, sortByDate.
  destruct (Date_getTime (date a)) as [ta|], (Date_getTime (date b)) as [tb|];
    try discriminate.
  intros H. apply Z.leb_gt in H. apply Z.leb_le. lia.
Qed.

Lemma sortByDate_ref_total (m : gmap string TreeObject) (a b : string) :
  ordered (sortByDate_ref Date_getTime m) a b = false ->
  ordered (sortByDate_ref Date_getTime m) b a = true.
Proof.
  unfold ordered at 1 2, sortByDate_ref.
  destruct (m !! a) as [oa|], (m !! b) as [ob|]; try discriminate.
  apply sortByDate_total.
Qed.

Lemma ordered_not_older (a b : Transaction) :
  is_Some (Date_getTime (date a)) -> is_Some (Date_getTime (date b)) ->
  ordered (sortByDate Date_getTime) a b = true -> not_older Date_getTime a b.
Proof.
  intros [ta Ha] [tb Hb]. unfold ordered, sortByDate. rewrite Ha, Hb.
  intros H. apply Z.leb_le in H. exists ta, tb. repeat split; [assumption..|lia].
Qed.

(** Two maps with the same fields under every key compare references
    alike. *)
Lemma sortByDate_ref_fields (m m' : gmap string TreeObject) (a b : string) :
  (forall k, obj_fields <$> (m !! k) = obj_fields <$> (m' !! k)) ->
  sortByDate_ref Date_getTime m a b = sortByDate_ref Date_getTime m' a b.
Proof.
  intros H. unfold sortByDate_ref. pose proof (H a) as Ha. pose proof (H b) as Hb.
  destruct (m !! a) as [oa|], (m' !! a) as [oa'|]; try discriminate; [|reflexivity].
  destruct (m !! b) as [ob|], (m' !! b) as [ob'|]; try discriminate; [|reflexivity].
  simpl in Ha, Hb. congruence.
Qed.

Lemma sort_subItems_fields (m : gmap string TreeObject) (r k : string) :
  obj_fields <$> (sort_subItems Date_getTime m r !! k) = obj_fields <$> (m !! k).
Proof.
  unfold sort_subItems. rewrite lookup_alter. case_decide; [subst|reflexivity].
  now destruct (m !! k).
Qed.

Lemma sort_fold_fields (rs : list string) (m : gmap string TreeObject) (k : string) :
  obj_fields <$> (fold_left (sort_subItems Date_getTime) rs m !! k) = obj_fields <$> (m !! k).
Proof.
  revert m. induction rs as [|r rs IH]; intros m; [reflexivity|].
  cbn [fold_left]. now rewrite IH, sort_subItems_fields.
Qed.

Lemma sort_fold_other (rs : list string) (m : gmap string TreeObject) (k : string) :
  ~ In k rs -> fold_left (sort_subItems Date_getTime) rs m !! k = m !! k.
Proof.
  revert m. induction rs as [|r rs IH]; intros m H; [reflexivity|].
  cbn [fold_left]. rewrite IH by (intros ?; apply H; now right).
  unfold sort_subItems. apply lookup_alter_ne. intros ->. apply H. now left.
Qed.

(** After the loop over the roots, the references held by every root
    object are in order. *)
Lemma sort_fold_sorted (rs : list string) :
  forall (m : gmap string TreeObject) (k : string) (o : TreeObject),
    In k rs -> fold_left (sort_subItems Date_getTime) rs m !! k = Some o ->
    Sorted (fun a b => ordered (sortByDate_ref Date_getTime m) a b = true) (obj_subItems o).
Proof.
  induction rs as [|r rs IH]; intros m k o Hk Ho; [destruct Hk|].
  cbn [fold_left] in Ho.
  assert (T : forall a b,
            ordered (sortByDate_ref Date_getTime (sort_subItems Date_getTime m r)) a b
            = ordered (sortByDate_ref Date_getTime m) a b).
  { intros a b. unfold ordered.
    now rewrite (sortByDate_ref_fields _ m a b (sort_subItems_fields m r)). }
  destruct (in_dec String.string_dec k rs) as [Hin|Hout].
  - apply (sorted_impl (fun a b =>
             ordered (sortByDate_ref Date_getTime (sort_subItems Date_getTime m r)) a b = true)).
    + intros a b _ _. now rewrite T.
    + now apply (IH _ k).
  - destruct Hk as [->|Hk]; [|contradiction].
    rewrite sort_fold_other in Ho by assumption.
    unfold sort_subItems in Ho. rewrite lookup_alter_eq in Ho.
    destruct (m !! k) as [ok|]; [|discriminate]. injection Ho as <-. simpl.
    apply js_sort_sorted. apply sortByDate_ref_total.
Qed.

Lemma index_fields (l : list Transaction) (m : gmap string TreeObject) (k : string)
    (o : TreeObject) :
  fold_left index_step l m !! k = Some o ->
  (In (obj_fields o) l /\ obj_subItems o = []) \/ m !! k = Some o.
Proof.
  revert m. induction l as [|t l IH]; intros m H; [now right|].
  cbn [fold_left] in H. apply IH in H. destruct H as [[H H']|H]; [left; split; [now right|assumption]|].
  unfold index_step in H. destruct (decide (id t = k)) as [<-|E].
  - rewrite lookup_insert_eq in H. injection H as <-. left. split; [now left|reflexivity].
  - rewrite lookup_insert_ne in H by assumption. now right.
Qed.

(** What the builder returns, on the object graph: every object
    carries a record of the input, every reference is a key, and the
    roots and the references of every root are in order. *)
Lemma buildTree_sorted (l : list Transaction) (tree : Tree) :
  buildTree Date_getTime l = Some tree ->
  (forall k o, tree_objects tree !! k = Some o ->
               In (obj_fields o) l
               /\ forall c, In c (obj_subItems o) -> is_Some (tree_objects tree !! c))
  /\ (forall r, In r (tree_roots tree) -> is_Some (tree_objects tree !! r))
  /\ Sorted (fun a b => ordered (sortByDate_ref Date_getTime (tree_objects tree)) a b = true)
            (tree_roots tree)
  /\ (forall r o, In r (tree_roots tree) -> tree_objects tree !! r = Some o ->
        Sorted (fun a b => ordered (sortByDate_ref Date_getTime (tree_objects tree)) a b = true)
               (obj_subItems o)).
Proof.
  unfold buildTree.
  destruct (fold_left attach_step l (Some (fold_left index_step l ∅, [])))
    as [[m2 rs2]|] eqn:F; [|discriminate].
  destruct (attach_fold l l _ m2 [] rs2 (index_dom l) F) as [H1 H2].
  intros E. injection E as <-. cbn [tree_roots tree_objects].
  set (rs := js_sort (sortByDate_ref Date_getTime m2) rs2).
  set (m3 := fold_left (sort_subItems Date_getTime) rs m2).
  assert (Hdom2 : forall k, is_Some (m2 !! k) <-> In k (List.map id l)).
  { intros k. rewrite H2, fmap_is_Some. apply index_dom. }
  assert (Hdom3 : forall k, is_Some (m3 !! k) <-> In k (List.map id l)).
  { intros k. rewrite <- Hdom2. unfold m3.
    pose proof (sort_fold_fields rs m2 k) as Hf.
    destruct (fold_left (sort_subItems Date_getTime) rs m2 !! k), (m2 !! k);
      try discriminate; split; intros [? ?]; try discriminate; eauto. }
  assert (T : forall a b, ordered (sortByDate_ref Date_getTime m2) a b
                          = ordered (sortByDate_ref Date_getTime m3) a b).
  { intros a b. unfold ordered.
    rewrite (sortByDate_ref_fields m2 m3 a b); [reflexivity|].
    intros k. symmetry. apply sort_fold_fields. }
  split; [|split; [|split]].
  - intros k o Ho.
    pose proof (sort_fold_lookup Date_getTime rs m2 k) as S. fold m3 in S.
    destruct (m2 !! k) as [o2|] eqn:E2; [|congruence].
    destruct S as (subs & E3 & P). rewrite Ho in E3. injection E3 as ->. simpl.
    rewrite H2 in E2.
    destruct (fold_left index_step l ∅ !! k) as [o1|] eqn:E1; [|discriminate].
    injection E2 as <-. simpl in *. split.
    + apply index_fields in E1. destruct E1 as [[E1 _]|E1]; [assumption|].
      now rewrite lookup_empty in E1.
    + intros c Hc. apply Hdom3. apply (Permutation_in _ P) in Hc.
      apply in_app_iff in Hc. destruct Hc as [Hc|Hc].
      * apply index_fields in E1. destruct E1 as [[_ E1]|E1].
        -- rewrite E1 in Hc. destruct Hc.
        -- now rewrite lookup_empty in E1.
      * apply in_map_iff in Hc. destruct Hc as (c' & <- & Hc').
        apply in_map. now apply filter_In in Hc'.
  - intros r Hr. apply Hdom3. unfold rs in Hr.
    apply (Permutation_in _ (js_sort_perm _ _)) in Hr. rewrite H1 in Hr. simpl in Hr.
    apply in_map_iff in Hr. destruct Hr as (t & <- & Ht).
    apply in_map. now apply filter_In in Ht.
  - apply (sorted_impl (fun a b => ordered (sortByDate_ref Date_getTime m2) a b = true)).
    + intros a b _ _. now rewrite T.
    + apply js_sort_sorted. apply sortByDate_ref_total.
  - intros r o Hr Ho.
    apply (sorted_impl (fun a b => ordered (sortByDate_ref Date_getTime m2) a b = true)).
    + intros a b _ _. now rewrite T.
    + now apply (sort_fold_sorted rs m2 r).
Qed.

Lemma reify_sorted (l : list Transaction) (objects : gmap string TreeObject) (fuel : nat)
    (refs : list string) :
  (forall t, In t l -> is_Some (Date_getTime (date t))) ->
  (forall k o, objects !! k = Some o -> In (obj_fields o) l) ->
  (forall r, In r refs -> is_Some (objects !! r)) ->
  Sorted (fun a b => ordered (sortByDate_ref Date_getTime objects) a b = true) refs ->
  Sorted (not_older Date_getTime) (omap (reify (S fuel) objects) refs).
Proof.
  intros Hvalid Hfields. induction refs as [|r refs IH]; intros Hkeys Hs; [constructor|].
  apply Sorted_inv in Hs. destruct Hs as [Hs Hhd].
  destruct (Hkeys r (or_introl eq_refl)) as [o Ho].
  cbn [omap list_omap reify]. rewrite Ho.
  constructor; [apply IH; [intros x Hx; apply Hkeys; now right|assumption]|].
  destruct refs as [|r2 refs]; [constructor|].
  destruct (Hkeys r2 (or_intror (or_introl eq_refl))) as [o2 Ho2].
  cbn [omap list_omap reify]. rewrite Ho2. constructor.
  apply HdRel_inv in Hhd. unfold ordered, sortByDate_ref in Hhd. rewrite Ho, Ho2 in Hhd.
  apply ordered_not_older; simpl; eauto.
Qed.

(** When every date is valid, the roots of the tree come newest
    first, and so do the sub-items of every root. *)
Theorem tree_sorted (l roots : list Transaction) :
  (forall t, In t l -> is_Some (Date_getTime (date t))) ->
  transactionsWithSubItems Date_getTime l = Some roots ->
  Sorted (not_older Date_getTime) roots
  /\ forall r items, In r roots -> subItems r = Some items ->
                     Sorted (not_older Date_getTime) items.
Proof.
  intros Hvalid Hroots.
  apply transactionsWithSubItems_Some in Hroots. destruct Hroots as (tree & Hb & ->).
  destruct (buildTree_sorted l tree Hb) as (Hobj & Hkeys & Hs & Hsubs).
  assert (Hfields : forall k o, tree_objects tree !! k = Some o -> In (obj_fields o) l).
  { intros k o Ho. now apply (Hobj k o). }
  split; [now apply (reify_sorted l)|].
  intros r items Hr Hitems.
  apply list_elem_of_In, list_elem_of_omap in Hr. destruct Hr as (ref & Href & Er).
  apply list_elem_of_In in Href.
  cbn [reify] in Er. destruct (tree_objects tree !! ref) as [o|] eqn:Ho; [|discriminate].
  injection Er as <-. cbn [subItems with_subItems] in Hitems. injection Hitems as <-.
  rewrite (nonempty_fuel l (obj_fields o) (Hfields ref o Ho)).
  apply (reify_sorted l); [assumption..| |].
  - intros c Hc. now apply (proj2 (Hobj ref o Ho)).
  - now apply (Hsubs ref).
Qed.
End TreeOrder.

(** ** Categories *)

Lemma default_icon_defined (c : Category) : is_Some (cat_icon (default_icon c)).
Proof.
  unfold default_icon. cbn [cat_icon]. destruct (cat_icon c); [eauto|].
  destruct (List.find (fun ic => String.eqb (cat_name ic) (cat_name c)) INITIAL_CATEGORIES)
    as [ic|]; [|eauto].
  destruct (cat_icon ic); eauto.
Qed.

Lemma default_icon_fixed (c : Category) : is_Some (cat_icon c) -> default_icon c = c.
Proof. intros [i Hi]. destruct c as [k n ic]. simpl in Hi. subst ic. reflexivity. Qed.

Lemma name_present (cs : list Category) (n : string) :
  existsb (fun userCat => String.eqb (cat_name userCat) n) cs = true
  <-> In n (List.map cat_name cs).
Proof.
  rewrite existsb_exists, in_map_iff. split.
  - intros (c & Hc & E). apply String.eqb_eq in E. eauto.
  - intros (c & E & Hc). exists c. split; [assumption|]. now apply String.eqb_eq.
Qed.

(** Pushing the missing members of [inits] on [acc]: the result is
    [acc] followed by the members whose name [acc] lacks. *)
Lemma push_missing_fold (inits : list Category) :
  forall acc, NoDup (List.map cat_name inits) ->
    fold_left (fun mergedCategories initialCat =>
                 if negb (existsb (fun userCat => String.eqb (cat_name userCat)
                                                             (cat_name initialCat))
                                  mergedCategories)
                 then mergedCategories ++ [initialCat] else mergedCategories) inits acc
    = acc ++ List.filter (fun ic => negb (existsb (fun userCat =>
                                      String.eqb (cat_name userCat) (cat_name ic)) acc))
                         inits.
Proof.
  induction inits as [|ic inits IH]; intros acc Hnd; simpl; [now rewrite app_nil_r|].
  apply NoDup_cons in Hnd. destruct Hnd as [Hic Hnd]. rewrite list_elem_of_In in Hic.
  rewrite IH by assumption.
  destruct (existsb _ acc) eqn:E; simpl; [reflexivity|].
  rewrite <- app_assoc. simpl. f_equal. f_equal. apply filter_ext_in. intros x Hx.
  rewrite existsb_app. simpl. rewrite orb_false_r.
  destruct (String.eqb_spec (cat_name ic) (cat_name x)) as [E'|]; [|now rewrite orb_false_r].
  elim Hic. rewrite E'. now apply in_map.
Qed.

Lemma mergeCategories_eq (parsed : list Category) :
  mergeCategories parsed
  = List.map default_icon parsed
    ++ List.filter (fun ic => negb (existsb (fun userCat =>
                                String.eqb (cat_name userCat) (cat_name ic))
                              (List.map default_icon parsed)))
                   INITIAL_CATEGORIES.
Proof.
  unfold mergeCategories. apply (push_missing_fold INITIAL_CATEGORIES).
  apply (bool_decide_unpack _). vm_compute. exact I.
Qed.

Lemma mergeCategories_names (parsed : list Category) (ic : Category) :
  In ic INITIAL_CATEGORIES ->
  In (cat_name ic) (List.map cat_name (mergeCategories parsed)).
Proof.
  intros Hic. rewrite mergeCategories_eq, map_app, in_app_iff.
  destruct (existsb (fun userCat => String.eqb (cat_name userCat) (cat_name ic))
                    (List.map default_icon parsed)) eqn:E.
  - left. now apply name_present.
  - right. apply in_map. apply filter_In. split; [assumption|]. now rewrite E.
Qed.

Lemma mergeCategories_icons (parsed : list Category) (c : Category) :
  In c (mergeCategories parsed) -> is_Some (cat_icon c).
Proof.
  rewrite mergeCategories_eq, in_app_iff, in_map_iff, filter_In.
  intros [(x & <- & _)|[Hc _]]; [apply default_icon_defined|].
  unfold INITIAL_CATEGORIES in Hc. in_cases; simpl; eauto.
Qed.

(** What the load effect makes of the stored categories: they come
    first, in their order, with their id and name and an icon; then
    come the initial categories whose name no stored category has.
    Afterwards every initial name is present and every category has
    an icon. *)
Theorem mergeCategories_spec (parsed : list Category) :
  exists extra,
    mergeCategories parsed = List.map default_icon parsed ++ extra
    /\ List.map cat_id (List.map default_icon parsed) = List.map cat_id parsed
    /\ List.map cat_name (List.map default_icon parsed) = List.map cat_name parsed
    /\ sublist extra INITIAL_CATEGORIES
    /\ (forall ic, In ic INITIAL_CATEGORIES ->
          (In ic extra <-> ~ In (cat_name ic) (List.map cat_name parsed)))
    /\ (forall ic, In ic INITIAL_CATEGORIES ->
          In (cat_name ic) (List.map cat_name (mergeCategories parsed)))
    /\ (forall c, In c (mergeCategories parsed) -> is_Some (cat_icon c)).
Proof.
  assert (Hn : List.map cat_name (List.map default_icon parsed) = List.map cat_name parsed)
    by (rewrite map_map; now apply map_ext).
  eexists. split; [apply mergeCategories_eq|].
  split; [rewrite map_map; now apply map_ext|]. split; [exact Hn|].
  split; [apply filter_sublist|]. split; [|split].
  - intros ic Hic. rewrite filter_In, negb_true_iff, <- Hn, <- name_present.
    destruct (existsb _ _); intuition congruence.
  - intros ic. apply mergeCategories_names.
  - intros c. apply mergeCategories_icons.
Qed.

(** Loading what a load produced changes nothing. *)
Theorem mergeCategories_idempotent (parsed : list Category) :
  mergeCategories (mergeCategories parsed) = mergeCategories parsed.
Proof.
  rewrite (mergeCategories_eq (mergeCategories parsed)).
  assert (Hfix : List.map default_icon (mergeCategories parsed) = mergeCategories parsed).
  { rewrite <- (map_id (mergeCategories parsed)) at 2. apply map_ext_in.
    intros c Hc. apply default_icon_fixed. now apply (mergeCategories_icons parsed). }
  rewrite Hfix, filter_none; [apply app_nil_r|].
  intros ic Hic. apply negb_false_iff, name_present. now apply mergeCategories_names.
Qed.

Section SettingsFacts.
Variable String_toLowerCase : string -> string.
Variable String_trim : string -> string.

(** Adding a category keeps the category names pairwise distinct up
    to case, and touches neither the transactions nor the categories
    that were there. *)
Theorem add_category_distinct (newCategoryName : string) (now : N) (d : UserData) :
  NoDup (List.map (fun c => String_toLowerCase (cat_name c)) (categories d)) ->
  NoDup (List.map (fun c => String_toLowerCase (cat_name c))
                  (categories (handleAddCategory String_toLowerCase String_trim
                                                 newCategoryName now d)))
  /\ transactions (handleAddCategory String_toLowerCase String_trim newCategoryName now d)
     = transactions d
  /\ exists added,
       categories (handleAddCategory String_toLowerCase String_trim newCategoryName now d)
       = categories d ++ added.
Proof.
  intros Hnd. unfold handleAddCategory.
  destruct (truthy_string (String_trim newCategoryName)); simpl;
    [|split; [assumption|split; [reflexivity|exists []; now rewrite app_nil_r]]].
  destruct (existsb _ (categories d)) eqn:E; simpl;
    [split; [assumption|split; [reflexivity|exists []; now rewrite app_nil_r]]|].
  split; [|split; [reflexivity|eauto]].
  rewrite map_app. apply NoDup_app. split; [assumption|]. split; [|apply NoDup_singleton].
  intros x Hx Hs. simpl in Hs. apply list_elem_of_singleton in Hs. subst x.
  apply list_elem_of_In, in_map_iff in Hx. destruct Hx as (c & Ec & Hc).
  assert (T : existsb (fun c => String.eqb (String_toLowerCase (cat_name c))
                                  (String_toLowerCase (String_trim newCategoryName)))
                      (categories d) = true); [|congruence].
  apply existsb_exists. exists c. split; [assumption|]. now apply String.eqb_eq.
Qed.

(** A category that was just added can be deleted again when no
    transaction carries its name, and the user data is then as it was
    before. *)
Theorem add_then_delete_category (newCategoryName : string) (now : N) (d : UserData) :
  truthy_string (String_trim newCategoryName) = true ->
  ~ In (String_toLowerCase (String_trim newCategoryName))
       (List.map (fun c => String_toLowerCase (cat_name c)) (categories d)) ->
  ~ In (new_cat_id now) (List.map cat_id (categories d)) ->
  existsb (uses_category (String_trim newCategoryName)) (transactions d) = false ->
  let added := handleAddCategory String_toLowerCase String_trim newCategoryName now d in
  categories added
  = categories d ++ [ {| cat_id := new_cat_id now; cat_name := String_trim newCategoryName;
                         cat_icon := Some "question_mark_circle" |} ]
  /\ alerts (deleteCategory (new_cat_id now) (idle added)) = 0%nat
  /\ userData (deleteCategory (new_cat_id now) (idle added)) = d.
Proof.
  intros Ht Hname Hid Huse. unfold handleAddCategory. rewrite Ht. simpl.
  assert (E : existsb (fun c => String.eqb (String_toLowerCase (cat_name c))
                                  (String_toLowerCase (String_trim newCategoryName)))
                      (categories d) = false).
  { destruct (existsb _ (categories d)) eqn:E; [|reflexivity]. elim Hname.
    apply existsb_exists in E. destruct E as (c & Hc & E). apply String.eqb_eq in E.
    rewrite <- E. now apply (in_map (fun c => String_toLowerCase (cat_name c))). }
  rewrite E. simpl. split; [reflexivity|].
  assert (F : List.find (fun c => String.eqb (cat_id c) (new_cat_id now))
                (categories d ++ [ {| cat_id := new_cat_id now;
                                      cat_name := String_trim newCategoryName;
                                      cat_icon := Some "question_mark_circle" |} ])
              = Some {| cat_id := new_cat_id now; cat_name := String_trim newCategoryName;
                        cat_icon := Some "question_mark_circle" |}).
  { revert Hid. generalize (categories d). intros cs.
    induction cs as [|c cs IH]; intros Hid; cbn [app List.find cat_id];
      [now rewrite String.eqb_refl|].
    cbn [List.map In] in Hid.
    destruct (String.eqb_spec (cat_id c) (new_cat_id now)) as [E'|E']; [tauto|].
    apply IH. tauto. }
  assert (K : List.filter (fun c => negb (String.eqb (cat_id c) (new_cat_id now)))
                (categories d ++ [ {| cat_id := new_cat_id now;
                                      cat_name := String_trim newCategoryName;
                                      cat_icon := Some "question_mark_circle" |} ])
              = categories d).
  { rewrite List.filter_app. simpl. rewrite String.eqb_refl. simpl. rewrite app_nil_r.
    rewrite forallb_filter_id; [reflexivity|]. apply forallb_forall. intros c Hc.
    apply negb_true_iff. destruct (String.eqb_spec (cat_id c) (new_cat_id now)) as [E'|];
      [|reflexivity].
    elim Hid. rewrite <- E'. now apply in_map. }
  unfold deleteCategory, handleDeleteCategoryRequest. simpl. rewrite F. simpl.
  rewrite Huse. simpl. split; [reflexivity|].
  unfold confirmDelete. simpl. unfold confirmDeleteCategory. simpl. rewrite K.
  destruct d. reflexivity.
Qed.

(** Every category is offered for exactly one of the two transaction
    types, and which one depends on its name only: it is an expense
    category exactly when its lower-cased name contains neither of
    the two income words. *)
Theorem category_lists_partition (categories : list Category) :
  expenseCategories String_toLowerCase categories
  = List.filter (fun c => negb (includes (String_toLowerCase (cat_name c)) "salário"
                                || includes (String_toLowerCase (cat_name c)) "freelance"))
                categories
  /\ Permutation categories
       (incomeCategories String_toLowerCase categories
        ++ expenseCategories String_toLowerCase categories)
  /\ forall c, In c categories ->
       (In c (relevantCategories String_toLowerCase INCOME categories)
        <-> ~ In c (relevantCategories String_toLowerCase EXPENSE categories)).
Proof.
  set (P := fun c => includes (String_toLowerCase (cat_name c)) "salário"
                     || includes (String_toLowerCase (cat_name c)) "freelance").
  assert (E : expenseCategories String_toLowerCase categories
              = List.filter (fun c => negb (P c)) categories).
  { unfold expenseCategories, incomeCategories. fold P. apply filter_ext_in. intros c Hc.
    f_equal. apply eq_true_iff_eq. rewrite existsb_exists. split.
    - intros (n & Hn & En). apply String.eqb_eq in En. apply in_map_iff in Hn.
      destruct Hn as (x & <- & Hx). apply filter_In in Hx. destruct Hx as [_ Hx].
      unfold P in *. now rewrite En.
    - intros Hp. exists (cat_name c). split; [|apply String.eqb_refl].
      apply in_map. now apply filter_In. }
  split; [exact E|]. split.
  - rewrite E. apply perm_filter_split.
  - intros c Hc. simpl. rewrite E. unfold incomeCategories. fold P.
    rewrite !filter_In. destruct (P c); simpl; intuition congruence.
Qed.
End SettingsFacts.

Section RenameFacts.

Variable String_trim : string -> string.

(** The guard reads the name a category has when its deletion is
    asked for: once a category is renamed to a name that no
    transaction carries (a name that [trim] does not make empty, so
    that the rename is accepted), it is deleted without an alert, and
    the transactions keep the name it had. *)
Theorem rename_lifts_guard (d : UserData) (c renamed : Category) :
  NoDup (List.map cat_id (categories d)) -> In c (categories d) ->
  cat_id renamed = cat_id c -> String_trim (cat_name renamed) <> "" ->
  existsb (uses_category (cat_name renamed)) (transactions d) = false ->
  let d' := handleUpdateCategory String_trim renamed d in
  alerts (deleteCategory (cat_id c) (idle d')) = 0%nat
  /\ transactions (userData (deleteCategory (cat_id c) (idle d'))) = transactions d
  /\ Permutation (List.map cat_id (categories d))
       (cat_id c :: List.map cat_id (categories (userData (deleteCategory (cat_id c) (idle d'))))).
Proof.
  intros Hnd Hc Eid Hname Huse. simpl.
  apply truthy_Some in Hname.
  set (d' := handleUpdateCategory String_trim renamed d).
  assert (Ecats : categories d'
                  = List.map (fun x => if String.eqb (cat_id x) (cat_id renamed)
                                       then renamed else x) (categories d)).
  { unfold d', handleUpdateCategory. now rewrite Hname. }
  assert (Etrans : transactions d' = transactions d).
  { unfold d', handleUpdateCategory. now rewrite Hname. }
  assert (Eids : List.map cat_id (categories d') = List.map cat_id (categories d)).
  { rewrite Ecats, map_map. apply map_ext. intros x.
    destruct (String.eqb_spec (cat_id x) (cat_id renamed)); congruence. }
  assert (Hin : In renamed (categories d')).
  { rewrite Ecats. apply in_map_iff. exists c. split; [|assumption].
    rewrite Eid. now rewrite String.eqb_refl. }
  assert (Hnd' : NoDup (List.map cat_id (categories d'))) by now rewrite Eids.
  destruct (category_guard d' renamed Hnd' Hin) as [_ G].
  rewrite Etrans, Eid in G. destruct (G Huse) as (Ha & Ht & P).
  split; [exact Ha|]. split; [exact Ht|].
  apply (Permutation_map cat_id) in P. rewrite Eids in P. cbn [List.map] in P.
  now rewrite Eid in P.
Qed.

(** A rename to a name that [trim] makes empty is refused: nothing
    changes, and the guard keeps reading the old name. *)
Lemma rename_refused (d : UserData) (renamed : Category) :
  String_trim (cat_name renamed) = "" -> handleUpdateCategory String_trim renamed d = d.
Proof. intros H. unfold handleUpdateCategory. now rewrite H. Qed.

End RenameFacts.

(** ** Dictionaries *)

Section DictFacts.
Context {V : Type}.
Implicit Types (o : Dict V) (k : string) (v : V).

Lemma dict_own_None o k : dict_own o k = None <-> ~ In k (List.map fst o).
Proof.
  unfold dict_own. destruct (List.find _ o) as [e|] eqn:F.
  - apply find_some in F. destruct F as [He E]. apply String.eqb_eq in E.
    split; [discriminate|]. intros H. elim H. rewrite <- E. now apply in_map.
  - split; [|reflexivity]. intros _ H. apply in_map_iff in H. destruct H as (e & <- & He).
    apply (find_none _ _ F) in He. simpl in He. now rewrite String.eqb_refl in He.
Qed.

Lemma dict_own_In o k v : dict_own o k = Some v -> In (k, v) o.
Proof.
  unfold dict_own. destruct (List.find _ o) as [e|] eqn:F; [|discriminate].
  apply find_some in F. destruct F as [He E]. apply String.eqb_eq in E.
  intros H. injection H as <-. destruct e. simpl in *. now subst.
Qed.

Lemma dict_In_own o k v : NoDup (List.map fst o) -> In (k, v) o -> dict_own o k = Some v.
Proof.
  unfold dict_own. induction o as [|[k' v'] o IH]; simpl; intros Hnd H; [contradiction|].
  apply NoDup_cons in Hnd. destruct Hnd as [Hk Hnd]. rewrite list_elem_of_In in Hk.
  destruct (String.eqb_spec k' k) as [->|E]; simpl.
  - destruct H as [H|H]; [congruence|]. elim Hk. now apply (in_map fst) in H.
  - destruct H as [H|H]; [congruence|]. now apply IH.
Qed.

Lemma dict_replace_own o k k' v :
  dict_own (dict_replace k v o) k'
  = if String.eqb k' k then (match dict_own o k with Some _ => Some v | None => None end)
    else dict_own o k'.
Proof.
  unfold dict_own. induction o as [|[k0 v0] o IH]; simpl.
  - now destruct (String.eqb k' k).
  - destruct (String.eqb_spec k0 k) as [->|E]; simpl.
    + rewrite (String.eqb_sym k k'). now destruct (String.eqb k' k).
    + destruct (String.eqb_spec k0 k') as [->|E']; simpl.
      * destruct (String.eqb_spec k' k); [congruence|reflexivity].
      * exact IH.
Qed.

Lemma dict_insert_index_perm n k v o : Permutation (dict_insert_index n k v o) ((k, v) :: o).
Proof.
  induction o as [|e o IH]; simpl; [reflexivity|].
  destruct (array_index (fst e)) as [n'|]; [|reflexivity].
  destruct (n' <? n)%N; [|reflexivity]. rewrite IH. apply perm_swap.
Qed.

(** A new key is added, the others stay. *)
Lemma dict_set_new o k v :
  dict_own o k = None -> Permutation (dict_set k v o) ((k, v) :: o).
Proof.
  intros H. unfold dict_set. rewrite H.
  destruct (array_index k); [apply dict_insert_index_perm|].
  symmetry. apply Permutation_cons_append.
Qed.

Lemma dict_own_perm o o' k :
  NoDup (List.map fst o) -> Permutation o o' -> dict_own o k = dict_own o' k.
Proof.
  intros Hnd P.
  assert (Hnd' : NoDup (List.map fst o')) by now rewrite <- P.
  destruct (dict_own o k) as [v|] eqn:E.
  - symmetry. apply dict_In_own; [assumption|]. apply (Permutation_in _ P).
    now apply dict_own_In.
  - symmetry. apply dict_own_None. apply dict_own_None in E. now rewrite <- P.
Qed.

Lemma dict_insert_index_split n k v o :
  exists o1 o2, o = o1 ++ o2 /\ dict_insert_index n k v o = o1 ++ (k, v) :: o2.
Proof.
  induction o as [|e o IH]; simpl; [now exists [], []|].
  destruct (array_index (fst e)) as [n'|]; [|now exists [], (e :: o)].
  destruct (n' <? n)%N; [|now exists [], (e :: o)].
  destruct IH as (o1 & o2 & -> & ->). now exists (e :: o1), o2.
Qed.

Lemma dict_own_middle (o1 o2 : Dict V) k k' v :
  ~ In k (List.map fst o1) ->
  dict_own (o1 ++ (k, v) :: o2) k'
  = if String.eqb k' k then Some v else dict_own (o1 ++ o2) k'.
Proof.
  unfold dict_own. induction o1 as [|[k0 v0] o1 IH]; simpl; intros H.
  - rewrite (String.eqb_sym k k'). now destruct (String.eqb k' k).
  - destruct (String.eqb_spec k0 k') as [->|E]; simpl.
    + destruct (String.eqb_spec k' k); [tauto|reflexivity].
    + apply IH. tauto.
Qed.

(** Reading after writing: the key written holds the value written,
    every other key holds what it held. *)
Lemma dict_set_own o k k' v :
  dict_own (dict_set k v o) k' = if String.eqb k' k then Some v else dict_own o k'.
Proof.
  unfold dict_set. destruct (dict_own o k) as [old|] eqn:E.
  - rewrite dict_replace_own, E. reflexivity.
  - apply dict_own_None in E. destruct (array_index k) as [n|].
    + destruct (dict_insert_index_split n k v o) as (o1 & o2 & -> & ->).
      apply dict_own_middle. rewrite map_app, in_app_iff in E. tauto.
    + rewrite (dict_own_middle o [] k k' v E). now rewrite app_nil_r.
Qed.

Lemma dict_delete_own o k k' :
  dict_own (dict_delete k o) k' = if String.eqb k' k then None else dict_own o k'.
Proof.
  unfold dict_own, dict_delete. induction o as [|[k0 v0] o IH]; simpl.
  - now destruct (String.eqb k' k).
  - destruct (String.eqb_spec k0 k) as [->|E]; simpl.
    + rewrite IH. destruct (String.eqb_spec k' k) as [E'|E']; [reflexivity|].
      destruct (String.eqb_spec k k'); [congruence|reflexivity].
    + destruct (String.eqb_spec k0 k') as [->|E']; simpl.
      * destruct (String.eqb_spec k' k); [congruence|reflexivity].
      * exact IH.
Qed.

Lemma dict_replace_map o k v :
  NoDup (List.map fst o) ->
  dict_replace k v o = List.map (fun e => if String.eqb (fst e) k then (k, v) else e) o.
Proof.
  induction o as [|[k0 v0] o IH]; simpl; intros Hnd; [reflexivity|].
  apply NoDup_cons in Hnd. destruct Hnd as [Hk Hnd]. rewrite list_elem_of_In in Hk.
  destruct (String.eqb_spec k0 k) as [->|E]; [|now rewrite IH].
  f_equal. rewrite <- (map_id o) at 1. apply map_ext_in. intros e He.
  destruct (String.eqb_spec (fst e) k) as [E|]; [|reflexivity].
  elim Hk. rewrite <- E. now apply in_map.
Qed.

Lemma dict_set_keys o k v :
  NoDup (List.map fst o) -> NoDup (List.map fst (dict_set k v o)).
Proof.
  intros Hnd. destruct (dict_own o k) as [old|] eqn:E.
  - unfold dict_set. rewrite E, dict_replace_map, map_map by assumption.
    erewrite map_ext; [exact Hnd|]. intros e. simpl.
    destruct (String.eqb_spec (fst e) k); [now subst|reflexivity].
  - rewrite (dict_set_new o k v E). simpl. apply NoDup_cons. split; [|assumption].
    rewrite list_elem_of_In. now apply dict_own_None.
Qed.

Lemma dict_delete_keys o k :
  NoDup (List.map fst o) -> NoDup (List.map fst (dict_delete k o)).
Proof.
  unfold dict_delete. induction o as [|e o IH]; simpl; intros Hnd; [assumption|].
  apply NoDup_cons in Hnd. destruct Hnd as [Hk Hnd].
  destruct (negb (String.eqb (fst e) k)); simpl; [|now apply IH].
  apply NoDup_cons. split; [|now apply IH].
  rewrite list_elem_of_In in *. intros H. apply Hk.
  apply in_map_iff in H. destruct H as (x & <- & Hx). apply filter_In in Hx.
  apply in_map. tauto.
Qed.

Lemma dict_get_set o k k' v :
  dict_get (dict_set k v o) k' = if String.eqb k' k then Own v else dict_get o k'.
Proof.
  unfold dict_get. rewrite dict_set_own. now destruct (String.eqb k' k).
Qed.

End DictFacts.

(** ** Accounts *)

Lemma dict_has_own {V : Type} (o : Dict V) (k : string) (v : V) :
  dict_own o k = Some v -> dict_has o k = true.
Proof. unfold dict_has, dict_get. now intros ->. Qed.

Lemma dict_has_false {V : Type} (o : Dict V) (k : string) :
  dict_has o k = false -> dict_own o k = None /\ dict_get o k = Absent.
Proof.
  unfold dict_has, dict_get. destruct (dict_own o k); [discriminate|].
  destruct (existsb _ Object_prototype); [discriminate|]. auto.
Qed.

Lemma dict_has_inherited {V : Type} (o : Dict V) (k : string) :
  In k Object_prototype -> dict_has o k = true.
Proof.
  intros H. unfold dict_has, dict_get. destruct (dict_own o k); [reflexivity|].
  assert (E : existsb (String.eqb k) Object_prototype = true); [|now rewrite E].
  apply existsb_exists. exists k. split; [assumption|apply String.eqb_refl].
Qed.

Section AccountFacts.
Variable String_toLowerCase : string -> string.


(** A free user name with an unused address can be registered; the
    account cannot be used before the code returned is presented,
    no other code is accepted, and once verified the account is
    logged in and can log in again with the password given, and
    with no other. *)
Theorem register_verify_login
    (username password email verificationCode registeredAt : string) (st : AuthState) :
  dict_has (userProfiles st) username = false ->
  existsb (same_email String_toLowerCase email) (Object_values (userProfiles st)) = false ->
  exists st1 st2,
    handleRegister String_toLowerCase username password email verificationCode registeredAt st
    = Resolved verificationCode st1
    /\ (exists message, handleLogin username password st1 = Rejected message)
    /\ (forall code, code <> verificationCode ->
          handleVerifyEmail username code st1 = Rejected "Código de verificação inválido.")
    /\ handleVerifyEmail username verificationCode st1 = Resolved tt st2
    /\ (exists p, currentUser st2 = Some p /\ p_username p = username
                  /\ p_email p = email /\ p_isVerified p = true)
    /\ handleLogin username password (handleLogout st2) = Resolved tt st2
    /\ (forall other, other <> password ->
          handleLogin username other (handleLogout st2)
          = Rejected "Usuário ou senha inválidos.").
Proof.
  intros Hfree Hmail. unfold handleRegister. rewrite Hfree, Hmail.
  eexists. eexists. split; [reflexivity|].
  set (new := {| p_username := username; p_displayName := username; p_email := email;
                 p_profilePicture := None; p_registeredAt := registeredAt;
                 p_isVerified := false; p_verificationCode := Some verificationCode |}).
  assert (G1 : dict_get (dict_set username new (userProfiles st)) username = Own new)
    by (rewrite dict_get_set; now rewrite String.eqb_refl).
  assert (G2 : dict_get (dict_set username password (userPasswords st)) username
               = Own password)
    by (rewrite dict_get_set; now rewrite String.eqb_refl).
  split; [|split; [|split; [|split; [|split]]]].
  - unfold handleLogin, dict_has. cbn [userProfiles userPasswords].
    rewrite G1, G2, String.eqb_refl. simpl. eauto.
  - intros code Hcode. unfold handleVerifyEmail. cbn [userProfiles]. rewrite G1.
    cbn [opt_is p_verificationCode new].
    destruct (String.eqb_spec verificationCode code); [congruence|reflexivity].
  - unfold handleVerifyEmail. cbn [userProfiles]. rewrite G1.
    cbn [opt_is p_verificationCode new]. rewrite String.eqb_refl. reflexivity.
  - eexists. split; [reflexivity|]. simpl. auto.
  - unfold handleLogin, handleLogout, dict_has. cbn [userProfiles userPasswords].
    rewrite !dict_get_set, !String.eqb_refl. reflexivity.
  - intros other Hother. unfold handleLogin, handleLogout, dict_has.
    cbn [userProfiles userPasswords].
    rewrite !dict_get_set, !String.eqb_refl.
    destruct (String.eqb_spec password other); [congruence|reflexivity].
Qed.

(** The names of the members of [Object.prototype] cannot be
    registered, whatever the state; and as long as no profile stands
    under such a name, it can neither log in nor be verified. *)
Theorem reserved_user_names (username : string) (st : AuthState) :
  In username Object_prototype ->
  (forall password email verificationCode registeredAt,
     handleRegister String_toLowerCase username password email verificationCode registeredAt st
     = Rejected "Este nome de usuário já existe.")
  /\ (dict_own (userProfiles st) username = None ->
      (forall password, exists message, handleLogin username password st = Rejected message)
      /\ forall code,
           handleVerifyEmail username code st = Rejected "Código de verificação inválido.").
Proof.
  intros Hin. split.
  - intros. unfold handleRegister. now rewrite dict_has_inherited.
  - intros Hown.
    assert (G : dict_get (userProfiles st) username = Inherited).
    { unfold dict_get. rewrite Hown.
      assert (E : existsb (String.eqb username) Object_prototype = true); [|now rewrite E].
      apply existsb_exists. exists username. split; [assumption|apply String.eqb_refl]. }
    split.
    + intros password. unfold handleLogin. rewrite G.
      destruct (_ || _); eauto.
    + intros code. unfold handleVerifyEmail. now rewrite G.
Qed.

Lemma find_replace (P : string * UserProfile -> bool) (o : Dict UserProfile)
    (k : string) (p p' : UserProfile) :
  NoDup (List.map fst o) -> List.find P o = Some (k, p) -> P (k, p') = true ->
  dict_own o k = Some p
  /\ List.find P (dict_set k p' o) = Some (k, p').
Proof.
  intros Hnd F HP.
  assert (Hown : dict_own o k = Some p).
  { apply dict_In_own; [assumption|]. now apply find_some in F. }
  split; [exact Hown|]. unfold dict_set. rewrite Hown. clear Hown.
  induction o as [|e o IH]; simpl in *; [discriminate|].
  apply NoDup_cons in Hnd. destruct Hnd as [Hk Hnd]. rewrite list_elem_of_In in Hk.
  destruct (P e) eqn:Pe.
  - injection F as ->. simpl. rewrite String.eqb_refl. simpl. now rewrite HP.
  - destruct (String.eqb_spec (fst e) k) as [E|E].
    + elim Hk. rewrite E. apply find_some in F. destruct F as [F _].
      now apply (in_map fst) in F.
    + simpl. rewrite Pe. now apply IH.
Qed.

(** A code is accepted once: after a verification, and after a
    password reset, no code is accepted for the same account until a
    new one is generated. *)
Theorem codes_are_single_use (st st' : AuthState) :
  (forall username code,
     handleVerifyEmail username code st = Resolved tt st' ->
     forall again,
       handleVerifyEmail username again st' = Rejected "Código de verificação inválido.")
  /\ (forall email code newPassword,
        NoDup (List.map fst (userProfiles st)) ->
        handleResetPassword String_toLowerCase email code newPassword st = Resolved tt st' ->
        forall again anyPassword,
          handleResetPassword String_toLowerCase email again anyPassword st'
          = Rejected "Código de recuperação inválido.").
Proof.
  split.
  - intros username code H again. unfold handleVerifyEmail in H.
    destruct (dict_get (userProfiles st) username) as [profile| |]; try discriminate.
    destruct (opt_is (p_verificationCode profile) code); [|discriminate].
    injection H as <-. unfold handleVerifyEmail. cbn [userProfiles].
    rewrite dict_get_set, String.eqb_refl. reflexivity.
  - intros email code newPassword Hnd H again anyPassword.
    unfold handleResetPassword, Object_entries in H.
    destruct (List.find _ (userProfiles st)) as [[k p]|] eqn:F; [|discriminate].
    cbn [fst snd] in H.
    destruct (opt_is (p_verificationCode p) code); [|discriminate].
    injection H as <-. unfold handleResetPassword, Object_entries. cbn [userProfiles].
    assert (HP : same_email String_toLowerCase email (with_verification (p_isVerified p) None p) = true).
    { apply find_some in F. now destruct F as [_ F]. }
    destruct (find_replace (fun e => same_email String_toLowerCase email (snd e)) (userProfiles st) k p
                (with_verification (p_isVerified p) None p) Hnd F HP) as [_ ->].
    reflexivity.
Qed.

(** Password recovery: the code generated for the account with the
    address given resets its password, and no other code does;
    afterwards the new password is the one stored for that account
    and the only one that passes the password check, and the other
    accounts keep theirs. *)
Theorem password_recovery (email resetCode newPassword : string) (st : AuthState)
    (username : string) (p : UserProfile) :
  NoDup (List.map fst (userProfiles st)) ->
  List.find (fun e => same_email String_toLowerCase email (snd e)) (Object_entries (userProfiles st))
  = Some (username, p) ->
  exists st1 st2,
    handleForgotPassword String_toLowerCase email resetCode st = Resolved resetCode st1
    /\ (forall code, code <> resetCode ->
          handleResetPassword String_toLowerCase email code newPassword st1
          = Rejected "Código de recuperação inválido.")
    /\ handleResetPassword String_toLowerCase email resetCode newPassword st1 = Resolved tt st2
    /\ dict_get (userPasswords st2) username = Own newPassword
    /\ (forall other, other <> username ->
          dict_get (userPasswords st2) other = dict_get (userPasswords st) other)
    /\ (p_isVerified p = true ->
        exists st3, handleLogin username newPassword st2 = Resolved tt st3)
    /\ (forall password, password <> newPassword ->
          handleLogin username password st2 = Rejected "Usuário ou senha inválidos.").
Proof.
  intros Hnd F. unfold Object_entries in F.
  assert (HP : forall v c, same_email String_toLowerCase email (with_verification v c p) = true).
  { intros v c. apply find_some in F. now destruct F as [_ F]. }
  destruct (find_replace (fun e => same_email String_toLowerCase email (snd e)) (userProfiles st) username p
              (with_verification (p_isVerified p) (Some resetCode) p) Hnd F (HP _ _))
    as [Hown F1].
  unfold handleForgotPassword, Object_entries. rewrite F. cbn [fst snd].
  eexists. eexists. split; [reflexivity|].
  split; [|split; [|split; [|split; [|split]]]].
  - intros code Hcode. unfold handleResetPassword, Object_entries. cbn [userProfiles].
    rewrite F1. cbn [fst snd opt_is p_verificationCode with_verification].
    destruct (String.eqb_spec resetCode code); [congruence|reflexivity].
  - unfold handleResetPassword, Object_entries. cbn [userProfiles].
    rewrite F1. cbn [fst snd opt_is p_verificationCode with_verification].
    rewrite String.eqb_refl. reflexivity.
  - cbn [userPasswords]. rewrite dict_get_set. now rewrite String.eqb_refl.
  - intros other Hother. cbn [userPasswords]. rewrite dict_get_set.
    destruct (String.eqb_spec other username); [congruence|reflexivity].
  - intros Hv. unfold handleLogin, dict_has. cbn [userProfiles userPasswords].
    rewrite !dict_get_set, !String.eqb_refl.
    cbn [p_isVerified with_verification negb orb]. rewrite Hv. eauto.
  - intros password Hpw. unfold handleLogin, dict_has. cbn [userProfiles userPasswords].
    rewrite !dict_get_set, !String.eqb_refl.
    destruct (String.eqb_spec newPassword password); [congruence|reflexivity].
Qed.

(** After the deletion of a user, nobody logs in under that name,
    the stored data of that user is gone, and every other user has
    the profile, the password and the stored data it had. *)
Theorem deleted_user (usernameToDelete : string) (st : AuthState) :
  let st' := handleDeleteUser usernameToDelete st in
  (forall password,
     handleLogin usernameToDelete password st' = Rejected "Usuário ou senha inválidos.")
  /\ user_data (localStorage st') !! usernameToDelete = None
  /\ forall other, other <> usernameToDelete ->
       dict_get (userProfiles st') other = dict_get (userProfiles st) other
       /\ dict_get (userPasswords st') other = dict_get (userPasswords st) other
       /\ user_data (localStorage st') !! other = user_data (localStorage st) !! other.
Proof.
  simpl. split; [|split].
  - intros password.
    assert (G : match dict_get (dict_delete usernameToDelete (userPasswords st))
                               usernameToDelete with
                | Own stored => String.eqb stored password
                | Inherited | Absent => false
                end = false).
    { unfold dict_get. rewrite dict_delete_own, String.eqb_refl.
      now destruct (existsb _ Object_prototype). }
    unfold handleLogin. cbn [userProfiles userPasswords handleDeleteUser].
    rewrite G. now rewrite orb_true_r.
  - apply lookup_delete_eq.
  - intros other Hother. unfold dict_get. rewrite !dict_delete_own.
    destruct (String.eqb_spec other usernameToDelete); [congruence|].
    split; [reflexivity|]. split; [reflexivity|]. now apply lookup_delete_ne.
Qed.
End AccountFacts.

Lemma NoDup_map_filter {A B : Type} (f : A -> B) (P : A -> bool) (l : list A) :
  NoDup (List.map f l) -> NoDup (List.map f (List.filter P l)).
Proof.
  induction l as [|x l IH]; simpl; intros Hnd; [assumption|].
  apply NoDup_cons in Hnd. destruct Hnd as [Hx Hnd].
  destruct (P x); simpl; [|now apply IH].
  apply NoDup_cons. split; [|now apply IH].
  rewrite list_elem_of_In in *. intros H. apply Hx.
  apply in_map_iff in H. destruct H as (y & E & Hy). apply filter_In in Hy.
  rewrite <- E. apply in_map. tauto.
Qed.

Section AccountInvariants.
Variable String_toLowerCase : string -> string.

(** Writing, under the key of an entry, a profile with the user name
    and the address of that entry keeps the accounts identified. *)
Lemma accounts_ok_replace (st : AuthState) (k : string) (p p' : UserProfile) :
  accounts_ok String_toLowerCase st -> In (k, p) (userProfiles st) ->
  p_username p' = p_username p -> p_email p' = p_email p ->
  NoDup (List.map fst (dict_set k p' (userProfiles st)))
  /\ Forall (fun e => p_username (snd e) = fst e) (dict_set k p' (userProfiles st))
  /\ NoDup (List.map (fun e => String_toLowerCase (p_email (snd e)))
                     (dict_set k p' (userProfiles st))).
Proof.
  intros (Hk & Hu & He) Hin Eu Ee.
  assert (Hown : dict_own (userProfiles st) k = Some p) by now apply dict_In_own.
  split; [now apply dict_set_keys|].
  unfold dict_set. rewrite Hown, dict_replace_map by assumption.
  rewrite List.Forall_forall in Hu. split.
  - apply List.Forall_forall. intros e Hin'. apply in_map_iff in Hin'.
    destruct Hin' as (x & <- & Hx).
    destruct (String.eqb_spec (fst x) k) as [E|E]; [|now apply Hu].
    simpl. rewrite Eu. now apply (Hu (k, p)).
  - rewrite map_map. erewrite map_ext_in; [exact He|].
    intros x Hx. destruct (String.eqb_spec (fst x) k) as [E|E]; [|reflexivity].
    simpl. rewrite Ee. f_equal. f_equal.
    assert (dict_own (userProfiles st) k = Some (snd x)) as Hx'.
    { apply dict_In_own; [assumption|]. destruct x. simpl in *. now subst. }
    congruence.
Qed.

(** Whatever is asked of the accounts, the user names stay pairwise
    distinct, every profile stays under its own user name, and no two
    profiles get the same address up to case. *)
Theorem accounts_stay_identified (a : AccountAction) (st : AuthState) :
  accounts_ok String_toLowerCase st ->
  accounts_ok String_toLowerCase (account_step String_toLowerCase a st).
Proof.
  intros Hok. pose proof Hok as (Hk & Hu & He).
  destruct a as [username password|username password email verificationCode registeredAt
                 |username code|email resetCode|email code newPassword| |row];
    cbn [account_step].
  - unfold handleLogin. destruct (_ || _); [exact Hok|].
    destruct (dict_get (userProfiles st) username) as [p| |]; try exact Hok.
    destruct (p_isVerified p); exact Hok.
  - unfold handleRegister. destruct (dict_has (userProfiles st) username) eqn:Hfree;
      [exact Hok|].
    destruct (existsb _ (Object_values (userProfiles st))) eqn:Hmail; [exact Hok|].
    cbn [state_after]. unfold accounts_ok. cbn [userProfiles].
    apply dict_has_false in Hfree. destruct Hfree as [Hown _].
    set (new := {| p_username := username; p_displayName := username; p_email := email;
                   p_profilePicture := None; p_registeredAt := registeredAt;
                   p_isVerified := false; p_verificationCode := Some verificationCode |}).
    pose proof (dict_set_new (userProfiles st) username new Hown) as P.
    split; [now apply dict_set_keys|]. split.
    + rewrite P. constructor; [reflexivity|assumption].
    + rewrite P. cbn [List.map snd p_email new]. apply NoDup_cons. split; [|assumption].
      rewrite list_elem_of_In. intros Hin. apply in_map_iff in Hin.
      destruct Hin as (e & Ee & Hin).
      assert (T : existsb (same_email String_toLowerCase email)
                          (Object_values (userProfiles st)) = true); [|congruence].
      apply existsb_exists. exists (snd e). split; [now apply in_map|].
      unfold same_email. now apply String.eqb_eq.
  - unfold handleVerifyEmail.
    destruct (dict_get (userProfiles st) username) as [p| |] eqn:G; try exact Hok.
    destruct (opt_is (p_verificationCode p) code); [|exact Hok].
    cbn [state_after]. unfold accounts_ok. cbn [userProfiles].
    apply (accounts_ok_replace st username p); auto.
    apply dict_own_In. unfold dict_get in G.
    destruct (dict_own (userProfiles st) username); [congruence|].
    destruct (existsb _ Object_prototype); discriminate.
  - unfold handleForgotPassword, Object_entries.
    destruct (List.find _ (userProfiles st)) as [[k p]|] eqn:F; [|exact Hok].
    cbn [state_after fst snd]. unfold accounts_ok. cbn [userProfiles].
    apply (accounts_ok_replace st k p); auto. now apply find_some in F.
  - unfold handleResetPassword, Object_entries.
    destruct (List.find _ (userProfiles st)) as [[k p]|] eqn:F; [|exact Hok].
    cbn [fst snd]. destruct (opt_is (p_verificationCode p) code); [|exact Hok].
    cbn [state_after]. unfold accounts_ok. cbn [userProfiles].
    apply (accounts_ok_replace st k p); auto. now apply find_some in F.
  - exact Hok.
  - unfold AdminPage_delete. destruct (truthy_string (p_username row)); [|exact Hok].
    unfold accounts_ok. cbn [userProfiles handleDeleteUser].
    split; [now apply dict_delete_keys|]. split.
    + apply List.Forall_forall. intros e Hin. apply filter_In in Hin.
      rewrite List.Forall_forall in Hu. now apply Hu.
    + now apply NoDup_map_filter.
Qed.

(** What is in the state is what is stored: the first effect makes
    the two databases of the state those of [localStorage], and every
    handler keeps them so. *)
Theorem databases_stay_stored (registeredAt : string) (a : AccountAction) (st : AuthState) :
  stored (loadDatabases registeredAt st)
  /\ (stored st -> stored (account_step String_toLowerCase a st)).
Proof.
  split.
  - unfold loadDatabases. destruct (dict_has _ "admin"); now split.
  - intros [Hp Hw].
    destruct a as [username password|username password email verificationCode registeredAt'
                   |username code|email resetCode|email code newPassword| |row];
      cbn [account_step].
    + unfold handleLogin. destruct (_ || _); [now split|].
      destruct (dict_get (userProfiles st) username) as [p| |]; try now split.
      destruct (p_isVerified p); now split.
    + unfold handleRegister. destruct (dict_has (userProfiles st) username); [now split|].
      destruct (existsb _ (Object_values (userProfiles st))); now split.
    + unfold handleVerifyEmail.
      destruct (dict_get (userProfiles st) username) as [p| |]; try now split.
      destruct (opt_is (p_verificationCode p) code); now split.
    + unfold handleForgotPassword.
      destruct (List.find _ (Object_entries (userProfiles st))) as [e|]; now split.
    + unfold handleResetPassword.
      destruct (List.find _ (Object_entries (userProfiles st))) as [e|]; [|now split].
      destruct (opt_is (p_verificationCode (snd e)) code); now split.
    + now split.
    + unfold AdminPage_delete. destruct (truthy_string (p_username row)); now split.
Qed.

(** After the first effect there is an [admin] profile; when the
    stored profiles had none, [admin] logs in with the password
    [admin]. *)
Theorem admin_account (registeredAt : string) (st : AuthState) :
  (exists p, dict_get (userProfiles (loadDatabases registeredAt st)) "admin" = Own p)
  /\ (dict_has (default [] (profiles_db (localStorage st))) "admin" = false ->
      exists st', handleLogin "admin" "admin" (loadDatabases registeredAt st) = Resolved tt st'
                  /\ exists p, currentUser st' = Some p /\ p_username p = "admin").
Proof.
  unfold loadDatabases.
  destruct (dict_has (default [] (profiles_db (localStorage st))) "admin") eqn:H.
  - split; [|discriminate]. cbn [userProfiles]. unfold dict_has in H.
    destruct (dict_get _ "admin") as [p| |] eqn:G; [eauto| |discriminate].
    unfold dict_get in G. destruct (dict_own _ "admin"); [discriminate|].
    vm_compute in G. discriminate G.
  - cbn [userProfiles]. rewrite dict_get_set. cbn [String.eqb Ascii.eqb Bool.eqb].
    split; [eauto|]. intros _.
    unfold handleLogin, dict_has. cbn [userProfiles userPasswords].
    rewrite !dict_get_set. cbn [String.eqb Ascii.eqb Bool.eqb negb orb p_isVerified].
    eexists. split; [reflexivity|]. cbn [currentUser]. eauto.
Qed.

(** The admin page offers no row for a profile named [admin], and
    deleting one of its rows leaves the profile and the password kept
    under [admin] as they are. *)
Theorem admin_page_keeps_admin (row : UserProfile) (st : AuthState) :
  In row (AdminPage_users (userProfiles st)) ->
  p_username row <> "admin"
  /\ dict_get (userProfiles (AdminPage_delete row st)) "admin"
     = dict_get (userProfiles st) "admin"
  /\ dict_get (userPasswords (AdminPage_delete row st)) "admin"
     = dict_get (userPasswords st) "admin".
Proof.
  intros Hrow. unfold AdminPage_users in Hrow. apply filter_In in Hrow.
  destruct Hrow as [_ Hne]. apply negb_true_iff in Hne.
  destruct (String.eqb_spec (p_username row) "admin") as [|Hne']; [discriminate|].
  split; [assumption|]. unfold AdminPage_delete.
  destruct (truthy_string (p_username row)); [|now split].
  cbn [userProfiles userPasswords handleDeleteUser]. unfold dict_get.
  rewrite !dict_delete_own.
  destruct (String.eqb_spec "admin" (p_username row)); [congruence|now split].
Qed.
End AccountInvariants.

(** ** Service worker *)

Lemma caches_open_cached (caches : gmap string (gmap string Response)) (u : string) :
  fst (caches_open CACHE_NAME caches) !! u = cached caches u
  /\ cached (snd (caches_open CACHE_NAME caches)) u = cached caches u.
Proof.
  unfold caches_open, cached. destruct (caches !! CACHE_NAME) as [cache|] eqn:E;
    cbn [fst snd].
  - now rewrite E.
  - split; [apply lookup_empty|]. rewrite lookup_insert_eq. apply lookup_empty.
Qed.

(** What a [fetch] event leaves in the cache for a URL. *)
Lemma onfetch_cached (request : Request) (network : option Response)
    (caches : gmap string (gmap string Response)) (u : string) :
  cached (snd (onfetch request network caches)) u
  = match network with
    | Some r => if String.eqb (method request) "GET" && String.eqb (url request) u
                   && (status r =? 200)
                then Some r else cached caches u
    | None => cached caches u
    end.
Proof.
  unfold onfetch. destruct (String.eqb (method request) "GET"); cbn [negb andb fst snd].
  2: { now destruct network. }
  destruct (caches_open_cached caches u) as [H3 H4].
  destruct (caches_open CACHE_NAME caches) as [cache caches'] eqn:E. cbn [fst snd] in *.
  destruct network as [r|]; [|exact H4].
  destruct (status r =? 200); cbn [snd]; [|now rewrite andb_false_r].
  rewrite andb_true_r. unfold cached at 1. rewrite lookup_insert_eq.
  destruct (String.eqb_spec (url request) u) as [->|Hu].
  - apply lookup_insert_eq.
  - rewrite lookup_insert_ne by assumption. exact H3.
Qed.

Lemma onfetch_offline (request : Request) (caches : gmap string (gmap string Response)) :
  method request = "GET" ->
  fst (onfetch request None caches) = RespondWith (cached caches (url request)).
Proof.
  intros Hget. unfold onfetch. rewrite Hget. cbn [String.eqb Ascii.eqb Bool.eqb negb].
  destruct (caches_open_cached caches (url request)) as [H1 _].
  destruct (caches_open CACHE_NAME caches) as [cache caches'] eqn:E. cbn [fst snd] in *.
  now rewrite H1.
Qed.

(** The network comes first: when it answers a GET, the page gets
    its answer, whatever the cache holds and even if the status is an
    error; the answer replaces what was kept for the URL exactly when
    its status is 200. *)
Theorem fetch_network_first (request : Request) (networkResponse : Response)
    (caches : gmap string (gmap string Response)) :
  method request = "GET" ->
  fst (onfetch request (Some networkResponse) caches) = RespondWith (Some networkResponse)
  /\ cached (snd (onfetch request (Some networkResponse) caches)) (url request)
     = (if status networkResponse =? 200 then Some networkResponse
        else cached caches (url request)).
Proof.
  intros Hget. split.
  - unfold onfetch. rewrite Hget. cbn [String.eqb Ascii.eqb Bool.eqb negb].
    destruct (caches_open CACHE_NAME caches) as [cache caches'].
    now destruct (status networkResponse =? 200).
  - rewrite onfetch_cached, Hget, !String.eqb_refl. reflexivity.
Qed.

Lemma after_fetches_cached (events : list (Request * option Response)) (u : string) :
  forall caches,
    cached (after_fetches events caches) u
    = match last_good u events with
      | Some r => Some r
      | None => cached caches u
      end.
Proof.
  unfold after_fetches. induction events as [|[request network] events IH]; intros caches;
    [reflexivity|].
  cbn [fold_left last_good fst snd]. rewrite IH.
  destruct (last_good u events) as [r|]; [reflexivity|].
  rewrite onfetch_cached. destruct network as [r|]; [|reflexivity].
  now destruct (_ && _).
Qed.

(** Without network, a GET is answered with the last answer of status
    200 that a GET of the same URL got from the network, and, if
    there was none, with what the cache held before (nothing, that
    is a network error, if it held nothing). *)
Theorem offline_last_good (events : list (Request * option Response)) (request : Request)
    (caches : gmap string (gmap string Response)) :
  method request = "GET" ->
  fst (onfetch request None (after_fetches events caches))
  = RespondWith (match last_good (url request) events with
                 | Some r => Some r
                 | None => cached caches (url request)
                 end).
Proof.
  intros Hget. rewrite (onfetch_offline request _ Hget). f_equal.
  apply after_fetches_cached.
Qed.

Lemma addAll_lookup (network : string -> option Response) (urls : list string) (u : string) :
  forall cache : gmap string Response,
    fold_left (fun c u => match network u with
                          | Some r => <[u := r]> c
                          | None => c
                          end) urls cache !! u
    = if existsb (String.eqb u) urls
      then match network u with Some r => Some r | None => cache !! u end
      else cache !! u.
Proof.
  induction urls as [|x urls IH]; intros cache; [reflexivity|].
  cbn [fold_left existsb]. rewrite IH.
  destruct (String.eqb_spec u x) as [->|E]; cbn [orb].
  - destruct (network x) as [r|] eqn:N.
    + rewrite lookup_insert_eq. now destruct (existsb _ urls).
    + now destruct (existsb _ urls).
  - destruct (existsb (String.eqb u) urls); [|destruct (network x)].
    + destruct (network u); [reflexivity|]. destruct (network x); [|reflexivity].
      apply lookup_insert_ne. congruence.
    + apply lookup_insert_ne. congruence.
    + reflexivity.
Qed.

(** After an installation that succeeded, every core asset is
    answered without network, with the response that the
    installation fetched. *)
Theorem install_serves_core_assets (network : string -> option Response)
    (caches : gmap string (gmap string Response)) (u : string) :
  fst (oninstall network caches) = true -> In u CORE_ASSETS ->
  exists r,
    network u = Some r
    /\ fst (onfetch {| method := "GET"; url := u |} None (snd (oninstall network caches)))
       = RespondWith (Some r).
Proof.
  intros Hok Hu. unfold oninstall in *.
  destruct (caches_open CACHE_NAME caches) as [cache caches'].
  destruct (forallb _ CORE_ASSETS) eqn:F; [|discriminate Hok]. cbn [snd].
  assert (Hnet : exists r, network u = Some r).
  { rewrite forallb_forall in F. specialize (F u Hu).
    destruct (network u) as [r|]; [eauto|discriminate]. }
  destruct Hnet as [r Hr]. exists r. split; [exact Hr|].
  rewrite onfetch_offline by reflexivity. f_equal. cbn [url].
  unfold cached. rewrite lookup_insert_eq, addAll_lookup, Hr.
  assert (E : existsb (String.eqb u) CORE_ASSETS = true); [|now rewrite E].
  apply existsb_exists. exists u. split; [assumption|apply String.eqb_refl].
Qed.

(** * The further properties at work *)

Example scenario_months : availableMonths ex_ledger = ["2024-02"; "2024-01"].
Proof. vm_compute. reflexivity. Qed.

Lemma months_partition_records_witness :
  Permutation
    (flat_map (fun M => filteredTransactions M ex_ledger) (availableMonths ex_ledger))
    ex_ledger
  /\ (forall M M' t, In M (availableMonths ex_ledger) -> In M' (availableMonths ex_ledger) ->
        In t (filteredTransactions M ex_ledger) -> In t (filteredTransactions M' ex_ledger) ->
        M = M').
Proof.
  apply (months_partition_records ex_ledger).
  intros t Ht. unfold ex_ledger in Ht. in_cases; vm_compute; lia.
Defined.

(** The totals of the months need not add up to the totals of all
    months: floating-point sums do not regroup. *)
Example monthly_totals_round :
  let l := [ ex_entry "trans1" INCOME 0.1 "2024-01-05T00:00:00.000Z";
             ex_entry "trans2" INCOME 0.3 "2024-02-05T00:00:00.000Z";
             ex_entry "trans3" INCOME 0.7 "2024-01-25T00:00:00.000Z" ] in
  availableMonths l = ["2024-02"; "2024-01"]
  /\ totalIncome (filteredTransactions "all" l) = 1.1%float
  /\ (totalIncome (filteredTransactions "2024-02" l)
      + totalIncome (filteredTransactions "2024-01" l))%float = 1.0999999999999999%float.
Proof. vm_compute. auto. Qed.

Lemma tree_sorted_witness :
  Sorted (not_older calendar_getTime) [ex_groceries_row; with_subItems (Some []) ex_income]
  /\ forall r items,
       In r [ex_groceries_row; with_subItems (Some []) ex_income] ->
       subItems r = Some items -> Sorted (not_older calendar_getTime) items.
Proof.
  apply (tree_sorted calendar_getTime ex_ledger).
  - intros t Ht. unfold ex_ledger in Ht. in_cases; vm_compute; eauto.
  - vm_compute. reflexivity.
Defined.

Lemma delete_leaves_no_reference_witness :
  id ex_income <> id (ex_groceries 75)
  /\ parentId ex_income <> Some (id (ex_groceries 75)).
Proof.
  apply (delete_leaves_no_reference (id (ex_groceries 75)) ex_ledger).
  - vm_compute. right. left. reflexivity.
  - vm_compute. left. reflexivity.
Defined.

Lemma delete_idempotent_witness :
  confirmDeleteTransaction "trans1600000000000" ex_ledger = ex_ledger.
Proof.
  apply (proj1 (delete_idempotent "trans1600000000000" ex_ledger)).
  intros H. vm_compute in H. intuition discriminate.
Defined.

Lemma trans_id_inj_witness : 1704931200000%N = 1704931200000%N.
Proof. apply (trans_id_inj 1704931200000 1704931200000). reflexivity. Defined.

Lemma create_unique_ids_witness :
  unique_ids (handleSaveTransaction None 1705104000000 ex_stray ex_ledger)
  <-> ~ In (trans_id 1705104000000) (List.map id ex_ledger).
Proof.
  apply (create_unique_ids 1705104000000 ex_stray ex_ledger).
  exact (proj1 ex_ledger_valid_ids).
Defined.

(** Two records created in the same millisecond share their id. *)
Example same_instant_same_id :
  ~ unique_ids (handleSaveTransaction None 1705104000000 ex_stray
                  (handleSaveTransaction None 1705104000000 ex_stray ex_ledger)).
Proof.
  unfold unique_ids. rewrite !save_new_ids. intros H.
  apply NoDup_app in H. destruct H as (_ & H & _).
  apply (H (trans_id 1705104000000)); [|now apply list_elem_of_singleton].
  apply list_elem_of_In, in_app_iff. right. now left.
Qed.

Lemma edit_frame_witness :
  List.map erase_amount (handleSaveTransaction (Some ex_basmati) 0 ex_stray ex_ledger)
  = List.map erase_amount ex_ledger
  /\ (truthy (d_parentId ex_stray) = false ->
      handleSaveTransaction (Some ex_basmati) 0 ex_stray ex_ledger = ex_ledger).
Proof.
  apply (proj2 (proj2 (edit_frame ex_basmati 0 ex_stray ex_ledger))).
  intros H. vm_compute in H. intuition discriminate.
Defined.


(** "Groceries" was kept at 100; after a sub-item of 30 was added and
    deleted again, it is at 0. *)
Example add_and_delete_only_sub_item :
  handleSaveTransaction None 1704931200000 ex_sub_item ex_plain
  = [ex_income; ex_groceries 30; ex_rice]
  /\ confirmDeleteTransaction (trans_id 1704931200000)
       (handleSaveTransaction None 1704931200000 ex_sub_item ex_plain)
     = [ex_income; ex_groceries 0].
Proof. split; vm_compute; reflexivity. Qed.

Lemma add_category_distinct_witness :
  NoDup (List.map (fun c => lower (cat_name c))
                  (categories (handleAddCategory lower trim "  Viagens " 1705104000000
                                                 ex_user_data)))
  /\ transactions (handleAddCategory lower trim "  Viagens " 1705104000000 ex_user_data)
     = transactions ex_user_data
  /\ exists added,
       categories (handleAddCategory lower trim "  Viagens " 1705104000000 ex_user_data)
       = categories ex_user_data ++ added.
Proof.
  apply (add_category_distinct lower trim "  Viagens " 1705104000000 ex_user_data).
  by_computation.
Defined.

Example add_category_trims :
  List.map cat_name (categories (handleAddCategory lower trim "  Viagens " 1705104000000
                                                   ex_user_data))
  = ["Supermercado"; "Contas de Casa"; "Aluguel"; "Salário"; "Lazer"; "Viagens"]
  /\ handleAddCategory lower trim "LAZER" 1705104000000 ex_user_data = ex_user_data.
Proof. split; vm_compute; reflexivity. Qed.

Lemma add_then_delete_category_witness :
  let added := handleAddCategory lower trim "  Viagens " 1705104000000 ex_user_data in
  categories added
  = categories ex_user_data
    ++ [ {| cat_id := new_cat_id 1705104000000; cat_name := trim "  Viagens ";
            cat_icon := Some "question_mark_circle" |} ]
  /\ alerts (deleteCategory (new_cat_id 1705104000000) (idle added)) = 0%nat
  /\ userData (deleteCategory (new_cat_id 1705104000000) (idle added)) = ex_user_data.
Proof.
  apply (add_then_delete_category lower trim "  Viagens " 1705104000000 ex_user_data).
  - reflexivity.
  - intros H. vm_compute in H. intuition discriminate.
  - intros H. vm_compute in H. intuition discriminate.
  - reflexivity.
Defined.

Lemma rename_lifts_guard_witness :
  let renamed := {| cat_id := "cat1"; cat_name := "Mercado";
                    cat_icon := Some "shopping_cart" |} in
  let d' := handleUpdateCategory trim renamed ex_user_data in
  alerts (deleteCategory "cat1" (idle d')) = 0%nat
  /\ transactions (userData (deleteCategory "cat1" (idle d'))) = transactions ex_user_data
  /\ Permutation (List.map cat_id (categories ex_user_data))
       ("cat1" :: List.map cat_id (categories (userData (deleteCategory "cat1" (idle d'))))).
Proof.
  apply (rename_lifts_guard trim ex_user_data
           {| cat_id := "cat1"; cat_name := "Supermercado"; cat_icon := Some "shopping_cart" |}
           {| cat_id := "cat1"; cat_name := "Mercado"; cat_icon := Some "shopping_cart" |}).
  - by_computation.
  - left. reflexivity.
  - reflexivity.
  - vm_compute. discriminate.
  - reflexivity.
Defined.

(** A name of one no-break space is refused. *)
Example rename_to_blank_is_refused :
  handleUpdateCategory trim
    {| cat_id := "cat1"; cat_name := ex_no_break_space;
       cat_icon := Some "shopping_cart" |}
    ex_user_data
  = ex_user_data.
Proof. reflexivity. Qed.

(** The instances of the host's functions on some inputs. *)
Example host_instances :
  lower "SALÁRIO" = "salário"
  /\ trim (String.append ex_no_break_space (String.append " Casa  " ex_no_break_space))
     = "Casa"
  /\ calendar_toISOString "2024-02-29" = Some "2024-02-29T00:00:00.000Z"
  /\ calendar_toISOString "2024-02-30" = Some "2024-03-01T00:00:00.000Z"
  /\ calendar_toISOString "2024-13-01" = None
  /\ calendar_getTime "2024-01-05T00:00:00.000Z" = Some 1704412800000.
Proof. vm_compute. repeat split; reflexivity. Qed.

(** With the initial categories, only the salary is offered for an
    income. *)
Example initial_income_categories :
  List.map cat_name (relevantCategories lower INCOME INITIAL_CATEGORIES) = ["Salário"]
  /\ List.map cat_name (relevantCategories lower EXPENSE INITIAL_CATEGORIES)
     = ["Supermercado"; "Contas de Casa"; "Aluguel"; "Lazer"].
Proof. split; vm_compute; reflexivity. Qed.

Example first_visit_accounts :
  List.map fst (userProfiles ex_accounts) = ["admin"]
  /\ userPasswords ex_accounts = [("admin", "admin")]
  /\ List.map fst (userProfiles ex_verified) = ["admin"; "ana"]
  /\ dict_get (userProfiles ex_verified) "ana" = Own ex_ana
  /\ currentUser ex_verified = Some ex_ana.
Proof. repeat split; vm_compute; reflexivity. Qed.

(** The keys that are array indices come first, in ascending order,
    whenever they were written. *)
Example numeric_keys_come_first :
  List.map fst (dict_set "10" 3 (dict_set "b" 2 (dict_set "2" 1 (dict_set "a" 0 []))))
  = ["2"; "10"; "a"; "b"]
  /\ dict_get (dict_set "b" 2 (dict_set "a" 0 [])) "toString" = Inherited
  /\ dict_get (dict_set "b" 2 (dict_set "a" 0 [])) "c" = Absent.
Proof. repeat split; vm_compute; reflexivity. Qed.

Lemma register_verify_login_witness :
  exists st1 st2,
    handleRegister lower "ana" "secret1" "Ana@Example.com" "123456"
                   "2024-01-02T00:00:00.000Z" ex_accounts
    = Resolved "123456" st1
    /\ (exists message, handleLogin "ana" "secret1" st1 = Rejected message)
    /\ (forall code, code <> "123456" ->
          handleVerifyEmail "ana" code st1 = Rejected "Código de verificação inválido.")
    /\ handleVerifyEmail "ana" "123456" st1 = Resolved tt st2
    /\ (exists p, currentUser st2 = Some p /\ p_username p = "ana"
                  /\ p_email p = "Ana@Example.com" /\ p_isVerified p = true)
    /\ handleLogin "ana" "secret1" (handleLogout st2) = Resolved tt st2
    /\ (forall other, other <> "secret1" ->
          handleLogin "ana" other (handleLogout st2) = Rejected "Usuário ou senha inválidos.").
Proof.
  apply (register_verify_login lower "ana" "secret1" "Ana@Example.com" "123456"
           "2024-01-02T00:00:00.000Z" ex_accounts); reflexivity.
Defined.

Lemma reserved_user_names_witness :
  handleRegister lower "constructor" "secret1" "Ana@Example.com" "123456"
                 "2024-01-02T00:00:00.000Z" ex_accounts
  = Rejected "Este nome de usuário já existe.".
Proof.
  apply (reserved_user_names lower "constructor" ex_accounts).
  left. reflexivity.
Defined.

Lemma codes_are_single_use_witness :
  handleVerifyEmail "ana" "123456" ex_verified = Rejected "Código de verificação inválido.".
Proof.
  apply (proj1 (codes_are_single_use lower ex_registered ex_verified) "ana" "123456").
  reflexivity.
Defined.

Lemma password_recovery_witness :
  exists st1 st2,
    handleForgotPassword lower "ana@example.com" "654321" (handleLogout ex_verified)
    = Resolved "654321" st1
    /\ (forall code, code <> "654321" ->
          handleResetPassword lower "ana@example.com" code "secret2" st1
          = Rejected "Código de recuperação inválido.")
    /\ handleResetPassword lower "ana@example.com" "654321" "secret2" st1 = Resolved tt st2
    /\ dict_get (userPasswords st2) "ana" = Own "secret2"
    /\ (forall other, other <> "ana" ->
          dict_get (userPasswords st2) other
          = dict_get (userPasswords (handleLogout ex_verified)) other)
    /\ (p_isVerified ex_ana = true ->
        exists st3, handleLogin "ana" "secret2" st2 = Resolved tt st3)
    /\ (forall password, password <> "secret2" ->
          handleLogin "ana" password st2 = Rejected "Usuário ou senha inválidos.").
Proof.
  apply (password_recovery lower "ana@example.com" "654321" "secret2"
           (handleLogout ex_verified) "ana" ex_ana).
  - by_computation.
  - reflexivity.
Defined.

Lemma ex_verified_ok : accounts_ok lower ex_verified.
Proof.
  split; [by_computation|]. split; [|by_computation].
  repeat constructor.
Defined.

Lemma accounts_stay_identified_witness :
  accounts_ok lower
    (account_step lower (Register "rui" "secret3" "ANA@example.com" "111111"
                                  "2024-01-03T00:00:00.000Z") ex_verified).
Proof.
  apply (accounts_stay_identified lower). exact ex_verified_ok.
Defined.

(** An address that differs from a registered one by case only is
    refused. *)
Example same_address_is_refused :
  handleRegister lower "rui" "secret3" "ANA@example.com" "111111"
                 "2024-01-03T00:00:00.000Z" ex_verified
  = Rejected "Este e-mail já está em uso.".
Proof. reflexivity. Qed.

Lemma admin_page_keeps_admin_witness :
  p_username ex_ana <> "admin"
  /\ dict_get (userProfiles (AdminPage_delete ex_ana ex_verified)) "admin"
     = dict_get (userProfiles ex_verified) "admin"
  /\ dict_get (userPasswords (AdminPage_delete ex_ana ex_verified)) "admin"
     = dict_get (userPasswords ex_verified) "admin".
Proof.
  apply (admin_page_keeps_admin ex_ana ex_verified).
  vm_compute. left. reflexivity.
Defined.

Lemma fetch_network_first_witness :
  fst (onfetch (ex_get "./index.html") (Some ex_error)
               (snd (onfetch (ex_get "./index.html") (Some ex_page) ∅)))
  = RespondWith (Some ex_error)
  /\ cached (snd (onfetch (ex_get "./index.html") (Some ex_error)
                          (snd (onfetch (ex_get "./index.html") (Some ex_page) ∅))))
            (url (ex_get "./index.html"))
     = (if status ex_error =? 200 then Some ex_error
        else cached (snd (onfetch (ex_get "./index.html") (Some ex_page) ∅))
                    (url (ex_get "./index.html"))).
Proof.
  apply (fetch_network_first (ex_get "./index.html") ex_error). reflexivity.
Defined.

Lemma offline_last_good_witness :
  fst (onfetch (ex_get "./index.html") None (after_fetches ex_session ∅))
  = RespondWith (match last_good (url (ex_get "./index.html")) ex_session with
                 | Some r => Some r
                 | None => cached ∅ (url (ex_get "./index.html"))
                 end).
Proof. apply (offline_last_good ex_session (ex_get "./index.html") ∅). reflexivity. Defined.

(** The page that was answered once with success is served without
    network, although the last answer was an error. *)
Example offline_page :
  fst (onfetch (ex_get "./index.html") None (after_fetches ex_session ∅))
  = RespondWith (Some ex_page).
Proof. vm_compute. reflexivity. Qed.

Lemma install_serves_core_assets_witness :
  exists r,
    Some ex_page = Some r
    /\ fst (onfetch {| method := "GET"; url := "./bundle.js" |} None
                    (snd (oninstall (fun _ => Some ex_page) ∅)))
       = RespondWith (Some r).
Proof.
  apply (install_serves_core_assets (fun _ => Some ex_page) ∅ "./bundle.js").
  - vm_compute. reflexivity.
  - vm_compute. auto.
Defined.
